(** * The URL shortener backend (backend/main.go)

    A shallow embedding of the Go service: the in-memory record store,
    the adjective-noun code generator, the three request handlers and the
    root dispatcher, followed by the properties the specification states
    about them.

    Go strings are byte strings and are modelled by [string]; the slice
    [urls] is a [list]; [int] is the 64-bit signed integer, a [Z] with its
    wrap-around written out.  The mutex makes every handler one atomic
    step on the store, so a handler is a function from the store to a
    response and a new store. *)

From Stdlib Require Import List String Ascii ZArith NArith Lia Bool Arith PeanoNat.
From Stdlib Require Import Zify ZifyBool.
From Stdlib Require Decimal DecimalFacts DecimalPos DecimalZ DecimalString.
Import ListNotations.
Local Open Scope string_scope.

(** ** FR001: the two hard-coded word lists *)

Definition adjectives : list string :=
  [ "quick"; "lazy"; "sleepy"; "noisy"; "hungry"; "brave"; "bright"; "calm"; "eager"; "fancy";
    "gentle"; "happy"; "jolly"; "kind"; "lively"; "merry"; "nice"; "proud"; "silly"; "witty";
    "clever"; "dizzy"; "grumpy"; "lucky"; "mighty"; "plucky"; "shiny"; "tiny"; "zany"; "breezy";
    "bubbly"; "cheery"; "comfy"; "cozy"; "crispy"; "curly"; "fluffy"; "fuzzy"; "gloomy"; "groovy";
    "hazy"; "icy"; "jazzy"; "jumpy"; "quirky"; "snappy"; "sunny"; "tasty"; "vibey"; "zippy" ].

Definition nouns : list string :=
  [ "fox"; "dog"; "cat"; "mouse"; "bird"; "wolf"; "lion"; "tiger"; "bear"; "frog";
    "fish"; "shark"; "whale"; "squid"; "crab"; "snake"; "lizard"; "gecko"; "newt"; "otter";
    "seal"; "duck"; "goose"; "swan"; "crow"; "raven"; "owl"; "hawk"; "eagle"; "pigeon";
    "robin"; "finch"; "sparrow"; "horse"; "pony"; "donkey"; "mule"; "cow"; "bull"; "pig";
    "sheep"; "goat"; "llama"; "alpaca"; "camel"; "koala"; "panda"; "sloth"; "lemur"; "hippo" ].

(** ** The data model of urls.json *)

(** Go's [int] on a 64-bit platform. *)
Definition min_int : Z := - 2 ^ 63.
Definition max_int : Z := 2 ^ 63 - 1.

Definition in_int (z : Z) : bool := ((min_int <=? z) && (z <=? max_int))%Z.

(** The value an [int] computation is left with: reduction modulo 2^64
    into the signed range. *)
Definition wrap_int (z : Z) : Z := ((z + 2 ^ 63) mod 2 ^ 64 - 2 ^ 63)%Z.

Record URLRecord : Type := mkURLRecord {
  ShortCode : string;
  LongURL : string;
  CreatedAt : string;
  UsageCount : Z
}.

(** The codes of a collection, in the order of the records. *)
Definition codes (urls : list URLRecord) : list string := map ShortCode urls.

(** ** The code generator (the loop of createURLHandler)

    [rand.Intn n] returns some number below [n].  The package-level source
    is modelled by the stream of the numbers it hands out, each reduced
    below the bound of the call that consumes it. *)

Definition Rand : Type := nat -> nat.

Definition Intn (rnd : Rand) (n : nat) : nat := rnd 0 mod n.

(** The source after one call. *)
Definition advance (k : nat) (rnd : Rand) : Rand := fun i => rnd (k + i).

(** [fmt.Sprintf("%s-%s", adj, noun)] *)
Definition Sprintf_code (adj noun : string) : string := adj ++ "-" ++ noun.

(** The inner loop: scan the records, stop at the first one that has the
    code. *)
Fixpoint isUnique (code : string) (urls : list URLRecord) : bool :=
  match urls with
  | [] => true
  | record :: rest =>
      if (ShortCode record =? code)%string then false else isUnique code rest
  end.

(** One round of the outer loop draws the adjective, then the noun. *)
Definition draw_code (rnd : Rand) : string :=
  let adj := nth (Intn rnd (List.length adjectives)) adjectives "" in
  let noun := nth (Intn (advance 1 rnd) (List.length nouns)) nouns "" in
  Sprintf_code adj noun.

(** The outer [for] loop has no exit but the unique candidate; [fuel]
    bounds the number of rounds the model runs, and [None] stands for a
    loop still running after that many rounds.  The result carries the
    source as the loop leaves it. *)
Fixpoint generate (fuel : nat) (rnd : Rand) (urls : list URLRecord)
  : option (string * Rand) :=
  match fuel with
  | O => None
  | S fuel' =>
      let code := draw_code rnd in
      if isUnique code urls then Some (code, advance 2 rnd)
      else generate fuel' (advance 2 rnd) urls
  end.

(** ** encoding/json, as the service uses it

    The library in two layers: JSON text, written and scanned, and the
    JSON values between the text and the types of the service, mapped by
    the field tags of [URLRecord] and of the request body.  The backing
    file and the body of a request are text; the body of a response is
    kept as the value the encoder is handed, and [Encode] gives the text
    that is written of it. *)

Module JSON.

#[local] Set Warnings "-register-all".

Inductive value : Type :=
| JNull
| JBool (b : bool)
| JInt (z : Z)              (* a number literal without fraction or exponent *)
| JReal (literal : string)  (* any other number literal *)
| JString (s : string)
| JArray (elems : list value)
| JObject (members : list (string * value)).

(** *** unicode/utf8 *)

Local Open Scope N_scope.

Definition RuneError : N := 0xFFFD.

Definition byte (c : ascii) : N := N_of_ascii c.
Definition chr (n : N) : ascii := ascii_of_N n.

(** The table [first] with [acceptRanges], on a byte from 0x80 up: the
    length of the sequence the byte starts and the range its second byte
    has to be in; [None] for a byte that starts no sequence. *)
Definition first (s0 : N) : option (nat * N * N) :=
  if s0 <? 0xC2 then None
  else if s0 <=? 0xDF then Some (2%nat, 0x80, 0xBF)
  else if s0 =? 0xE0 then Some (3%nat, 0xA0, 0xBF)
  else if s0 =? 0xED then Some (3%nat, 0x80, 0x9F)
  else if s0 <=? 0xEF then Some (3%nat, 0x80, 0xBF)
  else if s0 =? 0xF0 then Some (4%nat, 0x90, 0xBF)
  else if s0 <=? 0xF3 then Some (4%nat, 0x80, 0xBF)
  else if s0 =? 0xF4 then Some (4%nat, 0x80, 0x8F)
  else None.

Definition continues (s : N) : bool := (0x80 <=? s) && (s <=? 0xBF).

(** [utf8.DecodeRuneInString]: the rune and its width in bytes; an
    invalid encoding gives [(RuneError, 1)]. *)
Definition DecodeRune (s : string) : N * nat :=
  match s with
  | EmptyString => (RuneError, 0%nat)
  | String c0 t0 =>
      let s0 := byte c0 in
      if s0 <? 0x80 then (s0, 1%nat)
      else
        match first s0, t0 with
        | Some (sz, lo, hi), String c1 t1 =>
            let s1 := byte c1 in
            if (s1 <? lo) || (hi <? s1) then (RuneError, 1%nat)
            else if (sz =? 2)%nat then
              (N.lor (N.shiftl (N.land s0 0x1F) 6) (N.land s1 0x3F), 2%nat)
            else
              match t1 with
              | String c2 t2 =>
                  let s2 := byte c2 in
                  if negb (continues s2) then (RuneError, 1%nat)
                  else if (sz =? 3)%nat then
                    (N.lor (N.lor (N.shiftl (N.land s0 0x0F) 12)
                                  (N.shiftl (N.land s1 0x3F) 6))
                           (N.land s2 0x3F), 3%nat)
                  else
                    match t2 with
                    | String c3 _ =>
                        let s3 := byte c3 in
                        if negb (continues s3) then (RuneError, 1%nat)
                        else
                          (N.lor (N.lor (N.lor (N.shiftl (N.land s0 0x07) 18)
                                               (N.shiftl (N.land s1 0x3F) 12))
                                        (N.shiftl (N.land s2 0x3F) 6))
                                 (N.land s3 0x3F), 4%nat)
                    | EmptyString => (RuneError, 1%nat)
                    end
              | EmptyString => (RuneError, 1%nat)
              end
        | _, _ => (RuneError, 1%nat)
        end
  end.

(** [utf8.AppendRune] on an empty buffer. *)
Definition EncodeRune (r : N) : string :=
  let three (r : N) :=
    String (chr (N.lor 0xE0 (N.shiftr r 12)))
      (String (chr (N.lor 0x80 (N.land (N.shiftr r 6) 0x3F)))
         (String (chr (N.lor 0x80 (N.land r 0x3F))) EmptyString)) in
  if r <=? 0x7F then String (chr r) EmptyString
  else if r <=? 0x7FF then
    String (chr (N.lor 0xC0 (N.shiftr r 6)))
      (String (chr (N.lor 0x80 (N.land r 0x3F))) EmptyString)
  else if (0x10FFFF <? r) || ((0xD800 <=? r) && (r <=? 0xDFFF)) then
    three RuneError
  else if r <=? 0xFFFF then three r
  else
    String (chr (N.lor 0xF0 (N.shiftr r 18)))
      (String (chr (N.lor 0x80 (N.land (N.shiftr r 12) 0x3F)))
         (String (chr (N.lor 0x80 (N.land (N.shiftr r 6) 0x3F)))
            (String (chr (N.lor 0x80 (N.land r 0x3F))) EmptyString))).

(** [s[n:]] and [s[:n]] *)
Fixpoint drop (n : nat) (s : string) : string :=
  match n, s with
  | S n', String _ rest => drop n' rest
  | _, _ => s
  end.

Fixpoint take (n : nat) (s : string) : string :=
  match n, s with
  | S n', String c rest => String c (take n' rest)
  | _, _ => EmptyString
  end.

Definition invalid_at (s : string) : bool :=
  let (r, size) := DecodeRune s in (r =? RuneError) && (size =? 1)%nat.

(** [utf8.ValidString]; [fuel] bounds the iterations, one per rune. *)
Fixpoint ValidString_from (fuel : nat) (s : string) : bool :=
  match fuel, s with
  | _, EmptyString => true
  | O, _ => false
  | S fuel', String c rest =>
      if byte c <? 0x80 then ValidString_from fuel' rest
      else if invalid_at s then false
      else ValidString_from fuel' (drop (snd (DecodeRune s)) s)
  end.

Definition ValidString (s : string) : bool :=
  ValidString_from (String.length s) s.

(** *** Writing JSON text *)

Definition dquote : ascii := "034"%char.
Definition backslash : ascii := "092"%char.

Definition hex (n : N) : ascii :=
  match get (N.to_nat n) "0123456789abcdef" with
  | Some c => c
  | None => "0"%char
  end.

(** [htmlSafeSet]: the ASCII bytes that are written as they are. *)
Definition htmlSafe (b : N) : bool :=
  (0x20 <=? b) && negb ((b =? 0x22) || (b =? 0x5C)
                        || (b =? 0x3C) || (b =? 0x3E) || (b =? 0x26)).

(** The escape of an ASCII byte outside the set, with the short forms of
    backspace and form feed that the encoder has since Go 1.22 (it wrote
    them with four hex digits before; the decoder reads both). *)
Definition escape_ascii (c : ascii) : string :=
  let b := byte c in
  if (b =? 0x5C) || (b =? 0x22) then String backslash (String c EmptyString)
  else if b =? 0x08 then String backslash "b"
  else if b =? 0x0C then String backslash "f"
  else if b =? 0x0A then String backslash "n"
  else if b =? 0x0D then String backslash "r"
  else if b =? 0x09 then String backslash "t"
  else String backslash
         (String "u" (String "0" (String "0"
            (String (hex (N.shiftr b 4))
               (String (hex (N.land b 0xF)) EmptyString))))).

(** The loop of [appendString(dst, src, escapeHTML = true)], between the
    two quotes.  [fuel] bounds the iterations, one per rune. *)
Fixpoint appendString_from (fuel : nat) (src : string) : string :=
  match fuel, src with
  | O, _ => EmptyString
  | _, EmptyString => EmptyString
  | S fuel', String c rest =>
      if byte c <? 0x80 then
        (if htmlSafe (byte c) then String c EmptyString else escape_ascii c)
        ++ appendString_from fuel' rest
      else
        let (r, size) := DecodeRune (take 4 src) in
        if (r =? RuneError) && (size =? 1)%nat then
          String backslash "ufffd" ++ appendString_from fuel' rest
        else if (r =? 0x2028) || (r =? 0x2029) then
          String backslash "u202" ++ String (hex (N.land r 0xF)) EmptyString
          ++ appendString_from fuel' (drop size src)
        else take size src ++ appendString_from fuel' (drop size src)
  end.

Definition appendString (src : string) : string :=
  String dquote (appendString_from (String.length src) src)
  ++ String dquote EmptyString.

(** [strconv.AppendInt(dst, z, 10)] *)
Definition FormatInt (z : Z) : string :=
  DecimalString.NilEmpty.string_of_int (Z.to_int z).

Local Close Scope N_scope.

Fixpoint spaces (n : nat) : string :=
  match n with
  | O => EmptyString
  | S n' => String " " (spaces n')
  end.

(** A line break of [Indent], with prefix "" and indent "  ". *)
Definition newline (depth : nat) : string := String "010" (spaces (2 * depth)).

(** The text of a value as [MarshalIndent(v, "", "  ")] lays it out: the
    elements of an array and the members of an object one per line, two
    spaces deeper than the brackets. *)
Fixpoint indent_value (depth : nat) (v : value) {struct v} : string :=
  match v with
  | JNull => "null"
  | JBool b => if b then "true" else "false"
  | JInt z => FormatInt z
  | JReal literal => literal
  | JString s => appendString s
  | JArray [] => "[]"
  | JArray elems =>
      "[" ++ newline (S depth)
      ++ concat ("," ++ newline (S depth)) (map (indent_value (S depth)) elems)
      ++ newline depth ++ "]"
  | JObject [] => "{}"
  | JObject members =>
      "{" ++ newline (S depth)
      ++ concat ("," ++ newline (S depth))
           (map (fun m : string * value =>
                   appendString (fst m) ++ ": " ++ indent_value (S depth) (snd m))
                members)
      ++ newline depth ++ "}"
  end.

(** *** Reading JSON text: the scanner and [unquote] *)

Definition isSpace (c : ascii) : bool :=
  ((c =? " ") || (c =? "009") || (c =? "013") || (c =? "010"))%char.

Fixpoint skip_space (s : string) : string :=
  match s with
  | String c rest => if isSpace c then skip_space rest else s
  | EmptyString => EmptyString
  end.

(** [s] without the prefix [lit], when it has it. *)
Fixpoint strip (lit s : string) : option string :=
  match lit, s with
  | EmptyString, _ => Some s
  | String a lit', String b s' => if (a =? b)%char then strip lit' s' else None
  | _, _ => None
  end.

Definition isDigit (c : ascii) : bool := (("0" <=? c) && (c <=? "9"))%char.

Definition hexval (c : ascii) : option N :=
  if isDigit c then Some (byte c - 48)%N
  else if (("a" <=? c) && (c <=? "f"))%char then Some (byte c - 87)%N
  else if (("A" <=? c) && (c <=? "F"))%char then Some (byte c - 55)%N
  else None.

(** [getu4] past the backslash and the u: the four hex digits. *)
Definition getu4 (s : string) : option (N * string) :=
  match s with
  | String h1 (String h2 (String h3 (String h4 rest))) =>
      match hexval h1, hexval h2, hexval h3, hexval h4 with
      | Some a, Some b, Some c, Some d =>
          Some ((((a * 16 + b) * 16 + c) * 16 + d)%N, rest)
      | _, _, _, _ => None
      end
  | _ => None
  end.

Definition IsSurrogate (r : N) : bool := ((0xD800 <=? r) && (r <? 0xE000))%N.

(** [utf16.DecodeRune] *)
Definition utf16_DecodeRune (r1 r2 : N) : N :=
  if ((0xD800 <=? r1) && (r1 <? 0xDC00) && (0xDC00 <=? r2) && (r2 <? 0xE000))%N
  then (N.lor (N.shiftl (r1 - 0xD800) 10) (r2 - 0xDC00) + 0x10000)%N
  else RuneError.

Definition emit (out : string) (res : option (string * string))
  : option (string * string) :=
  match res with
  | Some (t, rest) => Some (out ++ t, rest)
  | None => None
  end.

(** A string literal past its opening quote: the string it denotes and
    the text after the closing quote.  [fuel] bounds the iterations, one
    per character or escape. *)
Fixpoint unquote (fuel : nat) (s : string) : option (string * string) :=
  match fuel, s with
  | O, _ => None
  | _, EmptyString => None
  | S fuel', String c rest =>
      if (c =? dquote)%char then Some (EmptyString, rest)
      else if (c =? backslash)%char then
        match rest with
        | String e rest1 =>
            if ((e =? dquote) || (e =? backslash) || (e =? "/"))%char
            then emit (String e EmptyString) (unquote fuel' rest1)
            else if (e =? "b")%char then emit (String "008" EmptyString) (unquote fuel' rest1)
            else if (e =? "f")%char then emit (String "012" EmptyString) (unquote fuel' rest1)
            else if (e =? "n")%char then emit (String "010" EmptyString) (unquote fuel' rest1)
            else if (e =? "r")%char then emit (String "013" EmptyString) (unquote fuel' rest1)
            else if (e =? "t")%char then emit (String "009" EmptyString) (unquote fuel' rest1)
            else if (e =? "u")%char then
              match getu4 rest1 with
              | Some (rr, rest2) =>
                  if IsSurrogate rr then
                    match strip (String backslash "u") rest2 with
                    | Some rest3 =>
                        match getu4 rest3 with
                        | Some (rr1, rest4) =>
                            if (utf16_DecodeRune rr rr1 =? RuneError)%N
                            then emit (EncodeRune RuneError) (unquote fuel' rest2)
                            else emit (EncodeRune (utf16_DecodeRune rr rr1))
                                   (unquote fuel' rest4)
                        | None => emit (EncodeRune RuneError) (unquote fuel' rest2)
                        end
                    | None => emit (EncodeRune RuneError) (unquote fuel' rest2)
                    end
                  else emit (EncodeRune rr) (unquote fuel' rest2)
              | None => None
              end
            else None
        | EmptyString => None
        end
      else if (byte c <? 0x20)%N then None
      else if (byte c <? 0x80)%N then emit (String c EmptyString) (unquote fuel' rest)
      else
        let (rr, size) := DecodeRune s in
        emit (EncodeRune rr) (unquote fuel' (drop size s))
  end.

(** The digits at the head of [s], and the rest. *)
Fixpoint digits (s : string) : string * string :=
  match s with
  | String c rest =>
      if isDigit c then let (d, rest') := digits rest in (String c d, rest')
      else (EmptyString, s)
  | EmptyString => (EmptyString, EmptyString)
  end.

Definition decimal (d : string) : Z :=
  match DecimalString.NilEmpty.uint_of_string d with
  | Some u => Z.of_uint u
  | None => 0
  end.

(** [s] past its first character, when that is [c]. *)
Definition next_is (c : ascii) (s : string) : option string :=
  match s with
  | String d rest => if (d =? c)%char then Some rest else None
  | EmptyString => None
  end.

(** A string literal: the quote, then the string up to the closing
    quote. *)
Definition scan_string (s : string) : option (string * string) :=
  match next_is dquote s with
  | Some rest => unquote (String.length rest) rest
  | None => None
  end.

(** The fraction of a number literal, if there is one: a point and at
    least one digit. *)
Definition scan_frac (s : string) : option (string * string) :=
  match next_is "." s with
  | Some rest =>
      let (d, r) := digits rest in
      if d =? "" then None else Some (String "." d, r)
  | None => Some (EmptyString, s)
  end.

(** The exponent, if there is one: e or E, a sign or none, and at least
    one digit. *)
Definition scan_exp (s : string) : option (string * string) :=
  match s with
  | String e rest =>
      if ((e =? "e") || (e =? "E"))%char then
        let (sg, rest') :=
          match rest with
          | String g r =>
              if ((g =? "+") || (g =? "-"))%char
              then (String g EmptyString, r) else (EmptyString, rest)
          | EmptyString => (EmptyString, rest)
          end in
        let (d, r) := digits rest' in
        if d =? "" then None else Some (String e (sg ++ d), r)
      else Some (EmptyString, s)
  | EmptyString => Some (EmptyString, s)
  end.

(** A number literal past its sign: 0 or a digit from 1 to 9 followed by
    digits, then the fraction, then the exponent.  Without fraction and
    exponent it is an integer. *)
Definition scan_unsigned (negative : bool) (s : string) : option (value * string) :=
  match s with
  | String c rest =>
      if negb (isDigit c) then None
      else
        let (int, s2) := if (c =? "0")%char then (String c EmptyString, rest)
                         else digits s in
        match scan_frac s2 with
        | Some (frac, s3) =>
            match scan_exp s3 with
            | Some (exp, s4) =>
                if (frac =? "") && (exp =? "") then
                  Some (JInt (if negative then (- decimal int)%Z
                              else decimal int), s4)
                else
                  Some (JReal ((if negative then "-" else "")
                               ++ int ++ frac ++ exp), s4)
            | None => None
            end
        | None => None
        end
  | EmptyString => None
  end.

Definition scan_number (s : string) : option (value * string) :=
  match next_is "-" s with
  | Some rest => scan_unsigned true rest
  | None => scan_unsigned false s
  end.

(** One JSON value at the head of [s], white space before it skipped, and
    the text after it.  [fuel] bounds the values, elements and members
    read. *)
Fixpoint scan_value (fuel : nat) (s : string) : option (value * string) :=
  match fuel with
  | O => None
  | S fuel' =>
      match skip_space s with
      | EmptyString => None
      | String c rest as s' =>
          if (c =? "{")%char then
            match next_is "}" (skip_space rest) with
            | Some rest' => Some (JObject [], rest')
            | None => scan_members fuel' (skip_space rest) []
            end
          else if (c =? "[")%char then
            match next_is "]" (skip_space rest) with
            | Some rest' => Some (JArray [], rest')
            | None => scan_elements fuel' (skip_space rest) []
            end
          else if (c =? dquote)%char then
            match scan_string s' with
            | Some (str, rest') => Some (JString str, rest')
            | None => None
            end
          else if (c =? "n")%char then
            option_map (pair JNull) (strip "null" s')
          else if (c =? "t")%char then
            option_map (pair (JBool true)) (strip "true" s')
          else if (c =? "f")%char then
            option_map (pair (JBool false)) (strip "false" s')
          else scan_number s'
      end
  end
with scan_elements (fuel : nat) (s : string) (acc : list value)
  : option (value * string) :=
  match fuel with
  | O => None
  | S fuel' =>
      match scan_value fuel' s with
      | Some (e, rest) =>
          match next_is "," (skip_space rest) with
          | Some rest' => scan_elements fuel' rest' (e :: acc)
          | None =>
              match next_is "]" (skip_space rest) with
              | Some rest' => Some (JArray (rev (e :: acc)), rest')
              | None => None
              end
          end
      | None => None
      end
  end
with scan_members (fuel : nat) (s : string) (acc : list (string * value))
  : option (value * string) :=
  match fuel with
  | O => None
  | S fuel' =>
      match scan_string s with
      | Some (key, rest1) =>
          match next_is ":" (skip_space rest1) with
          | Some rest2 =>
              match scan_value fuel' rest2 with
              | Some (e, rest3) =>
                  match next_is "," (skip_space rest3) with
                  | Some rest4 =>
                      scan_members fuel' (skip_space rest4) ((key, e) :: acc)
                  | None =>
                      match next_is "}" (skip_space rest3) with
                      | Some rest4 =>
                          Some (JObject (rev ((key, e) :: acc)), rest4)
                      | None => None
                      end
                  end
              | None => None
              end
          | None => None
          end
      | None => None
      end
  end.

(** The one value of a text, as [Unmarshal] wants it: nothing but white
    space may follow. *)
Definition scan (data : string) : option value :=
  match scan_value (String.length data) data with
  | Some (v, rest) =>
      match skip_space rest with
      | EmptyString => Some v
      | _ => None
      end
  | None => None
  end.

(** A member name selects a field when the two are equal under Unicode
    simple case folding.  The field names here are ASCII: besides the
    ASCII letters only U+017F (long s, bytes C5 BF) and U+212A (Kelvin
    sign, bytes E2 84 AA) fold to an ASCII letter. *)
Definition toUpper (c : ascii) : ascii :=
  if (("a" <=? c) && (c <=? "z"))%char
  then ascii_of_nat (nat_of_ascii c - 32) else c.

Fixpoint foldName (s : string) : string :=
  match s with
  | EmptyString => EmptyString
  | String c rest =>
      match rest with
      | String c1 rest1 =>
          if ((c =? "197") && (c1 =? "191"))%char
          then String "S" (foldName rest1)
          else
            match rest1 with
            | String c2 rest2 =>
                if ((c =? "226") && (c1 =? "132") && (c2 =? "170"))%char
                then String "K" (foldName rest2)
                else String (toUpper c) (foldName rest)
            | EmptyString => String (toUpper c) (foldName rest)
            end
      | EmptyString => String (toUpper c) EmptyString
      end
  end.

Definition names (key field : string) : bool :=
  (foldName key =? foldName field)%string.

(** *** Values into fields

    [None] is a decoding error.  A type mismatch does not stop the
    library, which goes on and reports the first mismatch at the end: the
    call returns an error all the same.  A [null] leaves the target as it
    is. *)

Definition into_string (v : value) (old : string) : option string :=
  match v with
  | JString s => Some s
  | JNull => Some old
  | _ => None
  end.

Definition into_int (v : value) (old : Z) : option Z :=
  match v with
  | JInt z => if in_int z then Some z else None
  | JNull => Some old
  | _ => None
  end.

(** One member of an object decoded into a [URLRecord]; members that name
    no field are skipped, a repeated name overwrites. *)
Definition into_URLRecord_member (r : URLRecord) (m : string * value)
  : option URLRecord :=
  let (key, v) := m in
  if names key "short_code" then
    option_map (fun s => mkURLRecord s (LongURL r) (CreatedAt r) (UsageCount r))
               (into_string v (ShortCode r))
  else if names key "long_url" then
    option_map (fun s => mkURLRecord (ShortCode r) s (CreatedAt r) (UsageCount r))
               (into_string v (LongURL r))
  else if names key "created_at" then
    option_map (fun s => mkURLRecord (ShortCode r) (LongURL r) s (UsageCount r))
               (into_string v (CreatedAt r))
  else if names key "usage_count" then
    option_map (fun z => mkURLRecord (ShortCode r) (LongURL r) (CreatedAt r) z)
               (into_int v (UsageCount r))
  else Some r.

Fixpoint into_URLRecord_members (r : URLRecord) (ms : list (string * value))
  : option URLRecord :=
  match ms with
  | [] => Some r
  | m :: rest =>
      match into_URLRecord_member r m with
      | Some r' => into_URLRecord_members r' rest
      | None => None
      end
  end.

(** The zero value of the struct. *)
Definition zeroURLRecord : URLRecord := mkURLRecord "" "" "" 0.

Definition into_URLRecord (v : value) : option URLRecord :=
  match v with
  | JObject ms => into_URLRecord_members zeroURLRecord ms
  | JNull => Some zeroURLRecord
  | _ => None
  end.

Fixpoint into_elems (vs : list value) : option (list URLRecord) :=
  match vs with
  | [] => Some []
  | v :: rest =>
      match into_URLRecord v, into_elems rest with
      | Some r, Some rs => Some (r :: rs)
      | _, _ => None
      end
  end.

(** A value into [urls], nil as it is at startup: an array gives one
    record per element, [null] leaves the slice empty. *)
Definition into_urls (v : value) : option (list URLRecord) :=
  match v with
  | JArray vs => into_elems vs
  | JNull => Some []
  | _ => None
  end.

(** [json.Unmarshal(data, &urls)] *)
Definition Unmarshal (data : string) : option (list URLRecord) :=
  match scan data with
  | Some v => into_urls v
  | None => None
  end.

(** *** Fields into values: the struct is written member by member in
    the order of its fields, under the names of the tags. *)
Definition of_URLRecord (r : URLRecord) : value :=
  JObject [ ("short_code", JString (ShortCode r));
            ("long_url", JString (LongURL r));
            ("created_at", JString (CreatedAt r));
            ("usage_count", JInt (UsageCount r)) ].

(** The slice as a value: the array of its records.  (A nil slice would
    be [null], which reads back as the empty slice as well; the handlers
    save after an append or an update only.) *)
Definition of_urls (urls : list URLRecord) : value :=
  JArray (map of_URLRecord urls).

(** [json.MarshalIndent(urls, "", "  ")] *)
Definition MarshalIndent (urls : list URLRecord) : string :=
  indent_value 0 (of_urls urls).

(** [map[string]string{key: s}] as a value. *)
Definition object1 (key s : string) : value := JObject [ (key, JString s) ].

(** *** The body of a response

    [json.NewEncoder(w).Encode(v)] writes the text of the value without
    white space, and a line feed after it. *)
Fixpoint compact_value (v : value) : string :=
  match v with
  | JNull => "null"
  | JBool b => if b then "true" else "false"
  | JInt z => FormatInt z
  | JReal literal => literal
  | JString s => appendString s
  | JArray elems => "[" ++ concat "," (map compact_value elems) ++ "]"
  | JObject members =>
      "{"
      ++ concat ","
           (map (fun m : string * value =>
                   appendString (fst m) ++ ":" ++ compact_value (snd m))
                members)
      ++ "}"
  end.

Definition Encode (v : value) : string :=
  compact_value v ++ String "010" EmptyString.

(** *** The body of a create request: [struct { URL string `json:"url"` }] *)

Fixpoint into_reqBody_members (URL : string) (ms : list (string * value))
  : option string :=
  match ms with
  | [] => Some URL
  | (key, v) :: rest =>
      if names key "url" then
        match into_string v URL with
        | Some URL' => into_reqBody_members URL' rest
        | None => None
        end
      else into_reqBody_members URL rest
  end.

(** [json.NewDecoder(r.Body).Decode(&reqBody)]: the decoder reads the
    first JSON value of the body and leaves what follows it unread.  The
    result is [reqBody.URL], or [None] for an error: a body that does not
    start with a JSON value, or a value of the wrong type. *)
Definition Decode_reqBody (body : string) : option string :=
  match scan_value (String.length body) body with
  | Some (JNull, _) => Some ""
  | Some (JObject ms, _) => into_reqBody_members "" ms
  | _ => None
  end.

(** *** The layout of the file, line by line

    The lines of an array or an object, with what follows them; and the
    lines of the array of the records. *)
Fixpoint join_tail (sep : string) (xs : list string) (t : string) : string :=
  match xs with
  | [] => t
  | [x] => x ++ t
  | x :: xs' => x ++ sep ++ join_tail sep xs' t
  end.

Definition records_text (rs : list URLRecord) (t : string) : string :=
  join_tail ("," ++ newline 1) (map (indent_value 1) (map of_URLRecord rs)) t.

End JSON.

(** ** net/url: the validation behind [url.ParseRequestURI]

    The handlers below take the validator as a parameter.  This module
    follows the function of the Go standard library, [parse(rawURL, true)],
    as far as its verdict goes (error or not); it is the instance the
    examples run on. *)

Module NetURL.

Local Open Scope char_scope.

Definition isAlpha (c : ascii) : bool :=
  (("a" <=? c) && (c <=? "z")) || (("A" <=? c) && (c <=? "Z")).

Definition isDigit (c : ascii) : bool := ("0" <=? c) && (c <=? "9").

Definition ishex (c : ascii) : bool :=
  isDigit c || (("a" <=? c) && (c <=? "f")) || (("A" <=? c) && (c <=? "F")).

Definition unhex (c : ascii) : nat :=
  if isDigit c then nat_of_ascii c - 48
  else if ("a" <=? c) && (c <=? "f") then nat_of_ascii c - 97 + 10
  else if ("A" <=? c) && (c <=? "F") then nat_of_ascii c - 65 + 10
  else 0.

Definition oneOf (set : string) (c : ascii) : bool :=
  existsb (Ascii.eqb c) (list_ascii_of_string set).

Definition stringContainsCTLByte (s : string) : bool :=
  existsb (fun b => (b <? " ") || (b =? "127")) (list_ascii_of_string s).

(** [strings.Cut(s, sep)] for a separator of one byte: before, after. *)
Fixpoint Cut (sep : ascii) (s : string) : string * string :=
  match s with
  | EmptyString => (EmptyString, EmptyString)
  | String c rest =>
      if c =? sep then (EmptyString, rest)
      else let (before, after) := Cut sep rest in (String c before, after)
  end.

(** The part of [s] from its first [sep] on, [sep] included. *)
Fixpoint from_first (sep : ascii) (s : string) : string :=
  match s with
  | EmptyString => EmptyString
  | String c rest => if c =? sep then s else from_first sep rest
  end.

Definition Count (sep : ascii) (s : string) : nat :=
  List.length (filter (Ascii.eqb sep) (list_ascii_of_string s)).

Definition Contains (sep : ascii) (s : string) : bool := negb (Count sep s =? 0)%nat.

(** [strings.LastIndex(s, sep)] for a separator of one byte. *)
Fixpoint LastIndex_from (i : nat) (sep : ascii) (s : string) (last : option nat)
  : option nat :=
  match s with
  | EmptyString => last
  | String c rest =>
      LastIndex_from (S i) sep rest (if c =? sep then Some i else last)
  end.

Definition LastIndex (sep : ascii) (s : string) : option nat :=
  LastIndex_from 0 sep s None.

Definition slice_to (i : nat) (s : string) : string := substring 0 i s.
Definition slice_from (i : nat) (s : string) : string :=
  substring i (String.length s - i) s.

Definition HasSuffix1 (c : ascii) (s : string) : bool :=
  match String.length s with
  | O => false
  | S n => match get n s with Some d => d =? c | None => false end
  end.

(** [getScheme]: the scheme and the rest; [None] is the error
    "missing protocol scheme". *)
Fixpoint getScheme_at (i : nat) (rawURL rest : string) : option (string * string) :=
  match rest with
  | EmptyString => Some (EmptyString, rawURL)
  | String c rest' =>
      if isAlpha c then getScheme_at (S i) rawURL rest'
      else if isDigit c || oneOf "+-." c then
        if (i =? 0)%nat then Some (EmptyString, rawURL)
        else getScheme_at (S i) rawURL rest'
      else if c =? ":" then
        if (i =? 0)%nat then None else Some (slice_to i rawURL, rest')
      else Some (EmptyString, rawURL)
  end.

Definition getScheme (rawURL : string) : option (string * string) :=
  getScheme_at 0 rawURL rawURL.

Inductive encoding : Type := encodePath | encodeHost | encodeZone | encodeUserPassword.

(** [shouldEscape(c, encodeHost)] *)
Definition shouldEscape_host (c : ascii) : bool :=
  negb (isAlpha c || isDigit c
        || oneOf "!$&'()*+,;=:[]<>" c || (c =? "034")
        || oneOf "-_.~" c).

Definition is_host_mode (mode : encoding) : bool :=
  match mode with encodeHost | encodeZone => true | _ => false end.

(** [unescape(s, mode)] returns no error. *)
Fixpoint unescape_ok (mode : encoding) (s : string) : bool :=
  match s with
  | EmptyString => true
  | String c rest =>
      if c =? "%" then
        match rest with
        | String h1 (String h2 rest') =>
            if ishex h1 && ishex h2 then
              let is25 := (h1 =? "2") && (h2 =? "5") in
              match mode with
              | encodeHost =>
                  if (unhex h1 <? 8)%nat && negb is25 then false
                  else unescape_ok mode rest'
              | encodeZone =>
                  let v := ascii_of_nat (unhex h1 * 16 + unhex h2) in
                  if negb is25 && negb (v =? " ") && shouldEscape_host v then false
                  else unescape_ok mode rest'
              | _ => unescape_ok mode rest'
              end
            else false
        | _ => false
        end
      else if is_host_mode mode && (c <? "128") && shouldEscape_host c then false
      else unescape_ok mode rest
  end.

Definition validOptionalPort (port : string) : bool :=
  match port with
  | EmptyString => true
  | String c digits => (c =? ":") && forallb isDigit (list_ascii_of_string digits)
  end.

Definition validUserinfo (s : string) : bool :=
  forallb (fun r => isAlpha r || isDigit r || oneOf "-._:~!$&'()*+,;=%@" r)
          (list_ascii_of_string s).

Definition parseHost_ok (host : string) : bool :=
  if prefix "[" host then
    match LastIndex "]" host with
    | None => false
    | Some i =>
        if negb (validOptionalPort (slice_from (S i) host)) then false
        else
          match index 0 "%25" (slice_to i host) with
          | Some zone =>
              unescape_ok encodeHost (slice_to zone host)
              && unescape_ok encodeZone (substring zone (i - zone) host)
              && unescape_ok encodeHost (slice_from i host)
          | None => unescape_ok encodeHost host
          end
    end
  else
    match LastIndex ":" host with
    | Some i =>
        if negb (validOptionalPort (slice_from i host)) then false
        else unescape_ok encodeHost host
    | None => unescape_ok encodeHost host
    end.

Definition parseAuthority_ok (authority : string) : bool :=
  match LastIndex "@" authority with
  | None => parseHost_ok authority
  | Some i =>
      if negb (parseHost_ok (slice_from (S i) authority)) then false
      else
        let userinfo := slice_to i authority in
        if negb (validUserinfo userinfo) then false
        else if negb (Contains ":" userinfo) then
          unescape_ok encodeUserPassword userinfo
        else
          let (username, password) := Cut ":" userinfo in
          unescape_ok encodeUserPassword username
          && unescape_ok encodeUserPassword password
  end.

(** [parse(rawURL, viaRequest = true)] returns no error. *)
Definition parse_ok (rawURL : string) : bool :=
  if stringContainsCTLByte rawURL then false
  else if (rawURL =? "")%string then false
  else if (rawURL =? "*")%string then true
  else
    match getScheme rawURL with
    | None => false
    | Some (scheme, rest) =>
        let rest :=
          if HasSuffix1 "?" rest && (Count "?" rest =? 1)%nat
          then slice_to (String.length rest - 1) rest
          else fst (Cut "?" rest) in
        if negb (prefix "/" rest) then
          (* a rootless path is opaque under a scheme, and
             "invalid URI for request" without one *)
          negb (scheme =? "")%string
        else
          if negb (scheme =? "")%string && prefix "//" rest then
            let authority := slice_from 2 rest in
            let rest' := from_first "/" authority in
            let authority := fst (Cut "/" authority) in
            if negb (parseAuthority_ok authority) then false
            else unescape_ok encodePath rest'
          else unescape_ok encodePath rest
    end.

Definition ParseRequestURI (rawURL : string) : bool := parse_ok rawURL.

(** The host of an authority is empty: nothing follows its last "@", or
    there is nothing at all. *)
Definition host_empty (authority : string) : bool :=
  match LastIndex "@" authority with
  | None => (authority =? "")%string
  | Some i => (slice_from (S i) authority =? "")%string
  end.

(** [u, err := url.Parse(rawURL)] gives [err == nil], [u.Scheme == ""] and
    [u.Host == ""]: the fragment is cut off and the rest goes through
    [parse(rawURL, viaRequest = false)], where a path without a leading
    slash is allowed when its first segment has no colon, and two slashes
    not followed by a third start an authority also without a scheme. *)
Definition Parse_relative (rawURL : string) : bool :=
  let (u, frag) := Cut "#" rawURL in
  if stringContainsCTLByte u then false
  else if (u =? "*")%string then unescape_ok encodePath frag
  else
    match getScheme u with
    | None => false
    | Some (scheme, rest) =>
        if negb (scheme =? "")%string then false
        else
          let rest :=
            if HasSuffix1 "?" rest && (Count "?" rest =? 1)%nat
            then slice_to (String.length rest - 1) rest
            else fst (Cut "?" rest) in
          if negb (prefix "/" rest) && Contains ":" (fst (Cut "/" rest))
          then false
          else if prefix "//" rest && negb (prefix "///" rest) then
            let authority := slice_from 2 rest in
            let rest' := from_first "/" authority in
            let authority := fst (Cut "/" authority) in
            parseAuthority_ok authority && host_empty authority
            && unescape_ok encodePath rest' && unescape_ok encodePath frag
          else unescape_ok encodePath rest && unescape_ok encodePath frag
    end.

End NetURL.

(** ** path: [path.Split] and [path.Clean] *)

Module Path.

(** The elements of a path: what stands between its slashes. *)
Fixpoint elements (path : string) : list string :=
  match path with
  | EmptyString => [EmptyString]
  | String c rest =>
      if (c =? "/")%char then EmptyString :: elements rest
      else
        match elements rest with
        | e :: es => String c e :: es
        | [] => [String c EmptyString]
        end
  end.

(** The directory of [path.Split(path)]: the path up to its last slash,
    the slash included. *)
Definition Split_dir (path : string) : string :=
  match NetURL.LastIndex "/" path with
  | Some i => NetURL.slice_to (S i) path
  | None => EmptyString
  end.

(** The loop of [Clean], element by element.  [out] is the output so far,
    its last element first, and [dotdot] the number of its elements that a
    ".." cannot take back: empty elements and "." are dropped; ".." takes
    the last element back when it can, is dropped at the root, and is kept
    in a path that is not rooted. *)
Fixpoint clean_elements (rooted : bool) (es out : list string) (dotdot : nat)
  : list string :=
  match es with
  | [] => rev out
  | e :: rest =>
      if ((e =? "") || (e =? "."))%string then
        clean_elements rooted rest out dotdot
      else if (e =? "..")%string then
        if (dotdot <? List.length out)%nat then
          clean_elements rooted rest (tl out) dotdot
        else if rooted then clean_elements rooted rest out dotdot
        else clean_elements rooted rest (".." :: out)%list (S (List.length out))
      else clean_elements rooted rest (e :: out) dotdot
  end.

(** [path.Clean(path)] *)
Definition Clean (path : string) : string :=
  if (path =? "")%string then "."
  else
    let rooted := prefix "/" path in
    let out := clean_elements rooted (elements path) [] 0 in
    if rooted then "/" ++ concat "/" out
    else
      match out with
      | [] => "."
      | _ => concat "/" out
      end.

End Path.

(** ** time: [time.Now().UTC().Format(time.RFC3339)]

    The clock gives the current instant; [UTC()] presents it as a date and
    a time of day in UTC, which is what the model keeps of it. *)

Module Time.

Record t : Type := mk {
  Year : nat; Month : nat; Day : nat;
  Hour : nat; Minute : nat; Second : nat
}.

Definition decimal (x : nat) : string :=
  DecimalString.NilEmpty.string_of_uint (Nat.to_uint x).

Fixpoint zeros (n : nat) : string :=
  match n with
  | O => EmptyString
  | S n' => String "0" (zeros n')
  end.

(** [appendInt(b, x, width)]: decimal, padded with zeros to [width]. *)
Definition appendInt (x width : nat) : string :=
  let d := decimal x in zeros (width - String.length d) ++ d.

(** The layout "2006-01-02T15:04:05Z07:00" on a time in UTC, whose zone
    is written "Z". *)
Definition Format_RFC3339 (now : t) : string :=
  appendInt (Year now) 4 ++ "-" ++ appendInt (Month now) 2 ++ "-"
  ++ appendInt (Day now) 2 ++ "T" ++ appendInt (Hour now) 2 ++ ":"
  ++ appendInt (Minute now) 2 ++ ":" ++ appendInt (Second now) 2 ++ "Z".

End Time.

(** ** Requests, responses and the world outside the store *)

Record Request : Type := mkRequest {
  Method : string;                (* r.Method *)
  Path : string;                  (* r.URL.Path *)
  Body : string                   (* the bytes of r.Body *)
}.

(** What a handler leaves in the response writer. *)
Inductive Response : Type :=
| JSONResponse (status : nat) (body : JSON.value)
    (* Content-Type: application/json, the status, the encoded value *)
| RedirectResponse (url : string) (code : nat)
    (* http.Redirect(w, r, url, code) *)
| OtherResponse (status : nat) (body : string)
    (* written by a handler that is not part of this file *)
| BrokenResponse (status : nat).
    (* the first write of the body failed: the status had gone out with
       it, and what the handler sets or writes afterwards has no effect *)

Definition Status (resp : Response) : nat :=
  match resp with
  | JSONResponse status _ => status
  | RedirectResponse _ code => code
  | OtherResponse status _ => status
  | BrokenResponse status => status
  end.

(** [hexEscapeNonASCII]: the bytes from 0x80 up as a percent sign and two
    lower-case hex digits. *)
Fixpoint hexEscapeNonASCII (s : string) : string :=
  match s with
  | EmptyString => EmptyString
  | String c rest =>
      if (JSON.byte c <? 0x80)%N then String c (hexEscapeNonASCII rest)
      else
        String "%"
          (String (JSON.hex (N.shiftr (JSON.byte c) 4))
             (String (JSON.hex (N.land (JSON.byte c) 0xF))
                (hexEscapeNonASCII rest)))
  end.

(** [url[:i], url[i:]] at the first "?" of [url]. *)
Definition cut_query (url : string) : string * string :=
  match index 0 "?" url with
  | Some i => (NetURL.slice_to i url, NetURL.slice_from i url)
  | None => (url, EmptyString)
  end.

(** The value [http.Redirect(w, r, url, code)] sets the Location header
    to, [oldpath] being [r.URL.Path]: a [url] that parses without scheme
    and host is taken as a path, made absolute with the directory of the
    request path when it has no leading slash, and cleaned up to its query,
    a trailing slash preserved; any other [url] is left as it is.  The
    bytes that are not ASCII are escaped in both cases.  This is the value
    in the header of the response writer, the one the tests read with
    [rr.Header().Get("Location")]; on the wire the header writer puts a
    space for a line break in it and trims the blanks around it. *)
Definition Redirect_Location (oldpath url : string) : string :=
  hexEscapeNonASCII
    (if NetURL.Parse_relative url then
       let oldpath := if (oldpath =? "")%string then "/" else oldpath in
       let url :=
         if (url =? "")%string || negb (prefix "/" url)
         then Path.Split_dir oldpath ++ url else url in
       let (url, query) := cut_query url in
       let trailing := NetURL.HasSuffix1 "/" url in
       let url := Path.Clean url in
       let url :=
         if trailing && negb (NetURL.HasSuffix1 "/" url)
         then url ++ "/" else url in
       url ++ query
     else url).

(** The Location header of the response to [r], as the handler leaves it
    in the response writer. *)
Definition Location (r : Request) (resp : Response) : option string :=
  match resp with
  | RedirectResponse url _ => Some (Redirect_Location (Path r) url)
  | _ => None
  end.

(** The bytes of the body that a handler of this file writes with
    [json.NewEncoder(w).Encode]. *)
Definition Encoded (resp : Response) : option string :=
  match resp with
  | JSONResponse _ body => Some (JSON.Encode body)
  | _ => None
  end.

Definition JSONBody (resp : Response) : option JSON.value :=
  match resp with
  | JSONResponse _ body => Some body
  | _ => None
  end.

Definition StatusOK := 200.
Definition StatusCreated := 201.
Definition StatusFound := 302.
Definition StatusBadRequest := 400.
Definition StatusNotFound := 404.
Definition StatusMethodNotAllowed := 405.
Definition StatusInternalServerError := 500.

Definition MethodGet := "GET".
Definition MethodPost := "POST".

(** What one request meets outside the store: the random source, the
    clock, whether [os.WriteFile] on the backing file fails and whether
    [Encode] of the list fails.  A slice of records always has a text, so
    the error of [Encode] is the error of its write to the response
    writer. *)
Record Env : Type := mkEnv {
  rand : Rand;
  now : Time.t;
  WriteFile_fails : bool;
  Encode_fails : bool
}.

(** [saveURLs]: the data handed to [os.WriteFile], or [None] for the
    error.  Marshalling a slice of strings and integers has no error. *)
Definition saveURLs (env : Env) (urls : list URLRecord) : option string :=
  let data := JSON.MarshalIndent urls in
  if WriteFile_fails env then None else Some data.

(** [init]: [file] is the content of the backing file, [None] when it
    does not exist and is created holding the empty array.  The result is
    the loaded [urls]; [None] is [log.Fatalf]. *)
Definition init (file : option string) : option (list URLRecord) :=
  let data := match file with
              | None => "[]"
              | Some data => data
              end in
  JSON.Unmarshal data.

Definition writeJSONError (message : string) (status : nat) : Response :=
  JSONResponse status (JSON.object1 "error" message).

(** The builtins [make] and [copy] on slices of records. *)
Definition make (n : nat) : list URLRecord := repeat JSON.zeroURLRecord n.

Definition copy (dst src : list URLRecord) : list URLRecord :=
  let n := Nat.min (List.length dst) (List.length src) in
  (firstn n src ++ skipn n dst)%list.

(** [strings.TrimPrefix(s, "/")] *)
Definition TrimPrefix_slash (s : string) : string :=
  match s with
  | String "/" rest => rest
  | _ => s
  end.

(** The loop of the redirect branch: the first record that has the code
    gets its count incremented in place; the result is its long URL and
    the collection after the increment, [None] when no record has the
    code. *)
Definition increment (r : URLRecord) : URLRecord :=
  mkURLRecord (ShortCode r) (LongURL r) (CreatedAt r) (wrap_int (UsageCount r + 1)).

Fixpoint find_and_count (shortCode : string) (urls : list URLRecord)
  : option (string * list URLRecord) :=
  match urls with
  | [] => None
  | r :: rest =>
      if (ShortCode r =? shortCode)%string
      then Some (LongURL r, increment r :: rest)
      else
        match find_and_count shortCode rest with
        | Some (targetURL, rest') => Some (targetURL, r :: rest')
        | None => None
        end
  end.

Section Handlers.

(** [url.ParseRequestURI(s)] returns no error. *)
Variable ParseRequestURI : string -> bool.

(** POST /api/urls.  [None]: the generator loop is still running after
    [fuel] rounds. *)
Definition createURLHandler (fuel : nat) (env : Env) (r : Request)
    (urls : list URLRecord) : option (Response * list URLRecord) :=
  match JSON.Decode_reqBody (Body r) with
  | None => Some (writeJSONError "Invalid request body" StatusBadRequest, urls)
  | Some URL =>
      if (URL =? "")%string then
        Some (writeJSONError "URL is required" StatusBadRequest, urls)
      else if negb (ParseRequestURI URL) then
        Some (writeJSONError "Invalid URL format" StatusBadRequest, urls)
      else
        match generate fuel (rand env) urls with
        | None => None
        | Some (shortCode, _) =>
            let record := mkURLRecord shortCode URL
                            (Time.Format_RFC3339 (now env)) 0 in
            let urls := (urls ++ [record])%list in
            match saveURLs env urls with
            | None =>
                Some (writeJSONError "Failed to save URL record"
                        StatusInternalServerError, urls)
            | Some _ =>
                Some (JSONResponse StatusCreated
                        (JSON.object1 "short_code" shortCode), urls)
            end
        end
  end.

(** GET /api/urls.  When the write of [Encode] fails, the response
    writer has committed the status 200 with that write: the
    [writeJSONError] of the error branch comes after it, its
    [WriteHeader(500)] is ignored, and its message goes to the writer that
    has just failed. *)
Definition getURLsHandler (env : Env) (urls : list URLRecord)
  : Response * list URLRecord :=
  let urlsCopy := copy (make (List.length urls)) urls in
  if Encode_fails env then (BrokenResponse StatusOK, urls)
  else (JSONResponse StatusOK (JSON.of_urls urlsCopy), urls).

(** The dispatcher. *)
Definition rootHandler (staticFileServer : Request -> Response)
    (fuel : nat) (env : Env) (r : Request) (urls : list URLRecord)
  : option (Response * list URLRecord) :=
  if prefix "/api/urls" (Path r) then
    if (Method r =? MethodGet)%string then Some (getURLsHandler env urls)
    else if (Method r =? MethodPost)%string then createURLHandler fuel env r urls
    else Some (writeJSONError "Method Not Allowed" StatusMethodNotAllowed, urls)
  else
    let shortCode := TrimPrefix_slash (Path r) in
    if negb (shortCode =? "")%string then
      match find_and_count shortCode urls with
      | Some (targetURL, urls') =>
          match saveURLs env urls' with
          | None =>
              Some (writeJSONError "Failed to update URL data"
                      StatusInternalServerError, urls')
          | Some _ => Some (RedirectResponse targetURL StatusFound, urls')
          end
      | None => Some (staticFileServer r, urls)
      end
    else Some (staticFileServer r, urls).

(** A request that has been served: some number of rounds was enough for
    the handler to return. *)
Definition serves (staticFileServer : Request -> Response)
    (urls : list URLRecord) (env : Env) (r : Request)
    (resp : Response) (urls' : list URLRecord) : Prop :=
  exists fuel, rootHandler staticFileServer fuel env r urls = Some (resp, urls').

(** The stores the service passes through from [urls0]. *)
Inductive reachable (staticFileServer : Request -> Response)
    (urls0 : list URLRecord) : list URLRecord -> Prop :=
| reachable_start : reachable staticFileServer urls0 urls0
| reachable_serve urls env r resp urls' :
    reachable staticFileServer urls0 urls ->
    serves staticFileServer urls env r resp urls' ->
    reachable staticFileServer urls0 urls'.

(** [http.NotFoundHandler()], the static handler of the tests. *)
Definition NotFoundHandler (r : Request) : Response :=
  OtherResponse StatusNotFound "404 page not found".

(** ** The scenarios of main_test.go, as data *)

Definition example_url : string := "https://example.com/a-very-long-url".

(** A source whose first two draws are adjective 0 and noun 1. *)
Definition example_rand : Rand := fun i => i.

Definition example_now : Time.t := Time.mk 2024 3 7 9 5 0.

Definition env_ok : Env := mkEnv example_rand example_now false false.
Definition env_write_fails : Env := mkEnv example_rand example_now true false.
Definition env_encode_fails : Env := mkEnv example_rand example_now false true.

(** The body [{"url": "..."}] of the tests. *)
Definition body_with_url (url : string) : string :=
  "{" ++ JSON.appendString "url" ++ ": " ++ JSON.appendString url ++ "}".

(** POST /api/urls with the url of TestCreateURL_Success. *)
Definition post_example : Request :=
  mkRequest MethodPost "/api/urls" (body_with_url example_url).

(** The store of TestRedirect_Success and the request for its code. *)
Definition test_store : list URLRecord :=
  [ mkURLRecord "test-code" "https://example.com/redirect-target" "" 0 ].

Definition request_test_code (method : string) : Request :=
  mkRequest method "/test-code" "".

Definition get_urls : Request := mkRequest MethodGet "/api/urls" "".

(** A static handler with one asset, the page at the root. *)
Definition one_page_server (r : Request) : Response :=
  if (Path r =? "/")%string then OtherResponse StatusOK "<!doctype html>"
  else NotFoundHandler r.

(** ** Notions the statements use *)

(** The 2,500 pairs the generator can draw. *)
Definition all_codes : list string :=
  flat_map (fun adj => map (Sprintf_code adj) nouns) adjectives.

(** Every pair is the code of some record. *)
Definition saturated (urls : list URLRecord) : bool :=
  forallb (fun code => negb (isUnique code urls)) all_codes.

(** Round [k] of the loop, counted from 0, draws a pair that no record
    has. *)
Definition free_at (rnd : Rand) (urls : list URLRecord) (k : nat) : Prop :=
  isUnique (draw_code (advance (2 * k) rnd)) urls = true.

(** The stored codes cover all the pairs. *)
Definition covers (urls : list URLRecord) : Prop :=
  forall code, In code all_codes -> In code (codes urls).

(** A store that holds every pair. *)
Definition full_store : list URLRecord :=
  map (fun code => mkURLRecord code "https://example.com/" "" 0) all_codes.

(** The source that draws the pair [(i, j)] from round [n] on and the
    pair [(i0, j0)] before. *)
Definition draws_after (n i0 j0 i j : nat) : Rand :=
  fun k => if (k <? 2 * n)%nat then (if Nat.even k then i0 else j0)
           else (if Nat.even k then i else j).

(** The regular expression [^[a-z]+-[a-z]+$]. *)
Definition isLower (c : ascii) : bool := (("a" <=? c) && (c <=? "z"))%char.

Fixpoint lower_word (s : string) : bool :=
  match s with
  | EmptyString => false
  | String c EmptyString => isLower c
  | String c rest => isLower c && lower_word rest
  end.

Fixpoint matches_code_pattern_from (seen : bool) (s : string) : bool :=
  match s with
  | EmptyString => false
  | String c rest =>
      if isLower c then matches_code_pattern_from true rest
      else if (c =? "-")%char then seen && lower_word rest
      else false
  end.

Definition matches_code_pattern (s : string) : bool :=
  matches_code_pattern_from false s.

(** The record a create request appends. *)
Definition created (env : Env) (URL code : string) : URLRecord :=
  mkURLRecord code URL (Time.Format_RFC3339 (now env)) 0.

(** The body of [r] gets through the three checks of createURLHandler with
    the URL [URL]. *)
Definition passes_validation (r : Request) (URL : string) : Prop :=
  JSON.Decode_reqBody (Body r) = Some URL
  /\ URL <> "" /\ ParseRequestURI URL = true.

(** The random source comes to a free pair in some round. *)
Definition finds_free (rnd : Rand) (urls : list URLRecord) : Prop :=
  exists k, free_at rnd urls k.

(** The same request served once for each environment of [envs], in
    order. *)
Fixpoint serve_each (staticFileServer : Request -> Response) (fuel : nat)
    (envs : list Env) (r : Request) (urls : list URLRecord)
  : option (list Response * list URLRecord) :=
  match envs with
  | [] => Some ([], urls)
  | env :: rest =>
      match rootHandler staticFileServer fuel env r urls with
      | None => None
      | Some (resp, urls1) =>
          match serve_each staticFileServer fuel rest r urls1 with
          | None => None
          | Some (resps, urls2) => Some (resp :: resps, urls2)
          end
      end
  end.

(** What the redirect branch answers once it has found the record. *)
(** The text of the list in the body of its answer: the objects of the
    records between brackets, separated by commas, without white space,
    and a line feed at the end. *)
Definition compact_record (record : URLRecord) : string :=
  "{" ++ JSON.appendString "short_code" ++ ":"
  ++ JSON.appendString (ShortCode record)
  ++ "," ++ JSON.appendString "long_url" ++ ":"
  ++ JSON.appendString (LongURL record)
  ++ "," ++ JSON.appendString "created_at" ++ ":"
  ++ JSON.appendString (CreatedAt record)
  ++ "," ++ JSON.appendString "usage_count" ++ ":"
  ++ JSON.FormatInt (UsageCount record)
  ++ "}".

Definition list_body (urls : list URLRecord) : string :=
  "[" ++ concat "," (map compact_record urls) ++ "]"
  ++ String "010" EmptyString.

(** The records of the body, with what follows them. *)
Definition body_records (rs : list URLRecord) (t : string) : string :=
  JSON.join_tail "," (map compact_record rs) t.

(** The errors of the service: status and message. *)
Definition error_answers : list (nat * string) :=
  [ (400, "Invalid request body"); (400, "URL is required");
    (400, "Invalid URL format"); (405, "Method Not Allowed");
    (500, "Failed to save URL record"); (500, "Failed to update URL data") ].

(** Every byte of the string is ASCII. *)
Definition isASCII (s : string) : bool :=
  forallb (fun c => (JSON.byte c <? 0x80)%N) (list_ascii_of_string s).

(** The url has a scheme as [url.Parse] reads one: before its fragment it
    starts with a letter followed by letters, digits and "+", "-" or ".",
    up to a colon. *)
Definition has_scheme (url : string) : bool :=
  match NetURL.getScheme (fst (NetURL.Cut "#" url)) with
  | Some (scheme, _) => negb (scheme =? "")%string
  | None => false
  end.

Definition redirect_response (env : Env) (record : URLRecord) : Response :=
  if WriteFile_fails env
  then writeJSONError "Failed to update URL data" StatusInternalServerError
  else RedirectResponse (LongURL record) StatusFound.

(** A record as the data model has it: its strings are text, in UTF-8,
    and its count is a Go integer. *)
Definition text_record (r : URLRecord) : bool :=
  JSON.ValidString (ShortCode r) && JSON.ValidString (LongURL r)
  && JSON.ValidString (CreatedAt r) && in_int (UsageCount r).

(** The short code a create response carries. *)
Definition returned_code (resp : Response) : option string :=
  match resp with
  | JSONResponse status (JSON.JObject [ (key, JSON.JString code) ]) =>
      if ((status =? StatusCreated)%nat && (key =? "short_code")%string)%bool
      then Some code else None
  | _ => None
  end.

Fixpoint returned_codes (resps : list Response) : list string :=
  match resps with
  | [] => []
  | resp :: rest =>
      match returned_code resp with
      | Some code => code :: returned_codes rest
      | None => returned_codes rest
      end
  end.

(** A sequence of create calls, each one served, with their responses. *)
Inductive creates
  : list URLRecord -> list Response -> list URLRecord -> Prop :=
| creates_nil urls : creates urls [] urls
| creates_cons urls fuel env r resp urls1 resps urls2 :
    createURLHandler fuel env r urls = Some (resp, urls1) ->
    creates urls1 resps urls2 ->
    creates urls (resp :: resps) urls2.

(** The request path selects a record: it is outside the API prefix and,
    without its leading slash, a non-empty code of the store. *)
Definition names_record (r : Request) (urls : list URLRecord) : Prop :=
  prefix "/api/urls" (Path r) = false
  /\ TrimPrefix_slash (Path r) <> ""
  /\ In (TrimPrefix_slash (Path r)) (codes urls).

(** ** Notions of the further properties *)

(** [r'] is [r] but for its count. *)
Definition same_but_count (r r' : URLRecord) : Prop :=
  ShortCode r' = ShortCode r /\ LongURL r' = LongURL r
  /\ CreatedAt r' = CreatedAt r.

(** The usage count under a code: the one of the first record that has
    the code, which is the record the redirect branch counts. *)
Fixpoint count_of (code : string) (urls : list URLRecord) : option Z :=
  match urls with
  | [] => None
  | r :: rest =>
      if (ShortCode r =? code)%string then Some (UsageCount r)
      else count_of code rest
  end.

(** The request is one the dispatcher looks up under [code]. *)
Definition asks_for (code : string) (r : Request) : bool :=
  negb (prefix "/api/urls" (Path r))
  && negb (code =? "")%string
  && (TrimPrefix_slash (Path r) =? code)%string.

Definition hits (code : string) (reqs : list (Env * Request)) : nat :=
  List.length (filter (fun q => asks_for code (snd q)) reqs).

(** Requests served one after the other, each in its own environment. *)
Fixpoint serve_all (staticFileServer : Request -> Response) (fuel : nat)
    (reqs : list (Env * Request)) (urls : list URLRecord)
  : option (list Response * list URLRecord) :=
  match reqs with
  | [] => Some ([], urls)
  | (env, r) :: rest =>
      match rootHandler staticFileServer fuel env r urls with
      | None => None
      | Some (resp, urls1) =>
          match serve_all staticFileServer fuel rest urls1 with
          | None => None
          | Some (resps, urls2) => Some (resp :: resps, urls2)
          end
      end
  end.

(** The path of the short link that the client shows for a code: App.js
    builds [`${window.location.origin}/${data.short_code}`]. *)
Definition short_link_path (short_code : string) : string := "/" ++ short_code.

(** ** The client (frontend/src/App.js)

    A JavaScript string is taken in its UTF-8 encoding, which is how
    [fetch] sends it.  [QuoteJSONString] of ECMA-262 escapes the quote, the
    backslash and the control characters, and copies everything else. *)
Definition quote_byte (c : ascii) : string :=
  let b := JSON.byte c in
  if (b =? 0x08)%N then String JSON.backslash "b"
  else if (b =? 0x09)%N then String JSON.backslash "t"
  else if (b =? 0x0A)%N then String JSON.backslash "n"
  else if (b =? 0x0C)%N then String JSON.backslash "f"
  else if (b =? 0x0D)%N then String JSON.backslash "r"
  else if ((b =? 0x22) || (b =? 0x5C))%N
       then String JSON.backslash (String c EmptyString)
  else if (b <? 0x20)%N then
    String JSON.backslash
      (String "u" (String "0" (String "0"
         (String (JSON.hex (N.shiftr b 4))
            (String (JSON.hex (N.land b 0xF)) EmptyString)))))
  else String c EmptyString.

Fixpoint quote_bytes (s : string) : string :=
  match s with
  | EmptyString => EmptyString
  | String c rest => quote_byte c ++ quote_bytes rest
  end.

Definition QuoteJSONString (s : string) : string :=
  String JSON.dquote (quote_bytes s ++ String JSON.dquote EmptyString).

(** [JSON.stringify({ url: longUrl })], the body of the POST. *)
Definition stringify_url (longUrl : string) : string :=
  "{" ++ QuoteJSONString "url" ++ ":" ++ QuoteJSONString longUrl ++ "}".

(** [handleSubmit], from the response of its POST on.  The property [key]
    of a parsed object is its last member of that name. *)
Fixpoint property (key : string) (members : list (string * JSON.value))
  : option JSON.value :=
  match members with
  | [] => None
  | (k, v) :: rest =>
      match property key rest with
      | Some v' => Some v'
      | None => if (k =? key)%string then Some v else None
      end
  end.

(** What the page shows in the end: the short link or an error. *)
Inductive Shown : Type :=
| setShortUrl (newShortUrl : string)
| setError (message : string).

(** [response.ok] *)
Definition ok (resp : Response) : bool :=
  ((200 <=? Status resp) && (Status resp <=? 299))%nat.

(** On the page at [origin].  [None] stands for what is not followed here:
    a body that is no JSON object, where [response.json()] throws or the
    properties are undefined, and members that are no strings. *)
Definition handleSubmit (origin : string) (resp : Response) : option Shown :=
  match JSONBody resp with
  | Some (JSON.JObject data) =>
      if negb (ok resp) then
        match property "error" data with
        | Some (JSON.JString message) =>
            Some (setError (if (message =? "")%string
                            then "Failed to shorten URL" else message))
        | None => Some (setError "Failed to shorten URL")
        | Some _ => None
        end
      else
        match property "short_code" data with
        | Some (JSON.JString short_code) =>
            Some (setShortUrl (origin ++ "/" ++ short_code))
        | _ => None
        end
  | _ => None
  end.

(** A record as a create call leaves it and the redirects keep it: a
    validated long URL, a creation time in the layout of RFC 3339 and a
    count that is a Go integer. *)
Definition validated_record (r : URLRecord) : Prop :=
  LongURL r <> "" /\ ParseRequestURI (LongURL r) = true
  /\ (exists clock, CreatedAt r = Time.Format_RFC3339 clock)
  /\ in_int (UsageCount r) = true.

(** The store of TestCreateURL_Success after its request. *)
Definition quick_dog_store : list URLRecord :=
  [ created env_ok example_url "quick-dog" ].

(** The strings that a JSON value holds as values, at every depth, are
    valid UTF-8. *)
Fixpoint strings_valid (v : JSON.value) : bool :=
  match v with
  | JSON.JString s => JSON.ValidString s
  | JSON.JArray elems => forallb strings_valid elems
  | JSON.JObject members => forallb (fun m => strings_valid (snd m)) members
  | _ => true
  end.

(** ** The generator *)

Lemma isUnique_true code urls :
  isUnique code urls = true <-> ~ In code (codes urls).
Proof.
  induction urls as [|r rest IH]; simpl.
  - split; [intros _ [] | reflexivity].
  - destruct (String.eqb_spec (ShortCode r) code) as [E|E].
    + split; [discriminate | intros H; exfalso; apply H; now left].
    + rewrite IH. split.
      * intros H [H'|H']; [now apply E | now apply H].
      * intros H H'. apply H. now right.
Qed.

Lemma isUnique_false code urls :
  isUnique code urls = false <-> In code (codes urls).
Proof.
  destruct (isUnique code urls) eqn:E.
  - apply isUnique_true in E. split; [discriminate | intros H; now elim E].
  - split; [intros _ | reflexivity].
    destruct (in_dec string_dec code (codes urls)) as [H|H]; [exact H|].
    apply isUnique_true in H. congruence.
Qed.

Lemma adjectives_length : List.length adjectives = 50.
Proof. reflexivity. Qed.

Lemma nouns_length : List.length nouns = 50.
Proof. reflexivity. Qed.

Lemma all_codes_length : List.length all_codes = 2500.
Proof. reflexivity. Qed.

Lemma all_codes_pair adj noun :
  In adj adjectives -> In noun nouns -> In (Sprintf_code adj noun) all_codes.
Proof.
  intros Ha Hn. unfold all_codes. apply in_flat_map.
  exists adj. split; [exact Ha | now apply in_map].
Qed.

Lemma all_codes_inv code :
  In code all_codes ->
  exists i j, i < 50 /\ j < 50
              /\ code = Sprintf_code (nth i adjectives "") (nth j nouns "").
Proof.
  unfold all_codes. intros H. apply in_flat_map in H as (adj & Ha & H).
  apply in_map_iff in H as (noun & <- & Hn).
  apply (In_nth _ _ "") in Ha as (i & Hi & <-).
  apply (In_nth _ _ "") in Hn as (j & Hj & <-).
  exists i, j. rewrite adjectives_length in Hi. rewrite nouns_length in Hj.
  auto.
Qed.

Lemma draw_code_in rnd : In (draw_code rnd) all_codes.
Proof.
  unfold draw_code. apply all_codes_pair; apply nth_In; unfold Intn.
  - rewrite adjectives_length. apply Nat.mod_upper_bound. discriminate.
  - rewrite nouns_length. apply Nat.mod_upper_bound. discriminate.
Qed.

Lemma all_codes_pattern code :
  In code all_codes -> matches_code_pattern code = true.
Proof.
  assert (H : forallb matches_code_pattern all_codes = true)
    by (vm_compute; reflexivity).
  rewrite forallb_forall in H. apply H.
Qed.

Lemma all_codes_NoDup : NoDup all_codes.
Proof.
  assert (H : forall l : list string,
             (fix nodupb (l : list string) : bool :=
                match l with
                | [] => true
                | x :: l' => negb (existsb (String.eqb x) l') && nodupb l'
                end) l = true -> NoDup l).
  { induction l as [|x l IH]; intros E; constructor.
    - apply andb_prop in E as [E _]. intros Hin.
      apply negb_true_iff in E.
      assert (existsb (String.eqb x) l = true)
        by (apply existsb_exists; exists x; split;
            [exact Hin | apply String.eqb_refl]).
      congruence.
    - apply IH. now apply andb_prop in E as [_ E]. }
  apply H. vm_compute. reflexivity.
Qed.

Lemma saturated_true urls :
  saturated urls = true <-> covers urls.
Proof.
  unfold saturated, covers. rewrite forallb_forall. split; intros H code Hin.
  - apply isUnique_false. apply negb_true_iff. now apply H.
  - apply negb_true_iff. apply isUnique_false. now apply H.
Qed.

Lemma saturated_false urls :
  saturated urls = false ->
  exists code, In code all_codes /\ ~ In code (codes urls).
Proof.
  unfold saturated. intros H.
  induction all_codes as [|c l IH]; simpl in H; [discriminate|].
  apply andb_false_iff in H as [H|H].
  - exists c. split; [now left|]. apply isUnique_true.
    now apply negb_false_iff in H.
  - destruct (IH H) as (code & Hin & Hfree). exists code. split; [now right | exact Hfree].
Qed.

Lemma advance_advance j k rnd i : advance j (advance k rnd) i = advance (k + j) rnd i.
Proof. unfold advance. f_equal. lia. Qed.

Lemma draw_code_ext rnd rnd' :
  (forall i, rnd i = rnd' i) -> draw_code rnd = draw_code rnd'.
Proof.
  intros H. unfold draw_code, Intn, advance. now rewrite !H.
Qed.

Lemma generate_sound fuel : forall rnd urls code rnd',
  generate fuel rnd urls = Some (code, rnd') ->
  In code all_codes /\ ~ In code (codes urls).
Proof.
  induction fuel as [|fuel IH]; intros rnd urls code rnd' H; simpl in H.
  - discriminate.
  - destruct (isUnique (draw_code rnd) urls) eqn:E.
    + injection H as <- _. split; [apply draw_code_in | now apply isUnique_true].
    + eapply IH; eassumption.
Qed.

Lemma generate_more fuel : forall rnd urls res,
  generate fuel rnd urls = Some res ->
  forall fuel', fuel <= fuel' -> generate fuel' rnd urls = Some res.
Proof.
  induction fuel as [|fuel IH]; intros rnd urls res H fuel' Hle; simpl in H.
  - discriminate.
  - destruct fuel' as [|fuel']; [lia|]. simpl.
    destruct (isUnique (draw_code rnd) urls); [exact H|].
    apply IH; [exact H | lia].
Qed.

(** The loop returns in round [k] when that is the first round with a
    free pair. *)
Lemma generate_free_at : forall k rnd urls,
  free_at rnd urls k ->
  exists code rnd', generate (S k) rnd urls = Some (code, rnd').
Proof.
  induction k as [|k IH]; intros rnd urls H; unfold free_at in H.
  - simpl. rewrite (draw_code_ext rnd (advance (2 * 0) rnd)) by reflexivity.
    rewrite H. eauto.
  - change (generate (S (S k)) rnd urls)
      with (if isUnique (draw_code rnd) urls
            then Some (draw_code rnd, advance 2 rnd)
            else generate (S k) (advance 2 rnd) urls).
    destruct (isUnique (draw_code rnd) urls); [eauto|].
    apply IH. unfold free_at.
    rewrite (draw_code_ext _ (advance (2 * S k) rnd)); [exact H|].
    intros i. rewrite advance_advance. unfold advance. f_equal. lia.
Qed.

Lemma generate_finds fuel : forall rnd urls code rnd',
  generate fuel rnd urls = Some (code, rnd') ->
  exists k, k < fuel /\ free_at rnd urls k.
Proof.
  induction fuel as [|fuel IH]; intros rnd urls code rnd' H; simpl in H.
  - discriminate.
  - destruct (isUnique (draw_code rnd) urls) eqn:E.
    + exists 0. split; [lia|]. unfold free_at.
      now rewrite (draw_code_ext _ rnd) by reflexivity.
    + apply IH in H as (k & Hk & H). exists (S k). split; [lia|].
      unfold free_at in *.
      rewrite (draw_code_ext _ (advance (2 * k) (advance 2 rnd))); [exact H|].
      intros i. rewrite advance_advance. unfold advance. f_equal. lia.
Qed.

Lemma generate_saturated urls :
  saturated urls = true -> forall fuel rnd, generate fuel rnd urls = None.
Proof.
  intros Hsat fuel. induction fuel as [|fuel IH]; intros rnd; simpl.
  - reflexivity.
  - assert (E : isUnique (draw_code rnd) urls = false).
    { apply isUnique_false. apply (proj1 (saturated_true urls) Hsat).
      apply draw_code_in. }
    rewrite E. apply IH.
Qed.

Lemma draw_code_draws_after n i0 j0 i j k :
  i0 < 50 -> j0 < 50 -> i < 50 -> j < 50 ->
  draw_code (advance (2 * k) (draws_after n i0 j0 i j)) =
  if (k <? n)%nat then Sprintf_code (nth i0 adjectives "") (nth j0 nouns "")
  else Sprintf_code (nth i adjectives "") (nth j nouns "").
Proof.
  intros Hi0 Hj0 Hi Hj. unfold draw_code, Intn, advance, draws_after.
  rewrite adjectives_length, nouns_length.
  replace (2 * k + 0) with (2 * k) by lia.
  replace (2 * k + (1 + 0)) with (S (2 * k)) by lia.
  assert (Ev : Nat.even (2 * k) = true)
    by (rewrite Nat.even_mul; reflexivity).
  rewrite Nat.even_succ, <- Nat.negb_even, Ev. cbn [negb].
  destruct (Nat.ltb_spec k n) as [Hk|Hk].
  - destruct (Nat.ltb_spec (2 * k) (2 * n)); [|lia].
    destruct (Nat.ltb_spec (S (2 * k)) (2 * n)); [|lia].
    now rewrite !Nat.mod_small by assumption.
  - destruct (Nat.ltb_spec (2 * k) (2 * n)); [lia|].
    destruct (Nat.ltb_spec (S (2 * k)) (2 * n)); [lia|].
    now rewrite !Nat.mod_small by assumption.
Qed.

Lemma generate_None_until fuel : forall rnd urls,
  (forall k, k < fuel -> ~ free_at rnd urls k) -> generate fuel rnd urls = None.
Proof.
  intros rnd urls H. destruct (generate fuel rnd urls) as [[code rnd']|] eqn:E;
    [|reflexivity].
  apply generate_finds in E as (k & Hk & Hfree). now elim (H k).
Qed.

(** C9. The generation loop draws an adjective-noun pair and tries again
    while the pair is in the store, as long as it takes.  When the stored
    codes do not cover all 2,500 pairs, some sequence of draws makes the
    loop return; and the number of rounds has no bound: once a pair is
    taken, for every [n] some draws keep the loop running through [n]
    rounds before it returns.  Whenever the loop returns, its result is a
    pair that no record has.  When every pair is taken, the loop never
    returns, whatever the draws. *)
Theorem generator_termination (urls : list URLRecord) :
  (forall fuel rnd,
     generate (S fuel) rnd urls =
     if isUnique (draw_code rnd) urls
     then Some (draw_code rnd, advance 2 rnd)
     else generate fuel (advance 2 rnd) urls)
  /\ (~ covers urls ->
      exists rnd fuel code rnd', generate fuel rnd urls = Some (code, rnd'))
  /\ (~ covers urls ->
      (exists code, In code all_codes /\ In code (codes urls)) ->
      forall n, exists rnd code rnd',
        generate n rnd urls = None
        /\ generate (S n) rnd urls = Some (code, rnd'))
  /\ (forall fuel rnd code rnd',
        generate fuel rnd urls = Some (code, rnd') ->
        In code all_codes /\ ~ In code (codes urls))
  /\ (covers urls -> forall fuel rnd, generate fuel rnd urls = None).
Proof.
  assert (Free : ~ covers urls ->
                 exists i j, i < 50 /\ j < 50 /\
                   isUnique (Sprintf_code (nth i adjectives "") (nth j nouns "")) urls = true).
  { intros Hn. destruct (saturated urls) eqn:E.
    - elim Hn. now apply saturated_true.
    - apply saturated_false in E as (code & Hin & Hfree).
      apply all_codes_inv in Hin as (i & j & Hi & Hj & ->).
      exists i, j. repeat split; try assumption. now apply isUnique_true. }
  split; [reflexivity|]. split; [|split; [|split]].
  - intros Hn. destruct (Free Hn) as (i & j & Hi & Hj & Hu).
    destruct (generate_free_at 0 (draws_after 0 i j i j) urls) as (code & rnd' & H).
    + unfold free_at. rewrite draw_code_draws_after by assumption. exact Hu.
    + eauto.
  - intros Hn (taken & Hin & Htaken) n.
    destruct (Free Hn) as (i & j & Hi & Hj & Hu).
    apply all_codes_inv in Hin as (i0 & j0 & Hi0 & Hj0 & ->).
    exists (draws_after n i0 j0 i j).
    destruct (generate_free_at n (draws_after n i0 j0 i j) urls) as (code & rnd' & H).
    + unfold free_at. rewrite draw_code_draws_after by assumption.
      now rewrite Nat.ltb_irrefl.
    + exists code, rnd'. split; [|exact H].
      apply generate_None_until. intros k Hk. unfold free_at.
      rewrite draw_code_draws_after by assumption.
      destruct (Nat.ltb_spec k n); [|lia].
      apply isUnique_false in Htaken. congruence.
  - intros fuel rnd code rnd'. apply generate_sound.
  - intros Hc. apply generate_saturated. now apply saturated_true.
Qed.

(** ** The handlers *)

Lemma copy_make urls : copy (make (List.length urls)) urls = urls.
Proof.
  unfold copy, make. rewrite repeat_length, Nat.min_id.
  rewrite firstn_all, skipn_all2 by (rewrite repeat_length; lia).
  apply app_nil_r.
Qed.

Lemma find_and_count_spec shortCode : forall urls targetURL urls',
  find_and_count shortCode urls = Some (targetURL, urls') ->
  exists before r after,
    urls = (before ++ r :: after)%list
    /\ ~ In shortCode (codes before)
    /\ ShortCode r = shortCode
    /\ targetURL = LongURL r
    /\ urls' = (before ++ increment r :: after)%list.
Proof.
  induction urls as [|r rest IH]; intros targetURL urls' H; simpl in H.
  - discriminate.
  - destruct (String.eqb_spec (ShortCode r) shortCode) as [E|E].
    + injection H as <- <-. exists [], r, rest. simpl. tauto.
    + destruct (find_and_count shortCode rest) as [[t rest']|] eqn:F;
        [|discriminate].
      injection H as <- <-.
      destruct (IH _ _ eq_refl) as (before & r0 & after & -> & Hb & Hc & Ht & ->).
      exists (r :: before), r0, after. simpl. repeat split; try assumption.
      intros [H|H]; [now apply E | now apply Hb].
Qed.

Lemma find_and_count_None shortCode urls :
  find_and_count shortCode urls = None <-> ~ In shortCode (codes urls).
Proof.
  induction urls as [|r rest IH]; simpl.
  - split; [intros _ [] | reflexivity].
  - destruct (String.eqb_spec (ShortCode r) shortCode) as [E|E].
    + split; [discriminate | intros H; elim H; now left].
    + destruct (find_and_count shortCode rest) as [[t rest']|].
      * split; [discriminate|]. intros H. exfalso.
        destruct IH as [_ IH].
        assert (~ In shortCode (codes rest)) by (intros H'; apply H; now right).
        specialize (IH H0). discriminate.
      * split; [|reflexivity]. intros _ [H|H]; [now apply E|].
        now apply (proj1 IH).
Qed.

Lemma find_and_count_Some shortCode urls :
  In shortCode (codes urls) ->
  exists targetURL urls', find_and_count shortCode urls = Some (targetURL, urls').
Proof.
  intros H. destruct (find_and_count shortCode urls) as [[t urls']|] eqn:E.
  - eauto.
  - apply find_and_count_None in E. now elim E.
Qed.

Lemma codes_app urls urls' : codes (urls ++ urls') = (codes urls ++ codes urls')%list.
Proof. apply map_app. Qed.

Lemma find_and_count_codes shortCode urls targetURL urls' :
  find_and_count shortCode urls = Some (targetURL, urls') ->
  codes urls' = codes urls.
Proof.
  intros H. apply find_and_count_spec in H
    as (before & r & after & -> & _ & _ & _ & ->).
  now rewrite !codes_app.
Qed.

Lemma wrap_int_small z : (min_int <= z <= max_int)%Z -> wrap_int z = z.
Proof.
  unfold wrap_int, min_int, max_int. intros H.
  rewrite Z.mod_small; lia.
Qed.

Lemma wrap_int_succ_neq z : wrap_int (z + 1) <> z.
Proof.
  unfold wrap_int. intros H.
  assert (B := Z.mod_pos_bound (z + 1 + 2 ^ 63) (2 ^ 64) ltac:(lia)).
  assert (E := Z.div_mod (z + 1 + 2 ^ 63) (2 ^ 64) ltac:(lia)).
  assert (M : ((z + 1 + 2 ^ 63) mod 2 ^ 64 = z + 2 ^ 63)%Z) by lia.
  rewrite M in E.
  assert (2 ^ 64 * ((z + 1 + 2 ^ 63) / 2 ^ 64) = 1)%Z by lia.
  lia.
Qed.

Lemma wrap_int_range z : (min_int <= wrap_int z <= max_int)%Z.
Proof.
  unfold wrap_int, min_int, max_int.
  assert (B := Z.mod_pos_bound (z + 2 ^ 63) (2 ^ 64) ltac:(lia)). lia.
Qed.

(** The two ways a create call returns: refused by the validation, store
    untouched; or past it, with one record appended. *)
Lemma createURLHandler_cases fuel env r urls resp urls' :
  createURLHandler fuel env r urls = Some (resp, urls') ->
  (exists message,
     resp = writeJSONError message StatusBadRequest /\ urls' = urls
     /\ (JSON.Decode_reqBody (Body r) = None
         \/ JSON.Decode_reqBody (Body r) = Some ""
         \/ exists URL, JSON.Decode_reqBody (Body r) = Some URL
                        /\ ParseRequestURI URL = false))
  \/ (exists URL code rnd',
        JSON.Decode_reqBody (Body r) = Some URL
        /\ URL <> "" /\ ParseRequestURI URL = true
        /\ generate fuel (rand env) urls = Some (code, rnd')
        /\ urls' = (urls ++ [created env URL code])%list
        /\ resp = if WriteFile_fails env
                  then writeJSONError "Failed to save URL record"
                         StatusInternalServerError
                  else JSONResponse StatusCreated
                         (JSON.object1 "short_code" code)).
Proof.
  unfold createURLHandler. intros H.
  destruct (JSON.Decode_reqBody (Body r)) as [URL|] eqn:D.
  - destruct (String.eqb_spec URL "") as [E|E].
    + injection H as <- <-. left. eexists. subst URL. eauto.
    + destruct (ParseRequestURI URL) eqn:V; simpl in H.
      * destruct (generate fuel (rand env) urls) as [[code rnd']|] eqn:G;
          [|discriminate].
        right. exists URL, code, rnd'. unfold saveURLs in H.
        destruct (WriteFile_fails env); injection H as <- <-; auto 10.
      * injection H as <- <-. left. eexists. eauto 10.
  - injection H as <- <-. left. eexists. eauto.
Qed.

(** Past the validation the call returns as soon as the loop does. *)
Lemma createURLHandler_valid fuel env r urls URL code rnd' :
  JSON.Decode_reqBody (Body r) = Some URL ->
  URL <> "" -> ParseRequestURI URL = true ->
  generate fuel (rand env) urls = Some (code, rnd') ->
  createURLHandler fuel env r urls =
  Some (if WriteFile_fails env
        then writeJSONError "Failed to save URL record" StatusInternalServerError
        else JSONResponse StatusCreated (JSON.object1 "short_code" code),
        (urls ++ [created env URL code])%list).
Proof.
  intros D E V G. unfold createURLHandler. rewrite D.
  destruct (String.eqb_spec URL ""); [contradiction|].
  rewrite V, G. simpl. unfold saveURLs.
  now destruct (WriteFile_fails env).
Qed.

Lemma createURLHandler_codes fuel env r urls resp urls' :
  createURLHandler fuel env r urls = Some (resp, urls') ->
  (urls' = urls /\ returned_code resp = None)
  \/ (exists record,
        urls' = (urls ++ [record])%list
        /\ ~ In (ShortCode record) (codes urls)
        /\ In (ShortCode record) all_codes
        /\ (returned_code resp = None
            \/ returned_code resp = Some (ShortCode record))).
Proof.
  intros H. apply createURLHandler_cases in H
    as [(message & -> & -> & _) | (URL & code & rnd' & _ & _ & _ & G & -> & ->)].
  - left. split; reflexivity.
  - right. exists (created env URL code).
    apply generate_sound in G as [Hin Hfree].
    repeat split; try assumption.
    destruct (WriteFile_fails env); [left | right]; reflexivity.
Qed.

Lemma rootHandler_codes static fuel env r urls resp urls' :
  rootHandler static fuel env r urls = Some (resp, urls') ->
  codes urls' = codes urls
  \/ (exists record,
        urls' = (urls ++ [record])%list
        /\ ~ In (ShortCode record) (codes urls)
        /\ In (ShortCode record) all_codes).
Proof.
  unfold rootHandler. intros H.
  destruct (prefix "/api/urls" (Path r)).
  - destruct (Method r =? MethodGet)%string.
    + unfold getURLsHandler in H.
      destruct (Encode_fails env); injection H as _ <-; now left.
    + destruct (Method r =? MethodPost)%string.
      * apply createURLHandler_codes in H
          as [[-> _] | (record & -> & Hfree & Hin & _)]; [now left|].
        right. eauto.
      * injection H as _ <-. now left.
  - destruct (negb (TrimPrefix_slash (Path r) =? "")%string).
    + destruct (find_and_count (TrimPrefix_slash (Path r)) urls)
        as [[targetURL urls1]|] eqn:F.
      * apply find_and_count_codes in F.
        destruct (saveURLs env urls1); injection H as _ <-; now left.
      * injection H as _ <-. now left.
    + injection H as _ <-. now left.
Qed.

Lemma NoDup_codes_append urls record :
  NoDup (codes urls) -> ~ In (ShortCode record) (codes urls) ->
  NoDup (codes (urls ++ [record])).
Proof.
  intros Hnd Hfree. rewrite codes_app. simpl.
  apply NoDup_app; [exact Hnd | repeat constructor; intros [] |].
  intros code Hin [<-|[]]. contradiction.
Qed.

Lemma creates_codes urls resps urls' :
  creates urls resps urls' ->
  (forall code, In code (codes urls) -> In code (codes urls'))
  /\ NoDup (returned_codes resps)
  /\ (forall code, In code (returned_codes resps) ->
        ~ In code (codes urls) /\ In code (codes urls')).
Proof.
  induction 1 as [urls | urls fuel env r resp urls1 resps urls2 Hc Hrest IH].
  - simpl. repeat split; try tauto. constructor.
  - destruct IH as (Hsub & Hnd & Hret).
    apply createURLHandler_codes in Hc
      as [[-> Hnone] | (record & -> & Hfree & _ & Hcode)].
    + simpl. rewrite Hnone. split; [|split]; assumption.
    + assert (Hgrow : forall code, In code (codes urls) ->
                                   In code (codes (urls ++ [record]))).
      { intros code Hin. rewrite codes_app. apply in_or_app. now left. }
      split; [intros code Hin; apply Hsub, Hgrow, Hin|].
      simpl. destruct Hcode as [-> | ->]; [split|split].
      * exact Hnd.
      * intros code Hin. destruct (Hret code Hin) as [Hn Hin'].
        split; [intros Hu; apply Hn, Hgrow, Hu | exact Hin'].
      * constructor; [|exact Hnd]. intros Hin.
        destruct (Hret _ Hin) as [Hn _]. apply Hn.
        rewrite codes_app. apply in_or_app. right. now left.
      * intros code [<- | Hin].
        -- split; [exact Hfree|]. apply Hsub. rewrite codes_app.
           apply in_or_app. right. now left.
        -- destruct (Hret code Hin) as [Hn Hin'].
           split; [intros Hu; apply Hn, Hgrow, Hu | exact Hin'].
Qed.

Lemma creates_all_created urls resps urls' :
  creates urls resps urls' ->
  Forall (fun resp => Status resp = StatusCreated) resps ->
  List.length (returned_codes resps) = List.length resps.
Proof.
  induction 1 as [urls | urls fuel env r resp urls1 resps urls2 Hc Hrest IH];
    intros Hall; [reflexivity|].
  inversion Hall as [|? ? Hs Hall']; subst.
  apply createURLHandler_cases in Hc
    as [(message & -> & -> & _) | (URL & code & rnd' & _ & _ & _ & _ & -> & ->)].
  - discriminate Hs.
  - destruct (WriteFile_fails env); [discriminate Hs|].
    simpl. f_equal. now apply IH.
Qed.

Lemma reachable_NoDup static urls0 urls :
  NoDup (codes urls0) -> reachable static urls0 urls -> NoDup (codes urls).
Proof.
  intros H0. induction 1 as [|urls env r resp urls' _ IH [fuel Hs]].
  - exact H0.
  - apply rootHandler_codes in Hs as [-> | (record & -> & Hfree & _)].
    + exact IH.
    + now apply NoDup_codes_append.
Qed.

(** C1. The short codes of the in-memory collection are pairwise distinct
    in every store the service reaches, from the empty store of a fresh
    start as from any store whose codes are distinct.  A create call
    leaves the store alone or appends one record whose code no record
    had; every other request leaves the codes as they are.  The codes that
    a sequence of create calls returns are pairwise distinct, one per call
    when all the calls answer 201. *)
Theorem short_code_uniqueness :
  (init None = Some [] /\ NoDup (codes []))
  /\ (forall static urls0 urls,
        NoDup (codes urls0) -> reachable static urls0 urls ->
        NoDup (codes urls))
  /\ (forall fuel env r urls resp urls',
        createURLHandler fuel env r urls = Some (resp, urls') ->
        urls' = urls
        \/ exists record,
             urls' = (urls ++ [record])%list
             /\ ~ In (ShortCode record) (codes urls))
  /\ (forall static fuel env r urls resp urls',
        rootHandler static fuel env r urls = Some (resp, urls') ->
        codes urls' = codes urls
        \/ createURLHandler fuel env r urls = Some (resp, urls'))
  /\ (forall urls resps urls',
        creates urls resps urls' ->
        NoDup (returned_codes resps)
        /\ (Forall (fun resp => Status resp = StatusCreated) resps ->
            List.length (returned_codes resps) = List.length resps)).
Proof.
  split; [split; [reflexivity | constructor]|].
  split; [exact reachable_NoDup|]. split; [|split].
  - intros fuel env r urls resp urls' H.
    apply createURLHandler_codes in H
      as [[-> _] | (record & -> & Hfree & _)]; [now left|].
    right. eauto.
  - intros static fuel env r urls resp urls' H.
    unfold rootHandler in H.
    destruct (prefix "/api/urls" (Path r)).
    + destruct (Method r =? MethodGet)%string.
      * unfold getURLsHandler in H.
        destruct (Encode_fails env); injection H as _ <-; now left.
      * destruct (Method r =? MethodPost)%string; [now right|].
        injection H as _ <-. now left.
    + destruct (negb (TrimPrefix_slash (Path r) =? "")%string).
      * destruct (find_and_count (TrimPrefix_slash (Path r)) urls)
          as [[targetURL urls1]|] eqn:F.
        -- apply find_and_count_codes in F.
           destruct (saveURLs env urls1); injection H as _ <-; now left.
        -- injection H as _ <-. now left.
      * injection H as _ <-. now left.
  - intros urls resps urls' H. split.
    + now apply creates_codes in H.
    + now apply (creates_all_created urls resps urls').
Qed.

(** C2 (amended). POST /api/urls answers 400 with a JSON error body
    exactly when the body does not decode ("Invalid request body"), the
    decoded url is empty ("URL is required") or the url is refused by the
    request-URI parser ("Invalid URL format"); the store is then left as
    it is.  Any other body goes on to the creation: the call returns as
    soon as the generator finds a free pair, with 201 when the write of
    the backing file succeeds and with 500 when it fails. *)
Theorem create_validation env r urls :
  (JSON.Decode_reqBody (Body r) = None ->
   forall fuel, createURLHandler fuel env r urls =
     Some (writeJSONError "Invalid request body" StatusBadRequest, urls))
  /\ (JSON.Decode_reqBody (Body r) = Some "" ->
      forall fuel, createURLHandler fuel env r urls =
        Some (writeJSONError "URL is required" StatusBadRequest, urls))
  /\ (forall URL,
        JSON.Decode_reqBody (Body r) = Some URL -> URL <> "" ->
        ParseRequestURI URL = false ->
        forall fuel, createURLHandler fuel env r urls =
          Some (writeJSONError "Invalid URL format" StatusBadRequest, urls))
  /\ (forall URL,
        passes_validation r URL ->
        (forall fuel resp urls',
           createURLHandler fuel env r urls = Some (resp, urls') ->
           Status resp = if WriteFile_fails env
                         then StatusInternalServerError else StatusCreated)
        /\ (finds_free (rand env) urls ->
            exists fuel resp urls',
              createURLHandler fuel env r urls = Some (resp, urls'))).
Proof.
  split; [|split; [|split]].
  - intros D fuel. unfold createURLHandler. now rewrite D.
  - intros D fuel. unfold createURLHandler. now rewrite D.
  - intros URL D E V fuel. unfold createURLHandler. rewrite D.
    destruct (String.eqb_spec URL ""); [contradiction|]. now rewrite V.
  - intros URL (D & E & V). split.
    + intros fuel resp urls' H. apply createURLHandler_cases in H
        as [(message & -> & -> & [D' | [D' | (URL' & D' & V')]])
           | (URL' & code & rnd' & _ & _ & _ & _ & _ & ->)];
        try congruence.
      now destruct (WriteFile_fails env).
    + intros [k Hk]. apply generate_free_at in Hk as (code & rnd' & G).
      exists (S k). eexists. eexists.
      now apply (createURLHandler_valid (S k) env r urls URL code rnd').
Qed.

(** The redirect branch, on a path that selects a record: the first
    record with the code is the one counted and the one redirected to. *)
Lemma rootHandler_redirect static fuel env r urls :
  names_record r urls ->
  exists before record after,
    urls = (before ++ record :: after)%list
    /\ ~ In (TrimPrefix_slash (Path r)) (codes before)
    /\ ShortCode record = TrimPrefix_slash (Path r)
    /\ rootHandler static fuel env r urls =
       Some (redirect_response env record,
             (before ++ increment record :: after)%list).
Proof.
  intros (Hapi & Hne & Hin).
  destruct (find_and_count_Some _ _ Hin) as (targetURL & urls1 & F).
  destruct (find_and_count_spec _ _ _ _ F)
    as (before & record & after & -> & Hb & Hc & -> & ->).
  exists before, record, after. repeat split; try assumption.
  unfold rootHandler. rewrite Hapi.
  destruct (String.eqb_spec (TrimPrefix_slash (Path r)) ""); [contradiction|].
  simpl negb. cbv iota. rewrite F. unfold saveURLs, redirect_response.
  now destruct (WriteFile_fails env).
Qed.

Lemma rootHandler_static static fuel env r urls :
  prefix "/api/urls" (Path r) = false ->
  ~ names_record r urls ->
  rootHandler static fuel env r urls = Some (static r, urls).
Proof.
  intros Hapi Hn. unfold rootHandler. rewrite Hapi.
  destruct (String.eqb_spec (TrimPrefix_slash (Path r)) "") as [E|E];
    [reflexivity|].
  simpl negb. cbv iota.
  destruct (find_and_count (TrimPrefix_slash (Path r)) urls)
    as [[targetURL urls1]|] eqn:F; [|reflexivity].
  elim Hn. repeat split; try assumption.
  destruct (in_dec string_dec (TrimPrefix_slash (Path r)) (codes urls))
    as [H|H]; [exact H|].
  apply find_and_count_None in H. congruence.
Qed.

Lemma rootHandler_api static fuel env r urls :
  prefix "/api/urls" (Path r) = true ->
  rootHandler static fuel env r urls =
  if (Method r =? MethodGet)%string then Some (getURLsHandler env urls)
  else if (Method r =? MethodPost)%string then createURLHandler fuel env r urls
  else Some (writeJSONError "Method Not Allowed" StatusMethodNotAllowed, urls).
Proof.
  intros Hapi. unfold rootHandler. now rewrite Hapi.
Qed.

Lemma names_record_dec r urls : {names_record r urls} + {~ names_record r urls}.
Proof.
  unfold names_record.
  destruct (prefix "/api/urls" (Path r)); [right; intros [H _]; discriminate|].
  destruct (string_dec (TrimPrefix_slash (Path r)) "") as [E|E];
    [right; intros (_ & H & _); contradiction|].
  destruct (in_dec string_dec (TrimPrefix_slash (Path r)) (codes urls)) as [H|H];
    [left; auto | right; intros (_ & _ & H'); contradiction].
Qed.

Lemma increment_iter k record :
  ShortCode (Nat.iter k increment record) = ShortCode record
  /\ LongURL (Nat.iter k increment record) = LongURL record
  /\ CreatedAt (Nat.iter k increment record) = CreatedAt record
  /\ ((min_int <= UsageCount record)%Z ->
      (UsageCount record + Z.of_nat k <= max_int)%Z ->
      UsageCount (Nat.iter k increment record) = (UsageCount record + Z.of_nat k)%Z).
Proof.
  induction k as [|k (Hc & Hl & Ht & Hu)].
  - simpl. repeat split; try reflexivity. intros _ _. lia.
  - rewrite Nat.iter_succ. unfold increment at 1 3 5 7. cbn [ShortCode LongURL CreatedAt UsageCount].
    repeat split; try assumption.
    intros Hlo Hhi. rewrite Hu by lia. rewrite wrap_int_small; lia.
Qed.

Lemma serve_each_redirect static fuel r : forall envs before record after,
  names_record r (before ++ record :: after) ->
  ~ In (TrimPrefix_slash (Path r)) (codes before) ->
  ShortCode record = TrimPrefix_slash (Path r) ->
  serve_each static fuel envs r (before ++ record :: after) =
  Some (map (fun env => redirect_response env record) envs,
        (before ++ Nat.iter (List.length envs) increment record :: after)%list).
Proof.
  induction envs as [|env envs IH]; intros before record after Hn Hb Hc.
  - reflexivity.
  - cbn [serve_each].
    destruct (rootHandler_redirect static fuel env r _ Hn)
      as (before' & record' & after' & E & Hb' & Hc' & ->).
    assert (before' = before /\ record' = record /\ after' = after)
      as (-> & -> & ->).
    { clear - E Hb Hb' Hc Hc'. revert before' E Hb'.
      induction before as [|x before IHb]; intros [|y before'] E Hb';
        simpl in *.
      - injection E as <- <-. auto.
      - injection E as -> _. elim Hb'. now left.
      - injection E as <- _. elim Hb. now left.
      - injection E as <- E. destruct (IHb (fun H => Hb (or_intror H)) before' E)
          as (-> & -> & ->); [intros H; apply Hb'; now right | auto]. }
    rewrite IH.
    + cbn [map List.length]. rewrite Nat.iter_succ_r.
      unfold redirect_response at 2. cbn [LongURL increment].
      reflexivity.
    + destruct Hn as (Hapi & Hne & Hin). repeat split; try assumption.
      rewrite codes_app in *. simpl in *. exact Hin.
    + exact Hb.
    + exact Hc.
Qed.

(** C3 (amended). For a request body whose url passes the validation, a
    create call that returns has appended exactly one record to the end
    of the collection: its long_url is the submitted url, its usage_count
    is 0, its created_at is the current UTC time in RFC 3339 form and its
    short_code is an adjective, a hyphen and a noun from the two lists of
    50 words, so that it matches [^[a-z]+-[a-z]+$]; the code is new to the
    store.  The answer is 201 with that code when the write of the backing
    file succeeds, and 500 with an error body when it fails.  The list
    that follows holds the record.  The call returns once the random
    source comes to a free pair. *)
Theorem create_success env r urls URL :
  passes_validation r URL ->
  (forall fuel resp urls',
     createURLHandler fuel env r urls = Some (resp, urls') ->
     exists adj noun,
       let record := mkURLRecord (adj ++ "-" ++ noun) URL
                       (Time.Format_RFC3339 (now env)) 0 in
       In adj adjectives /\ In noun nouns
       /\ matches_code_pattern (ShortCode record) = true
       /\ ~ In (ShortCode record) (codes urls)
       /\ urls' = (urls ++ [record])%list
       /\ resp = (if WriteFile_fails env
                  then writeJSONError "Failed to save URL record"
                         StatusInternalServerError
                  else JSONResponse StatusCreated
                         (JSON.object1 "short_code" (ShortCode record)))
       /\ (forall env', Encode_fails env' = false ->
             exists elems,
               getURLsHandler env' urls' =
                 (JSONResponse StatusOK (JSON.JArray elems), urls')
               /\ In (JSON.of_URLRecord record) elems))
  /\ (finds_free (rand env) urls ->
      exists fuel resp urls',
        createURLHandler fuel env r urls = Some (resp, urls'))
  /\ List.length adjectives = 50 /\ List.length nouns = 50.
Proof.
  intros (D & E & V). split; [|split; [|split; reflexivity]].
  - intros fuel resp urls' H. apply createURLHandler_cases in H
      as [(message & -> & -> & [D' | [D' | (URL' & D' & V')]])
         | (URL' & code & rnd' & D' & _ & _ & G & -> & ->)];
      try congruence.
    assert (URL' = URL) as -> by congruence.
    apply generate_sound in G as [Hin Hfree].
    assert (Hpat := all_codes_pattern _ Hin).
    unfold all_codes in Hin. apply in_flat_map in Hin as (adj & Ha & Hin).
    apply in_map_iff in Hin as (noun & <- & Hn).
    exists adj, noun. cbn zeta. cbn [ShortCode].
    repeat split; try assumption.
    intros env' Henc. unfold getURLsHandler. rewrite Henc, copy_make.
    eexists. split; [reflexivity|].
    apply in_map, in_or_app. right. now left.
  - intros [k Hk]. apply generate_free_at in Hk as (code & rnd' & G).
    exists (S k). eexists. eexists.
    now apply (createURLHandler_valid (S k) env r urls URL code rnd').
Qed.

(** ** The Location header of a redirect *)

Lemma hexEscapeNonASCII_ASCII s :
  isASCII s = true -> hexEscapeNonASCII s = s.
Proof.
  unfold isASCII. induction s as [|c s IH]; [reflexivity|].
  cbn [list_ascii_of_string forallb hexEscapeNonASCII].
  intros H. apply andb_prop in H as [Hc Hs]. rewrite Hc, IH by exact Hs.
  reflexivity.
Qed.

Lemma Parse_relative_scheme url :
  has_scheme url = true -> NetURL.Parse_relative url = false.
Proof.
  unfold has_scheme, NetURL.Parse_relative.
  destruct (NetURL.Cut "#" url) as [u frag]. cbn [fst]. intros H.
  destruct (NetURL.stringContainsCTLByte u); [reflexivity|].
  destruct (String.eqb_spec u "*") as [->|_]; [discriminate H|].
  destruct (NetURL.getScheme u) as [[scheme rest]|]; [|reflexivity].
  now rewrite H.
Qed.

Lemma Redirect_Location_absolute oldpath url :
  NetURL.Parse_relative url = false -> isASCII url = true ->
  Redirect_Location oldpath url = url.
Proof.
  intros P A. unfold Redirect_Location. rewrite P.
  now apply hexEscapeNonASCII_ASCII.
Qed.

(** C4 (amended). When the request path is outside the API prefix and,
    without its leading slash, is the non-empty code of a record, the
    first such record has its usage_count incremented by exactly 1 (in
    Go's int) and no other record or field changes; when the write of the
    backing file succeeds the answer is the 302 of [http.Redirect] on that
    record's long_url, whose Location is the long_url itself when it is
    ASCII and has a scheme, and in general the long_url with its bytes
    outside ASCII percent-escaped and, where it parses without scheme and
    host, made a clean absolute path; when the write fails the answer is
    500 with an error body.  K such requests increase the count by exactly
    K.  When the path is outside the API prefix and selects no record,
    the store is left as it is and the answer is the one of the static
    handler, 404 from a handler that has nothing to serve. *)
Theorem redirect_contract static fuel env r urls :
  (names_record r urls ->
   exists before record after,
     urls = (before ++ record :: after)%list
     /\ ~ In (TrimPrefix_slash (Path r)) (codes before)
     /\ ShortCode record = TrimPrefix_slash (Path r)
     /\ rootHandler static fuel env r urls =
        Some (redirect_response env record,
              (before ++ increment record :: after)%list)
     /\ (WriteFile_fails env = false ->
         redirect_response env record =
           RedirectResponse (LongURL record) StatusFound
         /\ Status (redirect_response env record) = StatusFound
         /\ Location r (redirect_response env record) =
            Some (Redirect_Location (Path r) (LongURL record))
         /\ (isASCII (LongURL record) = true ->
             has_scheme (LongURL record) = true ->
             Location r (redirect_response env record) =
               Some (LongURL record))
         /\ (isASCII (LongURL record) = true ->
             NetURL.Parse_relative (LongURL record) = false ->
             Location r (redirect_response env record) =
               Some (LongURL record))
         /\ (NetURL.Parse_relative (LongURL record) = false ->
             Location r (redirect_response env record) =
               Some (hexEscapeNonASCII (LongURL record))))
     /\ (WriteFile_fails env = true ->
         redirect_response env record =
           JSONResponse StatusInternalServerError
             (JSON.object1 "error" "Failed to update URL data")
         /\ Location r (redirect_response env record) = None)
     /\ increment record =
        mkURLRecord (ShortCode record) (LongURL record) (CreatedAt record)
          (wrap_int (UsageCount record + 1))
     /\ ((min_int <= UsageCount record < max_int)%Z ->
         UsageCount (increment record) = (UsageCount record + 1)%Z)
     /\ (forall envs,
           let K := List.length envs in
           let counted := Nat.iter K increment record in
           serve_each static fuel envs r urls =
             Some (map (fun env => redirect_response env record) envs,
                   (before ++ counted :: after)%list)
           /\ ShortCode counted = ShortCode record
           /\ LongURL counted = LongURL record
           /\ CreatedAt counted = CreatedAt record
           /\ ((min_int <= UsageCount record)%Z ->
               (UsageCount record + Z.of_nat K <= max_int)%Z ->
               UsageCount counted = (UsageCount record + Z.of_nat K)%Z)))
  /\ (prefix "/api/urls" (Path r) = false -> ~ names_record r urls ->
      rootHandler static fuel env r urls = Some (static r, urls))
  /\ Status (NotFoundHandler r) = StatusNotFound.
Proof.
  split; [|split; [apply rootHandler_static | reflexivity]].
  intros Hn.
  destruct (rootHandler_redirect static fuel env r urls Hn)
    as (before & record & after & -> & Hb & Hc & H).
  exists before, record, after.
  split; [reflexivity|]. split; [exact Hb|]. split; [exact Hc|].
  split; [exact H|]. split.
  { intros W. unfold redirect_response. rewrite W. cbn [Status Location].
    split; [reflexivity|]. split; [reflexivity|]. split; [reflexivity|].
    split; [|split].
    - intros A S. f_equal. apply Redirect_Location_absolute; [|exact A].
      now apply Parse_relative_scheme.
    - intros A P. f_equal. now apply Redirect_Location_absolute.
    - intros P. unfold Redirect_Location. now rewrite P. }
  split.
  { intros W. unfold redirect_response. rewrite W. split; reflexivity. }
  split; [reflexivity|]. split.
  { intros R. cbn [increment UsageCount]. apply wrap_int_small.
    unfold min_int, max_int in *. lia. }
  intros envs. cbv zeta.
  split; [now apply serve_each_redirect | apply increment_iter].
Qed.

(** C5. When the write of the backing file fails, a create call past the
    validation and a request that selects a record both answer 500 with a
    JSON error body, and the store they leave holds the mutation: the
    appended record, respectively the incremented usage_count, which is
    not the count the record had. *)
Theorem write_failure_keeps_mutation static env urls :
  WriteFile_fails env = true ->
  (forall r URL,
     passes_validation r URL ->
     (forall fuel resp urls',
        createURLHandler fuel env r urls = Some (resp, urls') ->
        resp = JSONResponse StatusInternalServerError
                 (JSON.object1 "error" "Failed to save URL record")
        /\ exists code, urls' = (urls ++ [created env URL code])%list)
     /\ (finds_free (rand env) urls ->
         exists fuel resp urls',
           createURLHandler fuel env r urls = Some (resp, urls')))
  /\ (forall fuel r,
        names_record r urls ->
        exists before record after,
          urls = (before ++ record :: after)%list
          /\ ShortCode record = TrimPrefix_slash (Path r)
          /\ rootHandler static fuel env r urls =
             Some (JSONResponse StatusInternalServerError
                     (JSON.object1 "error" "Failed to update URL data"),
                   (before ++ increment record :: after)%list)
          /\ UsageCount (increment record) = wrap_int (UsageCount record + 1)
          /\ UsageCount (increment record) <> UsageCount record).
Proof.
  intros W. split.
  - intros r URL (D & E & V). split.
    + intros fuel resp urls' H. apply createURLHandler_cases in H
        as [(message & -> & -> & [D' | [D' | (URL' & D' & V')]])
           | (URL' & code & rnd' & D' & _ & _ & _ & -> & ->)];
        try congruence.
      assert (URL' = URL) as -> by congruence. rewrite W. eauto.
    + intros [k Hk]. apply generate_free_at in Hk as (code & rnd' & G).
      exists (S k). eexists. eexists.
      now apply (createURLHandler_valid (S k) env r urls URL code rnd').
  - intros fuel r Hn.
    destruct (rootHandler_redirect static fuel env r urls Hn)
      as (before & record & after & -> & Hb & Hc & H).
    exists before, record, after. unfold redirect_response in H.
    rewrite W in H. repeat split; try assumption.
    apply wrap_int_succ_neq.
Qed.

Lemma all_codes_nonempty : ~ In "" all_codes.
Proof.
  intros H. apply all_codes_pattern in H. discriminate.
Qed.

(** The stores reached from the empty store hold generated codes only. *)
Lemma reachable_generated static urls :
  reachable static [] urls ->
  forall code, In code (codes urls) -> In code all_codes.
Proof.
  induction 1 as [|urls env r resp urls' _ IH [fuel Hs]]; intros code Hin.
  - destruct Hin.
  - apply rootHandler_codes in Hs as [E | (record & -> & _ & Hgen)].
    + rewrite E in Hin. now apply IH.
    + rewrite codes_app in Hin. apply in_app_or in Hin as [Hin | [<- | []]].
      * now apply IH.
      * exact Hgen.
Qed.

(** C7. A request is classified in strict order.  A path with the API
    prefix is dispatched by method, GET to the list, POST to the creation
    and anything else to the method-not-allowed error, and the static
    handler has no part in the answer.  Any other path is looked up as a
    short code: when it selects a record the answer is the redirect (or
    the error of its failed write), again whatever the static handler is;
    only when it selects none is the request handed to the static handler,
    the store untouched.  The three cases exclude each other, and in a
    store without an empty code, as all the stores the service builds are,
    selecting a record is having the code of a record. *)
Theorem routing_priority static fuel env r urls :
  (prefix "/api/urls" (Path r) = true ->
   rootHandler static fuel env r urls =
     (if (Method r =? MethodGet)%string then Some (getURLsHandler env urls)
      else if (Method r =? MethodPost)%string
           then createURLHandler fuel env r urls
      else Some (writeJSONError "Method Not Allowed" StatusMethodNotAllowed,
                 urls))
   /\ ~ names_record r urls
   /\ forall static',
        rootHandler static' fuel env r urls = rootHandler static fuel env r urls)
  /\ (prefix "/api/urls" (Path r) = false ->
      (names_record r urls ->
       (exists record,
          In record urls /\ ShortCode record = TrimPrefix_slash (Path r)
          /\ exists urls',
               rootHandler static fuel env r urls =
                 Some (redirect_response env record, urls'))
       /\ forall static',
            rootHandler static' fuel env r urls =
            rootHandler static fuel env r urls)
      /\ (~ names_record r urls ->
          rootHandler static fuel env r urls = Some (static r, urls)))
  /\ (~ In "" (codes urls) ->
      (names_record r urls <->
       prefix "/api/urls" (Path r) = false
       /\ In (TrimPrefix_slash (Path r)) (codes urls)))
  /\ (forall static0, reachable static0 [] urls -> ~ In "" (codes urls)).
Proof.
  split; [|split; [|split]].
  - intros Hapi. split; [now apply rootHandler_api|]. split.
    + intros (H & _). congruence.
    + intros static'. now rewrite !rootHandler_api.
  - intros Hapi. split.
    + intros Hn. split.
      * destruct (rootHandler_redirect static fuel env r urls Hn)
          as (before & record & after & -> & _ & Hc & H).
        exists record. split; [apply in_or_app; right; now left|].
        split; [exact Hc | eauto].
      * intros static'.
        destruct (rootHandler_redirect static fuel env r urls Hn)
          as (before & record & after & E & Hb & Hc & ->).
        destruct (rootHandler_redirect static' fuel env r urls Hn)
          as (before' & record' & after' & E' & Hb' & Hc' & ->).
        rewrite E in E'. clear - E' Hb Hb' Hc Hc'.
        revert before' E' Hb'.
        induction before as [|x before IH]; intros [|y before'] E' Hb';
          simpl in *.
        -- now injection E' as <- <-.
        -- injection E' as -> _. elim Hb'. now left.
        -- injection E' as <- _. elim Hb. now left.
        -- injection E' as <- E'.
           assert (Hb0 : ~ In (TrimPrefix_slash (Path r)) (codes before))
             by (intros H; apply Hb; now right).
           assert (Hb0' : ~ In (TrimPrefix_slash (Path r)) (codes before'))
             by (intros H; apply Hb'; now right).
           specialize (IH Hb0 before' E' Hb0'). now injection IH as <- <-.
    + now apply rootHandler_static.
  - intros Hne. unfold names_record. split.
    + intros (Hapi & _ & Hin). auto.
    + intros (Hapi & Hin). repeat split; try assumption.
      intros E. rewrite E in Hin. contradiction.
  - intros static0 Hr Hin. apply (reachable_generated _ _ Hr) in Hin.
    now apply all_codes_nonempty.
Qed.

(** ** The body of the list *)

Lemma string_app_assoc (a b c : string) : (a ++ b) ++ c = a ++ (b ++ c).
Proof.
  induction a as [|x a IH]; [reflexivity|]. cbn [append]. now rewrite IH.
Qed.

Lemma compact_of_URLRecord record :
  JSON.compact_value (JSON.of_URLRecord record) = compact_record record.
Proof.
  unfold JSON.of_URLRecord, compact_record.
  cbn [JSON.compact_value map fst snd concat].
  now rewrite !string_app_assoc.
Qed.

Lemma Encode_of_urls urls :
  JSON.Encode (JSON.of_urls urls) = list_body urls.
Proof.
  unfold JSON.Encode, JSON.of_urls, list_body. cbn [JSON.compact_value].
  rewrite map_map, (map_ext _ _ compact_of_URLRecord).
  now rewrite !string_app_assoc.
Qed.

(** C8 (amended). GET /api/urls answers 200 with a JSON array that holds
    every stored record, as an object with the members short_code,
    long_url, created_at and usage_count, in the order of the store; the
    body written is that array without white space and a line feed.  The
    array is built from a copy of the collection and the store is left as
    it is.  The handler does no file I/O: a failure to write the backing
    file is not among its failures, and its answer does not depend on
    whether the file can be written. *)
Theorem list_contract static fuel env r urls :
  prefix "/api/urls" (Path r) = true -> Method r = MethodGet ->
  rootHandler static fuel env r urls = Some (getURLsHandler env urls)
  /\ snd (getURLsHandler env urls) = urls
  /\ copy (make (List.length urls)) urls = urls
  /\ (Encode_fails env = false ->
      fst (getURLsHandler env urls) =
        JSONResponse StatusOK
          (JSON.JArray
             (map (fun record =>
                     JSON.JObject
                       [ ("short_code", JSON.JString (ShortCode record));
                         ("long_url", JSON.JString (LongURL record));
                         ("created_at", JSON.JString (CreatedAt record));
                         ("usage_count", JSON.JInt (UsageCount record)) ])
                  urls))
      /\ Status (fst (getURLsHandler env urls)) = StatusOK
      /\ Encoded (fst (getURLsHandler env urls)) = Some (list_body urls))
  /\ (forall rnd clock write_fails,
        getURLsHandler (mkEnv rnd clock write_fails (Encode_fails env)) urls =
        getURLsHandler env urls).
Proof.
  intros Hapi Hget. split; [|split; [|split; [|split]]].
  - rewrite rootHandler_api by assumption. now rewrite Hget.
  - unfold getURLsHandler. now destruct (Encode_fails env).
  - apply copy_make.
  - intros E. unfold getURLsHandler. rewrite E, copy_make. cbn [fst].
    split; [reflexivity|]. split; [reflexivity|].
    cbn [Encoded]. now rewrite Encode_of_urls.
  - reflexivity.
Qed.


End Handlers.

(** ** The backing file *)

Ltac eval_names :=
  repeat match goal with
    | |- context [JSON.names ?key ?field] =>
        let b := eval vm_compute in (JSON.names key field) in
        change (JSON.names key field) with b
    end.

Lemma into_of_URLRecord r :
  in_int (UsageCount r) = true ->
  JSON.into_URLRecord (JSON.of_URLRecord r) = Some r.
Proof.
  intros R. destruct r as [code long created count]. cbn [UsageCount] in R.
  unfold JSON.into_URLRecord, JSON.of_URLRecord.
  cbn [JSON.into_URLRecord_members JSON.into_URLRecord_member
       ShortCode LongURL CreatedAt UsageCount JSON.zeroURLRecord].
  eval_names.
  cbn [JSON.into_string JSON.into_int option_map
       ShortCode LongURL CreatedAt UsageCount].
  eval_names.
  cbn [JSON.into_string JSON.into_int option_map
       ShortCode LongURL CreatedAt UsageCount].
  eval_names.
  cbn [JSON.into_string JSON.into_int option_map
       ShortCode LongURL CreatedAt UsageCount].
  eval_names.
  cbn [JSON.into_string JSON.into_int option_map
       ShortCode LongURL CreatedAt UsageCount].
  now rewrite R.
Qed.

Module JSONText.

Import JSON.

(** ** UTF-8: decoding a valid sequence and encoding it again *)

(** [lia] with the quotients and remainders by constants spelled out. *)
Ltac div_lia := zify; Z.to_euclidean_division_equations; lia.

Section Bits.
Local Open Scope N_scope.

Lemma lor_add x p k : x mod 2 ^ k = 0 -> p < 2 ^ k -> N.lor x p = x + p.
Proof.
  intros Hx Hp.
  assert (Z : N.land x p = 0).
  { apply N.bits_inj. intros n. rewrite N.land_spec, N.bits_0.
    destruct (N.lt_ge_cases n k) as [Hn|Hn].
    - assert (E : x = N.shiftl (x / 2 ^ k) k).
      { rewrite N.shiftl_mul_pow2.
        assert (D := N.Div0.div_mod x (2 ^ k)). rewrite Hx in D. lia. }
      rewrite E, N.shiftl_spec_low by exact Hn. reflexivity.
    - rewrite <- (N.mod_small p (2 ^ k)) by exact Hp.
      rewrite N.mod_pow2_bits_high by exact Hn. apply andb_false_r. }
  rewrite <- N.lxor_lor by exact Z. symmetry. now apply N.add_nocarry_lxor.
Qed.

(** A rune is put together from a high part and six low bits, and taken
    apart again. *)
Lemma join6 q p : p < 64 -> N.lor (N.shiftl q 6) p = q * 64 + p.
Proof.
  intros Hp. rewrite N.shiftl_mul_pow2. apply (lor_add _ _ 6); [|exact Hp].
  apply N.Div0.mod_mul.
Qed.

Lemma low6 x : N.land x 0x3F = x mod 64.
Proof. exact (N.land_ones x 6). Qed.

Lemma high6 x : N.shiftr x 6 = x / 64.
Proof. exact (N.shiftr_div_pow2 x 6). Qed.

Lemma shiftl_12 x : N.shiftl x 12 = N.shiftl (N.shiftl x 6) 6.
Proof. now rewrite N.shiftl_shiftl. Qed.

Lemma shiftl_18 x : N.shiftl x 18 = N.shiftl (N.shiftl (N.shiftl x 6) 6) 6.
Proof. now rewrite !N.shiftl_shiftl. Qed.

Lemma shiftr_12 x : N.shiftr x 12 = N.shiftr (N.shiftr x 6) 6.
Proof. now rewrite N.shiftr_shiftr. Qed.

Lemma shiftr_18 x : N.shiftr x 18 = N.shiftr (N.shiftr (N.shiftr x 6) 6) 6.
Proof. now rewrite !N.shiftr_shiftr. Qed.

Lemma split6 q p : p < 64 -> (q * 64 + p) / 64 = q /\ (q * 64 + p) mod 64 = p.
Proof. intros. div_lia. Qed.

(** The marks of the leading and the continuation bytes. *)
Lemma mark_80 p : p < 64 -> N.lor 0x80 p = 0x80 + p.
Proof. intros. now apply (lor_add _ _ 6). Qed.

Lemma mark_C0 p : p < 32 -> N.lor 0xC0 p = 0xC0 + p.
Proof. intros. now apply (lor_add _ _ 5). Qed.

Lemma mark_E0 p : p < 16 -> N.lor 0xE0 p = 0xE0 + p.
Proof. intros. now apply (lor_add _ _ 4). Qed.

Lemma mark_F0 p : p < 8 -> N.lor 0xF0 p = 0xF0 + p.
Proof. intros. now apply (lor_add _ _ 3). Qed.

Lemma payload_80 b : 0x80 <= b <= 0xBF -> N.land b 0x3F = b - 0x80.
Proof. intros. rewrite low6. div_lia. Qed.

Lemma payload_C0 b : 0xC0 <= b <= 0xDF -> N.land b 0x1F = b - 0xC0.
Proof.
  intros. change (N.land b 0x1F) with (N.land b (N.ones 5)).
  rewrite N.land_ones. change (2 ^ 5) with 32. div_lia.
Qed.

Lemma payload_E0 b : 0xE0 <= b <= 0xEF -> N.land b 0x0F = b - 0xE0.
Proof.
  intros. change (N.land b 0x0F) with (N.land b (N.ones 4)).
  rewrite N.land_ones. change (2 ^ 4) with 16. div_lia.
Qed.

Lemma payload_F0 b : 0xF0 <= b <= 0xF7 -> N.land b 0x07 = b - 0xF0.
Proof.
  intros. change (N.land b 0x07) with (N.land b (N.ones 3)).
  rewrite N.land_ones. change (2 ^ 3) with 8. div_lia.
Qed.

Lemma first_cases b sz lo hi :
  first b = Some (sz, lo, hi) ->
  (sz = 2%nat /\ 0xC2 <= b <= 0xDF /\ lo = 0x80 /\ hi = 0xBF)
  \/ (sz = 3%nat /\ 0xE0 <= b <= 0xEF /\ 0x80 <= lo /\ hi <= 0xBF
      /\ (b = 0xE0 -> lo = 0xA0) /\ (b = 0xED -> hi = 0x9F))
  \/ (sz = 4%nat /\ 0xF0 <= b <= 0xF4 /\ 0x80 <= lo /\ hi <= 0xBF
      /\ (b = 0xF0 -> lo = 0x90) /\ (b = 0xF4 -> hi = 0x8F)).
Proof.
  unfold first. intros F.
  repeat match type of F with
         | (if ?c then _ else _) = _ => destruct c eqn:?
         end;
    try discriminate F; injection F as <- <- <-.
  - left. lia.
  - right; left. lia.
  - right; left. lia.
  - right; left. lia.
  - right; right. lia.
  - right; right. lia.
  - right; right. lia.
Qed.

Lemma EncodeRune_2 b0 b1 :
  0xC2 <= b0 <= 0xDF -> 0x80 <= b1 <= 0xBF ->
  EncodeRune (N.lor (N.shiftl (N.land b0 0x1F) 6) (N.land b1 0x3F)) =
  String (chr b0) (String (chr b1) "").
Proof.
  intros H0 H1. rewrite payload_C0, payload_80 by lia.
  rewrite join6 by lia.
  set (a := b0 - 192) in *. set (p := b1 - 128) in *.
  assert (Ha : 2 <= a < 32) by lia. assert (Hp : p < 64) by lia.
  destruct (split6 a p Hp) as [D M]. unfold EncodeRune.
  destruct (N.leb_spec (a * 64 + p) 0x7F); [lia|].
  destruct (N.leb_spec (a * 64 + p) 0x7FF); [|lia].
  rewrite high6, low6, D, M, mark_C0, mark_80 by lia.
  f_equal; [f_equal; lia | f_equal; f_equal; lia].
Qed.

Lemma EncodeRune_3 b0 b1 b2 :
  0xE0 <= b0 <= 0xEF -> 0x80 <= b1 <= 0xBF -> 0x80 <= b2 <= 0xBF ->
  (b0 = 0xE0 -> 0xA0 <= b1) -> (b0 = 0xED -> b1 <= 0x9F) ->
  EncodeRune (N.lor (N.lor (N.shiftl (N.land b0 0x0F) 12)
                           (N.shiftl (N.land b1 0x3F) 6))
                    (N.land b2 0x3F)) =
  String (chr b0) (String (chr b1) (String (chr b2) "")).
Proof.
  intros H0 H1 H2 HE0 HED. rewrite payload_E0, !payload_80 by lia.
  rewrite shiftl_12, <- N.shiftl_lor, !join6 by lia.
  set (a := b0 - 224) in *. set (p := b1 - 128) in *. set (q := b2 - 128) in *.
  assert (Ha : a < 16) by lia. assert (Hp : p < 64) by lia.
  assert (Hq : q < 64) by lia.
  assert (Hlo : a = 0 -> 32 <= p) by lia.
  assert (Hsur : a = 13 -> p < 32) by lia.
  destruct (split6 a p Hp) as [D1 M1].
  destruct (split6 (a * 64 + p) q Hq) as [D2 M2].
  unfold EncodeRune. set (r := (a * 64 + p) * 64 + q) in *.
  destruct (N.leb_spec r 0x7F); [lia|].
  destruct (N.leb_spec r 0x7FF); [lia|].
  destruct (N.ltb_spec 0x10FFFF r); [lia|].
  assert (S : (0xD800 <=? r) && (r <=? 0xDFFF) = false) by lia.
  rewrite S. cbn [orb].
  destruct (N.leb_spec r 0xFFFF); [|lia].
  rewrite shiftr_12, !high6, !low6, D2, D1, M1, M2.
  rewrite mark_E0, !mark_80 by lia.
  f_equal; [f_equal; lia | f_equal; [f_equal; lia | f_equal; f_equal; lia]].
Qed.

Lemma EncodeRune_4 b0 b1 b2 b3 :
  0xF0 <= b0 <= 0xF4 -> 0x80 <= b1 <= 0xBF -> 0x80 <= b2 <= 0xBF ->
  0x80 <= b3 <= 0xBF ->
  (b0 = 0xF0 -> 0x90 <= b1) -> (b0 = 0xF4 -> b1 <= 0x8F) ->
  EncodeRune (N.lor (N.lor (N.lor (N.shiftl (N.land b0 0x07) 18)
                                  (N.shiftl (N.land b1 0x3F) 12))
                           (N.shiftl (N.land b2 0x3F) 6))
                    (N.land b3 0x3F)) =
  String (chr b0) (String (chr b1) (String (chr b2) (String (chr b3) ""))).
Proof.
  intros H0 H1 H2 H3 HF0 HF4. rewrite payload_F0, !payload_80 by lia.
  rewrite shiftl_18, shiftl_12, <- !N.shiftl_lor, !join6 by lia.
  set (a := b0 - 240) in *. set (p := b1 - 128) in *.
  set (q := b2 - 128) in *. set (s := b3 - 128) in *.
  assert (Ha : a < 5) by lia. assert (Hp : p < 64) by lia.
  assert (Hq : q < 64) by lia. assert (Hs : s < 64) by lia.
  assert (Hlo : a = 0 -> 16 <= p) by lia.
  assert (Hhi : a = 4 -> p < 16) by lia.
  destruct (split6 a p Hp) as [D1 M1].
  destruct (split6 (a * 64 + p) q Hq) as [D2 M2].
  destruct (split6 ((a * 64 + p) * 64 + q) s Hs) as [D3 M3].
  unfold EncodeRune. set (r := ((a * 64 + p) * 64 + q) * 64 + s) in *.
  destruct (N.leb_spec r 0x7F); [lia|].
  destruct (N.leb_spec r 0x7FF); [lia|].
  destruct (N.ltb_spec 0x10FFFF r); [lia|].
  assert (S : (0xD800 <=? r) && (r <=? 0xDFFF) = false) by lia.
  rewrite S. cbn [orb].
  destruct (N.leb_spec r 0xFFFF); [lia|].
  rewrite shiftr_18, shiftr_12, !high6, !low6, D3, D2, D1, M1, M2, M3.
  rewrite mark_F0, !mark_80 by lia.
  f_equal; [f_equal; lia
           | f_equal; [f_equal; lia
                      | f_equal; [f_equal; lia | f_equal; f_equal; lia]]].
Qed.

End Bits.

Lemma invalid_at_RuneError1 s :
  DecodeRune s = (RuneError, 1) -> invalid_at s = true.
Proof. unfold invalid_at. intros ->. reflexivity. Qed.

Lemma chr_byte c : chr (byte c) = c.
Proof. apply ascii_N_embedding. Qed.

(** A sequence that [DecodeRune] accepts at a byte from 0x80 up has two
    to four bytes, is the encoding of the rune it gives, and decodes the
    same whatever follows it. *)
Lemma DecodeRune_valid c0 t0 :
  (0x80 <= byte c0)%N -> invalid_at (String c0 t0) = false ->
  exists r n,
    DecodeRune (String c0 t0) = (r, n)
    /\ 2 <= n
    /\ String.length (take n (String c0 t0)) = n
    /\ EncodeRune r = take n (String c0 t0)
    /\ forall t, DecodeRune (take n (String c0 t0) ++ t) = (r, n).
Proof.
  intros Hhi Hv.
  assert (Hbad : DecodeRune (String c0 t0) <> (RuneError, 1)).
  { intros E. apply invalid_at_RuneError1 in E. congruence. }
  clear Hv. revert Hbad. unfold DecodeRune.
  destruct (N.ltb_spec (byte c0) 128) as [|_]; [lia|].
  destruct (first (byte c0)) as [[[sz lo] hi]|] eqn:F;
    [|intros Hbad; elim Hbad; reflexivity].
  destruct t0 as [|c1 t1]; [intros Hbad; elim Hbad; reflexivity|].
  destruct ((byte c1 <? lo)%N || (hi <? byte c1)%N) eqn:R1;
    [intros Hbad; elim Hbad; reflexivity|].
  destruct (first_cases _ _ _ _ F)
    as [(-> & Hb & -> & ->)
       | [(-> & Hb & Hlo & Hhi' & HE0 & HED)
         | (-> & Hb & Hlo & Hhi' & HF0 & HF4)]].
  - intros _. cbn [Nat.eqb]. eexists. exists 2.
    split; [reflexivity|]. split; [lia|]. split; [reflexivity|]. split.
    + rewrite EncodeRune_2 by lia. now rewrite !chr_byte.
    + intros t. cbn [take append]. unfold DecodeRune.
      destruct (N.ltb_spec (byte c0) 128) as [|_]; [lia|].
      rewrite F, R1. reflexivity.
  - cbn [Nat.eqb].
    destruct t1 as [|c2 t2]; [intros Hbad; elim Hbad; reflexivity|].
    destruct (negb (continues (byte c2))) eqn:R2;
      [intros Hbad; elim Hbad; reflexivity|].
    intros _. eexists. exists 3.
    split; [reflexivity|]. split; [lia|]. split; [reflexivity|]. split.
    + unfold continues in R2.
      rewrite EncodeRune_3 by lia. now rewrite !chr_byte.
    + intros t. cbn [take append]. unfold DecodeRune.
      destruct (N.ltb_spec (byte c0) 128) as [|_]; [lia|].
      rewrite F, R1. cbn [Nat.eqb]. rewrite R2. reflexivity.
  - cbn [Nat.eqb].
    destruct t1 as [|c2 t2]; [intros Hbad; elim Hbad; reflexivity|].
    destruct (negb (continues (byte c2))) eqn:R2;
      [intros Hbad; elim Hbad; reflexivity|].
    destruct t2 as [|c3 t3]; [intros Hbad; elim Hbad; reflexivity|].
    destruct (negb (continues (byte c3))) eqn:R3;
      [intros Hbad; elim Hbad; reflexivity|].
    intros _. eexists. exists 4.
    split; [reflexivity|]. split; [lia|]. split; [reflexivity|]. split.
    + unfold continues in R2, R3.
      rewrite EncodeRune_4 by lia. now rewrite !chr_byte.
    + intros t. cbn [take append]. unfold DecodeRune.
      destruct (N.ltb_spec (byte c0) 128) as [|_]; [lia|].
      rewrite F, R1. cbn [Nat.eqb]. rewrite R2, R3. reflexivity.
Qed.

Lemma DecodeRune_take4 s : DecodeRune (take 4 s) = DecodeRune s.
Proof.
  destruct s as [|c0 [|c1 [|c2 [|c3 t]]]]; reflexivity.
Qed.

(** ** String literals: written by [appendString], read by [unquote] *)

Lemma append_assoc (a b c : string) : (a ++ b) ++ c = a ++ (b ++ c).
Proof. induction a as [|x a IH]; simpl; [reflexivity | now rewrite IH]. Qed.

Lemma length_append (a b : string) :
  String.length (a ++ b) = String.length a + String.length b.
Proof. induction a as [|x a IH]; simpl; [reflexivity | now rewrite IH]. Qed.

Lemma take_drop n s : take n s ++ drop n s = s.
Proof.
  revert s. induction n as [|n IH]; intros [|c s]; simpl; try reflexivity.
  now rewrite IH.
Qed.

Lemma drop_take_append n s t :
  String.length (take n s) = n -> drop n (take n s ++ t) = t.
Proof.
  revert s. induction n as [|n IH]; intros [|c s] H; simpl in *;
    try reflexivity; try discriminate.
  apply IH. now injection H.
Qed.

Lemma eqb_byte c d : (c =? d)%char = (byte c =? byte d)%N.
Proof.
  destruct (Ascii.eqb_spec c d) as [->|E].
  - symmetry. apply N.eqb_refl.
  - symmetry. apply N.eqb_neq. intros H. apply E.
    rewrite <- (chr_byte c), <- (chr_byte d). now rewrite H.
Qed.

(** An ASCII byte, as it is or escaped, is read back in one step. *)
Lemma unquote_ascii c :
  (byte c <? 0x80)%N = true ->
  forall fuel tail,
    unquote (S fuel)
      ((if htmlSafe (byte c) then String c "" else escape_ascii c) ++ tail) =
    emit (String c "") (unquote fuel tail).
Proof.
  destruct c as [[] [] [] [] [] [] [] []]; intros H fuel tail;
    try (vm_compute in H; discriminate H); reflexivity.
Qed.

Lemma ascii_out_length c :
  1 <= String.length (if htmlSafe (byte c) then String c "" else escape_ascii c).
Proof.
  destruct (htmlSafe (byte c)); [simpl; lia|]. unfold escape_ascii.
  repeat match goal with
         | |- context [if ?b then _ else _] => destruct b
         end; simpl; lia.
Qed.

(** A byte from 0x80 up is no quote, no backslash and no control. *)
Lemma unquote_high c0 rest fuel :
  (0x80 <= byte c0)%N ->
  unquote (S fuel) (String c0 rest) =
  let (rr, size) := DecodeRune (String c0 rest) in
  emit (EncodeRune rr) (unquote fuel (drop size (String c0 rest))).
Proof.
  intros H. cbn [unquote]. rewrite !eqb_byte.
  assert (E1 : (byte c0 =? byte dquote)%N = false)
    by (apply N.eqb_neq; vm_compute (byte dquote); lia).
  assert (E2 : (byte c0 =? byte backslash)%N = false)
    by (apply N.eqb_neq; vm_compute (byte backslash); lia).
  rewrite E1, E2.
  destruct (N.ltb_spec (byte c0) 32); [lia|].
  destruct (N.ltb_spec (byte c0) 128); [lia|]. reflexivity.
Qed.

(** The escapes of U+2028 and U+2029. *)
Lemma unquote_u202x r fuel tail :
  (r =? 0x2028)%N || (r =? 0x2029)%N = true ->
  unquote (S fuel)
    (String backslash "u202" ++ String (hex (N.land r 0xF)) "" ++ tail) =
  emit (EncodeRune r) (unquote fuel tail).
Proof.
  intros H. apply orb_true_iff in H as [H|H]; apply N.eqb_eq in H; subst r;
    reflexivity.
Qed.

Lemma emit_Some out s t res :
  res = Some (s, t) -> emit out res = Some (out ++ s, t).
Proof. intros ->. reflexivity. Qed.

Lemma ValidString_from_empty fuel : ValidString_from fuel "" = true.
Proof. destruct fuel; reflexivity. Qed.

Lemma unquote_appendString_from fuel : forall s t fuel',
  ValidString_from fuel s = true ->
  String.length (appendString_from fuel s) < fuel' ->
  unquote fuel' (appendString_from fuel s ++ String dquote t) = Some (s, t).
Proof.
  assert (Close : forall t fuel', 0 < fuel' ->
            unquote fuel' (String dquote t) = Some ("", t)).
  { intros t [|fuel'] H; [lia|]. cbn [unquote].
    now rewrite Ascii.eqb_refl. }
  induction fuel as [|fuel IH]; intros s t fuel' V L.
  - destruct s; [|discriminate V]. cbn [appendString_from append].
    apply Close. simpl in L. lia.
  - destruct s as [|c rest].
    + cbn [appendString_from append]. apply Close. simpl in L. lia.
    + cbn [ValidString_from] in V. cbn [appendString_from] in *.
      destruct (N.ltb_spec (byte c) 128) as [Hlo|Hhi].
      * rewrite length_append in L.
        assert (O := ascii_out_length c).
        destruct fuel' as [|fuel']; [lia|].
        rewrite append_assoc, unquote_ascii by (apply N.ltb_lt; exact Hlo).
        apply (emit_Some (String c "")). apply IH; [exact V | lia].
      * rewrite DecodeRune_take4 in *.
        destruct (invalid_at (String c rest)) eqn:I; [discriminate V|].
        destruct (DecodeRune_valid c rest Hhi I)
          as (r & n & D & Hn & Hlen & Henc & Hext).
        rewrite D in *. cbn [snd] in V.
        assert (N1 : (n =? 1)%nat = false) by (apply Nat.eqb_neq; lia).
        rewrite N1, andb_false_r in *.
        destruct fuel' as [|fuel']; [lia|].
        destruct ((r =? 0x2028)%N || (r =? 0x2029)%N) eqn:U.
        -- rewrite !append_assoc, unquote_u202x by exact U.
           rewrite Henc. rewrite <- (take_drop n (String c rest)) at 3.
           apply emit_Some. apply IH; [exact V|].
           rewrite !length_append in L. simpl in L. lia.
        -- rewrite append_assoc.
           assert (T : exists tl, take n (String c rest) = String c tl).
           { destruct n; [lia|]. simpl. eauto. }
           destruct T as [tl T]. rewrite T at 1. cbn [append].
           rewrite unquote_high by exact Hhi.
           change (String c (tl ++ ?x)) with (String c tl ++ x).
           rewrite <- T, Hext, drop_take_append by exact Hlen.
           rewrite Henc. rewrite <- (take_drop n (String c rest)) at 3.
           apply emit_Some. apply IH; [exact V|].
           rewrite length_append in L. rewrite T in L. simpl in L. lia.
Qed.

(** A valid string, written and read. *)
Lemma unquote_appendString s t :
  ValidString s = true ->
  exists rest,
    appendString s ++ t = String dquote rest
    /\ unquote (String.length rest) rest = Some (s, t).
Proof.
  intros V. exists (appendString_from (String.length s) s ++ String dquote t).
  split.
  - unfold appendString. cbn [append]. now rewrite append_assoc.
  - apply unquote_appendString_from; [exact V|].
    rewrite length_append. simpl. lia.
Qed.

(** ** Integers: written by [FormatInt], read by [scan_number] *)

Lemma digits_string_of_uint u t :
  digits (DecimalString.NilEmpty.string_of_uint u ++ String "010" t) =
  (DecimalString.NilEmpty.string_of_uint u, String "010" t).
Proof.
  induction u; cbn [DecimalString.NilEmpty.string_of_uint append digits isDigit];
    try (rewrite IHu); reflexivity.
Qed.

Lemma to_uint_head p :
  exists c rest,
    DecimalString.NilEmpty.string_of_uint (Pos.to_uint p) = String c rest
    /\ isDigit c = true /\ (c =? "0")%char = false.
Proof.
  assert (Hn : Decimal.unorm (Pos.to_uint p) = Pos.to_uint p).
  { rewrite <- (DecimalPos.Unsigned.to_of (Pos.to_uint p)), DecimalPos.Unsigned.of_to. reflexivity. }
  assert (Hz := DecimalPos.Unsigned.to_uint_nonzero p).
  assert (Hnil := DecimalPos.Unsigned.to_uint_nonnil p).
  destruct (Pos.to_uint p) as [|u|u|u|u|u|u|u|u|u|u] eqn:E;
    try (eexists; eexists; split; [reflexivity | split; reflexivity]).
  - now elim Hnil.
  - exfalso. rewrite DecimalFacts.unorm_D0 in Hn.
    assert (Hu : u = Decimal.Nil \/ u <> Decimal.Nil) by (destruct u; auto; right; discriminate).
    destruct Hu as [->|Hu]; [now elim Hz|].
    assert (L := DecimalFacts.nb_digits_unorm u Hu). rewrite Hn in L. simpl in L. lia.
Qed.

Lemma decimal_to_uint p :
  decimal (DecimalString.NilEmpty.string_of_uint (Pos.to_uint p)) = Z.pos p.
Proof.
  unfold decimal. rewrite DecimalString.NilEmpty.usu. unfold Z.of_uint.
  now rewrite DecimalPos.Unsigned.of_to.
Qed.

Lemma scan_unsigned_to_uint negative p t :
  scan_unsigned negative
    (DecimalString.NilEmpty.string_of_uint (Pos.to_uint p) ++ String "010" t) =
  Some (JInt (if negative then Z.neg p else Z.pos p), String "010" t).
Proof.
  destruct (to_uint_head p) as (c & rest & E & Hd & Hz).
  assert (D := digits_string_of_uint (Pos.to_uint p) t).
  assert (V := decimal_to_uint p).
  revert D V. rewrite E. cbn [append]. intros D V.
  unfold scan_unsigned. rewrite Hd, Hz. cbn [negb]. rewrite D.
  cbn [scan_frac next_is Ascii.eqb Bool.eqb scan_exp orb].
  cbn [String.eqb andb]. rewrite V. now destruct negative.
Qed.

Lemma scan_number_FormatInt z t :
  scan_number (FormatInt z ++ String "010" t) = Some (JInt z, String "010" t).
Proof.
  unfold FormatInt. destruct z as [|p|p]; cbn [Z.to_int DecimalString.NilEmpty.string_of_int].
  - reflexivity.
  - destruct (to_uint_head p) as (c & rest & E & Hd & Hz).
    unfold scan_number.
    assert (M : next_is "-" (DecimalString.NilEmpty.string_of_uint (Pos.to_uint p)
                             ++ String "010" t) = None).
    { rewrite E. cbn [append next_is].
      destruct (Ascii.eqb_spec c "-") as [->|]; [discriminate Hd | reflexivity]. }
    rewrite M. apply (scan_unsigned_to_uint false).
  - unfold scan_number. cbn [append next_is]. cbn [Ascii.eqb Bool.eqb].
    apply (scan_unsigned_to_uint true).
Qed.

(** ** The file: written by [MarshalIndent], read by [Unmarshal] *)

Lemma concat_tail sep xs t : concat sep xs ++ t = join_tail sep xs t.
Proof.
  induction xs as [|x [|y xs] IH]; try reflexivity.
  change (concat sep (x :: y :: xs)) with (x ++ sep ++ concat sep (y :: xs)).
  rewrite !append_assoc, IH. reflexivity.
Qed.

Lemma scan_string_appendString s t :
  ValidString s = true -> scan_string (appendString s ++ t) = Some (s, t).
Proof.
  intros V. destruct (unquote_appendString s t V) as (rest & E & U).
  rewrite E. unfold scan_string. cbn [next_is]. now rewrite Ascii.eqb_refl.
Qed.

Lemma appendString_head s t :
  exists rest, appendString s ++ t = String dquote rest.
Proof. unfold appendString. cbn [append]. eauto. Qed.

Lemma skip_space_newline d x : skip_space (newline d ++ x) = skip_space x.
Proof.
  unfold newline. cbn [append skip_space isSpace Ascii.eqb Bool.eqb orb].
  induction (2 * d) as [|n IH]; [reflexivity|]. cbn. exact IH.
Qed.

Lemma skip_space_appendString s t :
  skip_space (appendString s ++ t) = appendString s ++ t.
Proof. destruct (appendString_head s t) as [rest ->]. reflexivity. Qed.

Lemma skip_space_idem s : skip_space (skip_space s) = skip_space s.
Proof.
  induction s as [|c s IH]; [reflexivity|]. cbn [skip_space].
  destruct (isSpace c) eqn:E; [exact IH|]. cbn [skip_space]. now rewrite E.
Qed.

Lemma scan_value_skip fuel s : scan_value fuel (skip_space s) = scan_value fuel s.
Proof. destruct fuel; [reflexivity|]. cbn [scan_value]. now rewrite skip_space_idem. Qed.

(** A string and an integer as the value of a member. *)
Lemma scan_value_string fuel s t :
  ValidString s = true ->
  scan_value (S fuel) (String " " (appendString s ++ t)) = Some (JString s, t).
Proof.
  intros V. cbn [scan_value skip_space isSpace Ascii.eqb Bool.eqb orb].
  rewrite skip_space_appendString.
  destruct (appendString_head s t) as [rest E].
  rewrite E. cbn [Ascii.eqb Bool.eqb dquote]. rewrite <- E.
  now rewrite scan_string_appendString.
Qed.

Lemma FormatInt_head z x :
  exists c rest,
    FormatInt z ++ x = String c rest
    /\ (isDigit c = true \/ c = "-"%char).
Proof.
  unfold FormatInt.
  destruct z as [|p|p];
    cbn [Z.to_int DecimalString.NilEmpty.string_of_int].
  - eexists. eexists. split; [reflexivity | now left].
  - destruct (to_uint_head p) as (c & rest & -> & Hd & _).
    eexists. eexists. split; [reflexivity | now left].
  - eexists. eexists. split; [reflexivity | now right].
Qed.

(** A digit or a minus sign starts nothing but a number. *)
Lemma number_head c :
  isDigit c = true \/ c = "-"%char ->
  isSpace c = false
  /\ (c =? "{")%char = false /\ (c =? "[")%char = false
  /\ (c =? dquote)%char = false /\ (c =? "n")%char = false
  /\ (c =? "t")%char = false /\ (c =? "f")%char = false.
Proof.
  intros [H | ->]; [|repeat split; reflexivity].
  destruct c as [[] [] [] [] [] [] [] []]; try discriminate H;
    repeat split; reflexivity.
Qed.

Lemma scan_value_int fuel z t :
  scan_value (S fuel) (String " " (FormatInt z ++ String "010" t)) =
  Some (JInt z, String "010" t).
Proof.
  cbn [scan_value skip_space isSpace Ascii.eqb Bool.eqb orb].
  destruct (FormatInt_head z (String "010" t)) as (c & rest & E & H).
  destruct (number_head c H) as (Hs & H1 & H2 & H3 & H4 & H5 & H6).
  rewrite E. cbn [skip_space]. rewrite Hs, H1, H2, H3, H4, H5, H6.
  rewrite <- E. apply scan_number_FormatInt.
Qed.

(** A member followed by another, and the last member of an object at
    depth 1. *)
Lemma scan_members_more fuel key v vtext more acc :
  ValidString key = true ->
  (forall t, scan_value fuel (String " " (vtext ++ String "," t)) =
             Some (v, String "," t)) ->
  skip_space more = more ->
  scan_members (S fuel)
    (appendString key
     ++ String ":" (String " " (vtext ++ String "," (newline 2 ++ more)))) acc =
  scan_members fuel more ((key, v) :: acc).
Proof.
  intros V H M. cbn [scan_members]. rewrite scan_string_appendString by exact V.
  cbn [skip_space isSpace Ascii.eqb Bool.eqb orb next_is]. rewrite H.
  cbn [skip_space isSpace Ascii.eqb Bool.eqb orb next_is].
  now rewrite skip_space_newline, M.
Qed.

Lemma scan_members_last fuel key v vtext t acc :
  ValidString key = true ->
  (forall t, scan_value fuel (String " " (vtext ++ String "010" t)) =
             Some (v, String "010" t)) ->
  scan_members (S fuel)
    (appendString key
     ++ String ":" (String " " (vtext ++ newline 1 ++ String "}" t))) acc =
  Some (JObject (rev ((key, v) :: acc)), t).
Proof.
  intros V H. cbn [scan_members]. rewrite scan_string_appendString by exact V.
  cbn [skip_space isSpace Ascii.eqb Bool.eqb orb next_is].
  change (newline 1 ++ String "}" t)
    with (String "010" (String " " (String " " (String "}" t)))).
  rewrite H. reflexivity.
Qed.

Lemma next_is_appendString c s t :
  c <> dquote -> next_is c (appendString s ++ t) = None.
Proof.
  intros H. destruct (appendString_head s t) as [rest ->]. cbn [next_is].
  destruct (Ascii.eqb_spec dquote c); [congruence | reflexivity].
Qed.

(** The text of a record, at depth 1, with what follows it. *)
Lemma record_text r t :
  indent_value 1 (of_URLRecord r) ++ t =
  String "{"
    (newline 2
     ++ appendString "short_code"
     ++ String ":" (String " " (appendString (ShortCode r) ++ String ","
       (newline 2
     ++ appendString "long_url"
     ++ String ":" (String " " (appendString (LongURL r) ++ String ","
       (newline 2
     ++ appendString "created_at"
     ++ String ":" (String " " (appendString (CreatedAt r) ++ String ","
       (newline 2
     ++ appendString "usage_count"
     ++ String ":" (String " " (FormatInt (UsageCount r)
     ++ newline 1 ++ String "}" t)))))))))))).
Proof.
  unfold of_URLRecord. cbn [indent_value map fst snd].
  rewrite !append_assoc, concat_tail. cbn [join_tail].
  rewrite !append_assoc. reflexivity.
Qed.

Lemma scan_value_record fuel r t :
  text_record r = true ->
  scan_value (S (S (S (S (S (S fuel)))))) (indent_value 1 (of_URLRecord r) ++ t) =
  Some (of_URLRecord r, t).
Proof.
  unfold text_record. intros W.
  apply andb_prop in W as [W Wn]. apply andb_prop in W as [W W3].
  apply andb_prop in W as [W1 W2].
  rewrite record_text.
  cbn [scan_value skip_space isSpace Ascii.eqb Bool.eqb orb].
  rewrite skip_space_newline, skip_space_appendString.
  rewrite next_is_appendString by discriminate.
  rewrite (scan_members_more _ "short_code" (JString (ShortCode r))
             (appendString (ShortCode r)));
    [| reflexivity | intros; now apply scan_value_string
     | apply skip_space_appendString].
  rewrite (scan_members_more _ "long_url" (JString (LongURL r))
             (appendString (LongURL r)));
    [| reflexivity | intros; now apply scan_value_string
     | apply skip_space_appendString].
  rewrite (scan_members_more _ "created_at" (JString (CreatedAt r))
             (appendString (CreatedAt r)));
    [| reflexivity | intros; now apply scan_value_string
     | apply skip_space_appendString].
  rewrite (scan_members_last _ "usage_count" (JInt (UsageCount r))
             (FormatInt (UsageCount r)));
    [| reflexivity | intros; apply scan_value_int].
  reflexivity.
Qed.

Lemma records_text_one r t :
  records_text [r] t = indent_value 1 (of_URLRecord r) ++ t.
Proof. reflexivity. Qed.

Lemma records_text_more r r' rs t :
  records_text (r :: r' :: rs) t =
  indent_value 1 (of_URLRecord r)
  ++ String "," (newline 1 ++ records_text (r' :: rs) t).
Proof. reflexivity. Qed.

Lemma scan_elements_skip fuel d x acc :
  scan_elements fuel (newline d ++ x) acc = scan_elements fuel x acc.
Proof.
  destruct fuel; [reflexivity|]. cbn [scan_elements].
  rewrite <- (scan_value_skip fuel (newline d ++ x)), skip_space_newline.
  now rewrite scan_value_skip.
Qed.

Lemma scan_elements_records : forall rs acc fuel t,
  rs <> [] -> Forall (fun r => text_record r = true) rs ->
  scan_elements (List.length rs + 6 + fuel)
    (records_text rs (newline 0 ++ String "]" t)) acc =
  Some (JArray (rev acc ++ map of_URLRecord rs), t).
Proof.
  induction rs as [|r [|r' rs] IH]; intros acc fuel t Hne W.
  - now elim Hne.
  - inversion W as [|? ? Wr _]; subst. rewrite records_text_one.
    change (List.length [r] + 6 + fuel) with (S (S (S (S (S (S (S fuel))))))).
    cbn [scan_elements].
    rewrite scan_value_record by exact Wr. reflexivity.
  - inversion W as [|? ? Wr W']; subst. rewrite records_text_more.
    change (List.length (r :: r' :: rs) + 6 + fuel)
      with (S (List.length (r' :: rs) + 6 + fuel)).
    cbn [scan_elements].
    replace (List.length (r' :: rs) + 6 + fuel)
      with (S (S (S (S (S (S (List.length (r' :: rs) + fuel))))))) at 1 by lia.
    rewrite scan_value_record by exact Wr.
    replace (S (S (S (S (S (S (List.length (r' :: rs) + fuel)))))))
      with (List.length (r' :: rs) + 6 + fuel) by lia.
    cbn [skip_space isSpace Ascii.eqb Bool.eqb orb next_is].
    rewrite scan_elements_skip.
    rewrite IH by (discriminate || exact W').
    cbn [rev map]. now rewrite <- app_assoc.
Qed.

Lemma records_text_length rs t :
  2 * List.length rs + String.length t <= String.length (records_text rs t).
Proof.
  assert (Two : forall r x, 2 + String.length x
                            <= String.length (indent_value 1 (of_URLRecord r) ++ x)).
  { intros r x. rewrite record_text.
    repeat (rewrite length_append || cbn [String.length]). lia. }
  induction rs as [|r [|r' rs] IH].
  - unfold records_text. simpl. lia.
  - rewrite records_text_one. specialize (Two r t).
    change (List.length [r]) with 1. lia.
  - rewrite records_text_more.
    specialize (Two r (String "," (newline 1 ++ records_text (r' :: rs) t))).
    cbn [String.length] in Two. rewrite length_append in Two.
    cbn [List.length] in *. lia.
Qed.

Lemma into_elems_of rs :
  Forall (fun r => text_record r = true) rs ->
  into_elems (map of_URLRecord rs) = Some rs.
Proof.
  induction 1 as [|r rs W _ IH]; [reflexivity|].
  cbn [map into_elems]. rewrite IH, into_of_URLRecord; [reflexivity|].
  unfold text_record in W. now apply andb_prop in W as [_ W].
Qed.

Lemma records_text_head rs t :
  rs <> [] -> exists rest, records_text rs t = String "{" rest.
Proof.
  destruct rs as [|r [|r' rs]]; intros H; [now elim H| |].
  - rewrite records_text_one, record_text. eauto.
  - rewrite records_text_more, record_text. eauto.
Qed.

Lemma MarshalIndent_text r rs :
  MarshalIndent (r :: rs) =
  String "[" (newline 1 ++ records_text (r :: rs) (newline 0 ++ String "]" "")).
Proof.
  unfold MarshalIndent, of_urls. cbn [map indent_value].
  rewrite concat_tail. reflexivity.
Qed.

Lemma Unmarshal_MarshalIndent rs :
  Forall (fun r => text_record r = true) rs ->
  Unmarshal (MarshalIndent rs) = Some rs.
Proof.
  intros W. destruct rs as [|r rs]; [reflexivity|].
  unfold Unmarshal, scan. rewrite MarshalIndent_text.
  set (records := r :: rs) in *.
  assert (L := records_text_length records (newline 0 ++ String "]" "")).
  assert (Hn : 1 <= List.length records) by (unfold records; simpl; lia).
  assert (Hne : records <> []) by discriminate.
  destruct (records_text_head records (newline 0 ++ String "]" "") Hne)
    as [rest E].
  cbn [String.length]. rewrite length_append.
  remember (String.length (records_text records (newline 0 ++ String "]" "")))
    as len eqn:El.
  cbn [String.length newline append Nat.mul Nat.add spaces] in L |- *.
  assert (F : exists fuel, len = List.length records + 3 + fuel)
    by (exists (len - (List.length records + 3)); lia).
  destruct F as [fuel ->].
  replace (S (S (S (S (List.length records + 3 + fuel)))))
    with (S (List.length records + 6 + fuel)) by lia.
  cbn [scan_value skip_space isSpace Ascii.eqb Bool.eqb orb].
  change (String "010" "]") with (newline 0 ++ String "]" "") in *.
  rewrite E. cbn [skip_space isSpace Ascii.eqb Bool.eqb orb next_is].
  rewrite <- E. rewrite scan_elements_records by assumption.
  cbn [skip_space rev app into_urls]. now apply into_elems_of.
Qed.

End JSONText.

(** ** The body of the list: written by [Encode], read by [Unmarshal] *)

Module JSONCompact.

Import JSON JSONText.

Lemma digits_before_brace u t :
  digits (DecimalString.NilEmpty.string_of_uint u ++ String "}" t) =
  (DecimalString.NilEmpty.string_of_uint u, String "}" t).
Proof.
  induction u; cbn [DecimalString.NilEmpty.string_of_uint append digits isDigit];
    try (rewrite IHu); reflexivity.
Qed.

Lemma scan_unsigned_before_brace negative p t :
  scan_unsigned negative
    (DecimalString.NilEmpty.string_of_uint (Pos.to_uint p) ++ String "}" t) =
  Some (JInt (if negative then Z.neg p else Z.pos p), String "}" t).
Proof.
  destruct (to_uint_head p) as (c & rest & E & Hd & Hz).
  assert (D := digits_before_brace (Pos.to_uint p) t).
  assert (V := decimal_to_uint p).
  revert D V. rewrite E. cbn [append]. intros D V.
  unfold scan_unsigned. rewrite Hd, Hz. cbn [negb]. rewrite D.
  cbn [scan_frac next_is Ascii.eqb Bool.eqb scan_exp orb].
  cbn [String.eqb andb]. rewrite V. now destruct negative.
Qed.

Lemma scan_number_before_brace z t :
  scan_number (FormatInt z ++ String "}" t) = Some (JInt z, String "}" t).
Proof.
  unfold FormatInt.
  destruct z as [|p|p]; cbn [Z.to_int DecimalString.NilEmpty.string_of_int].
  - reflexivity.
  - destruct (to_uint_head p) as (c & rest & E & Hd & Hz).
    unfold scan_number.
    assert (M : next_is "-" (DecimalString.NilEmpty.string_of_uint (Pos.to_uint p)
                             ++ String "}" t) = None).
    { rewrite E. cbn [append next_is].
      destruct (Ascii.eqb_spec c "-") as [->|]; [discriminate Hd | reflexivity]. }
    rewrite M. apply (scan_unsigned_before_brace false).
  - unfold scan_number. cbn [append next_is]. cbn [Ascii.eqb Bool.eqb].
    apply (scan_unsigned_before_brace true).
Qed.

(** A string and an integer right after the colon of their member. *)
Lemma scan_compact_string fuel s t :
  ValidString s = true ->
  scan_value (S fuel) (appendString s ++ t) = Some (JString s, t).
Proof.
  intros V. cbn [scan_value]. rewrite skip_space_appendString.
  destruct (appendString_head s t) as [rest E].
  rewrite E. cbn [Ascii.eqb Bool.eqb dquote]. rewrite <- E.
  now rewrite scan_string_appendString.
Qed.

Lemma scan_compact_int fuel z t :
  scan_value (S fuel) (FormatInt z ++ String "}" t) =
  Some (JInt z, String "}" t).
Proof.
  cbn [scan_value].
  destruct (FormatInt_head z (String "}" t)) as (c & rest & E & H).
  destruct (number_head c H) as (Hs & H1 & H2 & H3 & H4 & H5 & H6).
  rewrite E. cbn [skip_space]. rewrite Hs, H1, H2, H3, H4, H5, H6.
  rewrite <- E. apply scan_number_before_brace.
Qed.

Lemma scan_compact_member fuel key v vtext more acc :
  ValidString key = true ->
  (forall t, scan_value fuel (vtext ++ String "," t) = Some (v, String "," t)) ->
  skip_space more = more ->
  scan_members (S fuel)
    (appendString key ++ String ":" (vtext ++ String "," more)) acc =
  scan_members fuel more ((key, v) :: acc).
Proof.
  intros V H M. cbn [scan_members]. rewrite scan_string_appendString by exact V.
  cbn [skip_space isSpace Ascii.eqb Bool.eqb orb next_is]. rewrite H.
  cbn [skip_space isSpace Ascii.eqb Bool.eqb orb next_is].
  now rewrite M.
Qed.

Lemma scan_compact_last fuel key v vtext t acc :
  ValidString key = true ->
  (forall t, scan_value fuel (vtext ++ String "}" t) = Some (v, String "}" t)) ->
  scan_members (S fuel)
    (appendString key ++ String ":" (vtext ++ String "}" t)) acc =
  Some (JObject (rev ((key, v) :: acc)), t).
Proof.
  intros V H. cbn [scan_members]. rewrite scan_string_appendString by exact V.
  cbn [skip_space isSpace Ascii.eqb Bool.eqb orb next_is].
  rewrite H. reflexivity.
Qed.

(** The text of a record with what follows it. *)
Lemma compact_record_text r t :
  compact_record r ++ t =
  String "{"
    (appendString "short_code"
     ++ String ":" (appendString (ShortCode r) ++ String ","
    (appendString "long_url"
     ++ String ":" (appendString (LongURL r) ++ String ","
    (appendString "created_at"
     ++ String ":" (appendString (CreatedAt r) ++ String ","
    (appendString "usage_count"
     ++ String ":" (FormatInt (UsageCount r) ++ String "}" t)))))))).
Proof.
  unfold compact_record. rewrite !append_assoc. reflexivity.
Qed.

Lemma scan_compact_record fuel r t :
  text_record r = true ->
  scan_value (S (S (S (S (S (S fuel)))))) (compact_record r ++ t) =
  Some (of_URLRecord r, t).
Proof.
  unfold text_record. intros W.
  apply andb_prop in W as [W Wn]. apply andb_prop in W as [W W3].
  apply andb_prop in W as [W1 W2].
  rewrite compact_record_text.
  cbn [scan_value skip_space isSpace Ascii.eqb Bool.eqb orb].
  rewrite skip_space_appendString.
  rewrite next_is_appendString by discriminate.
  rewrite (scan_compact_member _ "short_code" (JString (ShortCode r))
             (appendString (ShortCode r)));
    [| reflexivity | intros; now apply scan_compact_string
     | apply skip_space_appendString].
  rewrite (scan_compact_member _ "long_url" (JString (LongURL r))
             (appendString (LongURL r)));
    [| reflexivity | intros; now apply scan_compact_string
     | apply skip_space_appendString].
  rewrite (scan_compact_member _ "created_at" (JString (CreatedAt r))
             (appendString (CreatedAt r)));
    [| reflexivity | intros; now apply scan_compact_string
     | apply skip_space_appendString].
  rewrite (scan_compact_last _ "usage_count" (JInt (UsageCount r))
             (FormatInt (UsageCount r)));
    [| reflexivity | intros; apply scan_compact_int].
  reflexivity.
Qed.

Lemma body_records_one r t : body_records [r] t = compact_record r ++ t.
Proof. reflexivity. Qed.

Lemma body_records_more r r' rs t :
  body_records (r :: r' :: rs) t =
  compact_record r ++ String "," (body_records (r' :: rs) t).
Proof. reflexivity. Qed.

Lemma scan_compact_records : forall rs acc fuel t,
  rs <> [] -> Forall (fun r => text_record r = true) rs ->
  scan_elements (List.length rs + 6 + fuel) (body_records rs (String "]" t)) acc =
  Some (JArray (rev acc ++ map of_URLRecord rs), t).
Proof.
  induction rs as [|r [|r' rs] IH]; intros acc fuel t Hne W.
  - now elim Hne.
  - inversion W as [|? ? Wr _]; subst. rewrite body_records_one.
    change (List.length [r] + 6 + fuel) with (S (S (S (S (S (S (S fuel))))))).
    cbn [scan_elements].
    rewrite scan_compact_record by exact Wr. reflexivity.
  - inversion W as [|? ? Wr W']; subst. rewrite body_records_more.
    change (List.length (r :: r' :: rs) + 6 + fuel)
      with (S (List.length (r' :: rs) + 6 + fuel)).
    cbn [scan_elements].
    replace (List.length (r' :: rs) + 6 + fuel)
      with (S (S (S (S (S (S (List.length (r' :: rs) + fuel))))))) at 1 by lia.
    rewrite scan_compact_record by exact Wr.
    replace (S (S (S (S (S (S (List.length (r' :: rs) + fuel)))))))
      with (List.length (r' :: rs) + 6 + fuel) by lia.
    cbn [skip_space isSpace Ascii.eqb Bool.eqb orb next_is].
    rewrite IH by (discriminate || exact W').
    cbn [rev map]. now rewrite <- app_assoc.
Qed.

Lemma body_records_length rs t :
  7 * List.length rs + String.length t <= String.length (body_records rs t).
Proof.
  assert (Seven : forall r x, 8 + String.length x
                              <= String.length (compact_record r ++ x)).
  { intros r x. rewrite compact_record_text.
    repeat (rewrite length_append || cbn [String.length]). lia. }
  induction rs as [|r [|r' rs] IH].
  - unfold body_records. simpl. lia.
  - rewrite body_records_one. specialize (Seven r t).
    change (List.length [r]) with 1. lia.
  - rewrite body_records_more.
    specialize (Seven r (String "," (body_records (r' :: rs) t))).
    cbn [String.length] in Seven.
    cbn [List.length] in *. lia.
Qed.

Lemma body_records_head rs t :
  rs <> [] -> exists rest, body_records rs t = String "{" rest.
Proof.
  destruct rs as [|r [|r' rs]]; intros H; [now elim H| |].
  - rewrite body_records_one, compact_record_text. eauto.
  - rewrite body_records_more, compact_record_text. eauto.
Qed.

Lemma list_body_text rs :
  list_body rs = String "[" (body_records rs (String "]" (String "010" ""))).
Proof.
  unfold list_body, body_records. cbn [append]. now rewrite concat_tail.
Qed.

Lemma Unmarshal_list_body rs :
  Forall (fun r => text_record r = true) rs ->
  Unmarshal (list_body rs) = Some rs.
Proof.
  intros W. destruct rs as [|r rs]; [reflexivity|].
  unfold Unmarshal, scan. rewrite list_body_text.
  set (rs' := r :: rs) in *.
  assert (L := body_records_length rs' (String "]" (String "010" ""))).
  assert (Hn : 1 <= List.length rs') by (unfold rs'; simpl; lia).
  assert (Hne : rs' <> []) by discriminate.
  destruct (body_records_head rs' (String "]" (String "010" "")) Hne) as [rest E].
  cbn [String.length] in L |- *.
  remember (String.length (body_records rs' (String "]" (String "010" ""))))
    as len eqn:El.
  assert (F : exists fuel, len = List.length rs' + 6 + fuel)
    by (exists (len - (List.length rs' + 6)); lia).
  destruct F as [fuel ->].
  cbn [scan_value skip_space isSpace Ascii.eqb Bool.eqb orb].
  rewrite E. cbn [skip_space isSpace Ascii.eqb Bool.eqb orb next_is].
  rewrite <- E. rewrite scan_compact_records by assumption.
  cbn [skip_space isSpace Ascii.eqb Bool.eqb orb rev app into_urls].
  now apply into_elems_of.
Qed.

End JSONCompact.

(** C6 (amended). Saving a collection whose strings are valid UTF-8 and
    loading what was saved gives the collection back: the same records
    with the same codes, URLs, counts and creation times, in the same
    order.  (The counts are Go integers.) *)
Theorem persistence_round_trip urls :
  Forall (fun r => text_record r = true) urls ->
  JSON.Unmarshal (JSON.MarshalIndent urls) = Some urls
  /\ (forall env data, saveURLs env urls = Some data ->
                       init (Some data) = Some urls).
Proof.
  intros W. split; [now apply JSONText.Unmarshal_MarshalIndent|].
  intros env data S. unfold saveURLs in S.
  destruct (WriteFile_fails env); [discriminate|]. injection S as <-.
  now apply JSONText.Unmarshal_MarshalIndent.
Qed.

(** ** What the decoder gives is valid UTF-8 *)

Module JSONValid.

Import JSON.
Import JSONText.

Lemma byte_chr x : (x < 256)%N -> byte (chr x) = x.
Proof. apply N_ascii_embedding. Qed.

Lemma byte_lt c : (byte c < 256)%N.
Proof. apply N_ascii_bounded. Qed.

(** The fuel of [ValidString_from]: more does not hurt, and the length of
    the string is enough. *)
Lemma ValidString_from_more fuel : forall s fuel',
  ValidString_from fuel s = true -> fuel <= fuel' ->
  ValidString_from fuel' s = true.
Proof.
  induction fuel as [|fuel IH]; intros s fuel' V L.
  - destruct s; [apply ValidString_from_empty | discriminate V].
  - destruct s as [|c rest]; [apply ValidString_from_empty|].
    destruct fuel' as [|fuel']; [lia|]. cbn [ValidString_from] in *.
    destruct (byte c <? 128)%N; [apply IH; [exact V | lia]|].
    destruct (invalid_at (String c rest)); [discriminate V|].
    apply IH; [exact V | lia].
Qed.

Lemma drop_length n : forall s, String.length (drop n s) <= String.length s.
Proof.
  induction n as [|n IH]; intros [|c s]; simpl; try lia.
  specialize (IH s). lia.
Qed.

Lemma DecodeRune_size_pos c rest : 1 <= snd (DecodeRune (String c rest)).
Proof.
  unfold DecodeRune.
  repeat match goal with
         | |- context [if ?b then _ else _] => destruct b
         | |- context [match ?x with _ => _ end] => destruct x
         end; cbn [snd]; lia.
Qed.

Lemma ValidString_from_length fuel : forall s,
  ValidString_from fuel s = true -> ValidString s = true.
Proof.
  unfold ValidString. induction fuel as [|fuel IH]; intros s V.
  - destruct s; [reflexivity | discriminate V].
  - destruct s as [|c rest]; [reflexivity|].
    cbn [ValidString_from String.length] in *.
    destruct (byte c <? 128)%N; [now apply IH|].
    destruct (invalid_at (String c rest)); [discriminate V|].
    apply IH in V. apply (ValidString_from_more _ _ _ V).
    assert (P := DecodeRune_size_pos c rest).
    destruct (snd (DecodeRune (String c rest))) as [|n]; [lia|].
    cbn [drop]. apply drop_length.
Qed.

Lemma Valid_ascii c s :
  (byte c < 128)%N -> ValidString s = true -> ValidString (String c s) = true.
Proof.
  intros H V. unfold ValidString. cbn [String.length ValidString_from].
  destruct (N.ltb_spec (byte c) 128); [exact V | lia].
Qed.

(** A sequence of two to four bytes in the ranges of the table is taken
    whole by [DecodeRune]. *)
Ltac compare_all :=
  repeat (match goal with
          | |- context [(?a <? ?b)%N] => destruct (N.ltb_spec a b)
          | |- context [(?a <=? ?b)%N] => destruct (N.leb_spec a b)
          | |- context [(?a =? ?b)%N] => destruct (N.eqb_spec a b)
          end; cbn [orb andb negb Nat.eqb]; try lia).

Lemma DecodeRune_size2 c0 c1 t :
  (0xC2 <= byte c0 <= 0xDF)%N -> (0x80 <= byte c1 <= 0xBF)%N ->
  snd (DecodeRune (String c0 (String c1 t))) = 2.
Proof.
  intros H0 H1. unfold DecodeRune, first. compare_all; reflexivity.
Qed.

Lemma DecodeRune_size3 c0 c1 c2 t :
  (0xE0 <= byte c0 <= 0xEF)%N -> (0x80 <= byte c1 <= 0xBF)%N ->
  (0x80 <= byte c2 <= 0xBF)%N ->
  (byte c0 = 0xE0 -> 0xA0 <= byte c1)%N -> (byte c0 = 0xED -> byte c1 <= 0x9F)%N ->
  snd (DecodeRune (String c0 (String c1 (String c2 t)))) = 3.
Proof.
  intros H0 H1 H2 HE0 HED. unfold DecodeRune, first, continues.
  compare_all; reflexivity.
Qed.

Lemma DecodeRune_size4 c0 c1 c2 c3 t :
  (0xF0 <= byte c0 <= 0xF4)%N -> (0x80 <= byte c1 <= 0xBF)%N ->
  (0x80 <= byte c2 <= 0xBF)%N -> (0x80 <= byte c3 <= 0xBF)%N ->
  (byte c0 = 0xF0 -> 0x90 <= byte c1)%N -> (byte c0 = 0xF4 -> byte c1 <= 0x8F)%N ->
  snd (DecodeRune (String c0 (String c1 (String c2 (String c3 t))))) = 4.
Proof.
  intros H0 H1 H2 H3 HF0 HF4. unfold DecodeRune, first, continues.
  compare_all; reflexivity.
Qed.

Lemma drop_append a t : drop (String.length a) (a ++ t) = t.
Proof. induction a as [|c a IH]; [now destruct t | exact IH]. Qed.

Lemma Valid_sequence c0 tl t :
  (128 <= byte c0)%N ->
  snd (DecodeRune (String c0 tl ++ t)) = String.length (String c0 tl) ->
  1 <= String.length tl ->
  ValidString t = true -> ValidString (String c0 tl ++ t) = true.
Proof.
  intros Hhi Hsize Hlen V.
  apply (ValidString_from_length (S (String.length t))).
  cbn [append ValidString_from String.length] in *.
  destruct (N.ltb_spec (byte c0) 128); [lia|].
  unfold invalid_at.
  destruct (DecodeRune (String c0 (tl ++ t))) as [r n]. cbn [snd] in *.
  subst n.
  replace (S (String.length tl) =? 1)%nat with false
    by (symmetry; apply Nat.eqb_neq; lia).
  rewrite andb_false_r. cbn [drop]. now rewrite drop_append.
Qed.

(** Whatever the rune, its encoding is valid UTF-8: a rune that has no
    encoding is written as U+FFFD. *)
Section Encoding.
Local Open Scope N_scope.

Lemma shiftr_12_div r : N.shiftr r 12 = r / 4096.
Proof. exact (N.shiftr_div_pow2 r 12). Qed.

Lemma shiftr_18_div r : N.shiftr r 18 = r / 262144.
Proof. exact (N.shiftr_div_pow2 r 18). Qed.

Lemma Valid_EncodeRune r t :
  ValidString t = true -> ValidString (EncodeRune r ++ t) = true.
Proof.
  intros V. unfold EncodeRune.
  destruct (N.leb_spec r 0x7F) as [H1|H1].
  { apply Valid_ascii; [rewrite byte_chr; lia | exact V]. }
  destruct (N.leb_spec r 0x7FF) as [H2|H2].
  { rewrite high6, low6, mark_C0, mark_80 by div_lia.
    apply Valid_sequence; [rewrite byte_chr; div_lia | | simpl; lia | exact V].
    cbn [append]. apply DecodeRune_size2; rewrite byte_chr; div_lia. }
  destruct ((0x10FFFF <? r) || ((0xD800 <=? r) && (r <=? 0xDFFF))) eqn:S.
  { apply Valid_sequence; [vm_compute; discriminate | | simpl; lia | exact V].
    reflexivity. }
  assert (Hr : r <= 0x10FFFF /\ (r < 0xD800 \/ 0xDFFF < r)) by lia.
  destruct (N.leb_spec r 0xFFFF) as [H3|H3].
  { rewrite shiftr_12_div, high6, !low6.
    rewrite mark_E0, !mark_80 by div_lia.
    apply Valid_sequence; [rewrite byte_chr; div_lia | | simpl; lia | exact V].
    cbn [append]. apply DecodeRune_size3; rewrite ?byte_chr; div_lia. }
  rewrite shiftr_18_div, shiftr_12_div, high6, !low6.
  rewrite mark_F0, !mark_80 by div_lia.
  apply Valid_sequence; [rewrite byte_chr; div_lia | | simpl; lia | exact V].
  cbn [append]. apply DecodeRune_size4; rewrite ?byte_chr; div_lia.
Qed.

End Encoding.

Lemma emit_valid x res out rest :
  emit x res = Some (out, rest) ->
  (forall t, ValidString t = true -> ValidString (x ++ t) = true) ->
  (forall o r, res = Some (o, r) -> ValidString o = true) ->
  ValidString out = true.
Proof.
  destruct res as [[o r]|]; simpl; intros H Hx Hres; [|discriminate].
  injection H as <- _. apply Hx. now apply (Hres o r).
Qed.

Lemma Valid_char c :
  (byte c <? 128)%N = true ->
  forall t, ValidString t = true -> ValidString (String c "" ++ t) = true.
Proof. intros H t V. apply Valid_ascii; [now apply N.ltb_lt | exact V]. Qed.

(** The string that a literal denotes is valid UTF-8, whatever bytes
    the literal has. *)
Lemma unquote_valid fuel : forall s out rest,
  unquote fuel s = Some (out, rest) -> ValidString out = true.
Proof.
  induction fuel as [|fuel IH]; intros s out rest H; [discriminate H|].
  destruct s as [|c s]; [discriminate H|]. cbn [unquote] in H.
  repeat match type of H with
         | (if ?b then _ else _) = _ => destruct b eqn:?
         | match ?x with _ => _ end = _ => destruct x eqn:?
         | (let (_, _) := ?x in _) = _ => destruct x eqn:?
         end;
    try discriminate H;
    try (injection H as <- _; reflexivity);
    (eapply emit_valid; [exact H | | intros o r E; eapply IH; exact E]);
    try (intros t; apply Valid_EncodeRune);
    try (apply Valid_char; assumption);
    try (apply Valid_char; reflexivity).
  apply Valid_char.
  repeat (apply orb_true_iff in Heqb1 as [Heqb1|Heqb1]);
    apply Ascii.eqb_eq in Heqb1; subst a; reflexivity.
Qed.

(** So are the strings of a scanned value. *)
Lemma scan_string_valid s str rest :
  scan_string s = Some (str, rest) -> ValidString str = true.
Proof.
  unfold scan_string. destruct (next_is dquote s); [|discriminate].
  apply unquote_valid.
Qed.

Lemma forallb_rev {A} (f : A -> bool) l : forallb f (rev l) = forallb f l.
Proof.
  induction l as [|x l IH]; [reflexivity|]. cbn [rev forallb].
  rewrite forallb_app, IH. cbn [forallb]. rewrite andb_true_r. apply andb_comm.
Qed.

Lemma scan_number_valid s v rest :
  scan_number s = Some (v, rest) -> strings_valid v = true.
Proof.
  unfold scan_number, scan_unsigned. intros H.
  repeat match type of H with
         | (if ?b then _ else _) = _ => destruct b
         | match ?x with _ => _ end = _ => destruct x
         | (let (_, _) := ?x in _) = _ => destruct x
         end;
    try discriminate H; injection H as <- _; reflexivity.
Qed.

Lemma strings_valid_array elems :
  strings_valid (JArray elems) = forallb strings_valid elems.
Proof. reflexivity. Qed.

Lemma strings_valid_object members :
  strings_valid (JObject members) =
  forallb (fun m => strings_valid (snd m)) members.
Proof. reflexivity. Qed.

Lemma scan_valid fuel :
  (forall s v rest, scan_value fuel s = Some (v, rest) -> strings_valid v = true)
  /\ (forall s acc v rest,
        scan_elements fuel s acc = Some (v, rest) ->
        forallb strings_valid acc = true -> strings_valid v = true)
  /\ (forall s acc v rest,
        scan_members fuel s acc = Some (v, rest) ->
        forallb (fun m => strings_valid (snd m)) acc = true ->
        strings_valid v = true).
Proof.
  induction fuel as [|fuel (IHv & IHe & IHm)];
    [split; [|split]; intros; discriminate|].
  split; [|split].
  - intros s v rest H. cbn [scan_value] in H.
    destruct (skip_space s) as [|c s'] eqn:Es; [discriminate H|].
    destruct (c =? "{")%char.
    { destruct (next_is "}" (skip_space s')).
      - injection H as <- _. reflexivity.
      - now apply IHm in H. }
    destruct (c =? "[")%char.
    { destruct (next_is "]" (skip_space s')).
      - injection H as <- _. reflexivity.
      - now apply IHe in H. }
    destruct (c =? dquote)%char.
    { destruct (scan_string (String c s')) as [[str r]|] eqn:S; [|discriminate H].
      injection H as <- _. now apply scan_string_valid in S. }
    destruct (c =? "n")%char.
    { destruct (strip "null" (String c s')); [|discriminate H].
      injection H as <- _. reflexivity. }
    destruct (c =? "t")%char.
    { destruct (strip "true" (String c s')); [|discriminate H].
      injection H as <- _. reflexivity. }
    destruct (c =? "f")%char.
    { destruct (strip "false" (String c s')); [|discriminate H].
      injection H as <- _. reflexivity. }
    now apply scan_number_valid in H.
  - intros s acc v rest H Hacc. cbn [scan_elements] in H.
    destruct (scan_value fuel s) as [[e r]|] eqn:S; [|discriminate H].
    apply IHv in S.
    destruct (next_is "," (skip_space r)).
    + apply IHe in H; [exact H|]. cbn [forallb]. now rewrite S.
    + destruct (next_is "]" (skip_space r)); [|discriminate H].
      injection H as <- _.
      rewrite strings_valid_array, forallb_app, forallb_rev.
      cbn [forallb]. now rewrite Hacc, S.
  - intros s acc v rest H Hacc. cbn [scan_members] in H.
    destruct (scan_string s) as [[key r1]|]; [|discriminate H].
    destruct (next_is ":" (skip_space r1)) as [r2|]; [|discriminate H].
    destruct (scan_value fuel r2) as [[e r3]|] eqn:S; [|discriminate H].
    apply IHv in S.
    destruct (next_is "," (skip_space r3)).
    + apply IHm in H; [exact H|]. cbn [forallb snd]. now rewrite S.
    + destruct (next_is "}" (skip_space r3)); [|discriminate H].
      injection H as <- _.
      rewrite strings_valid_object, forallb_app, forallb_rev.
      cbn [forallb snd]. now rewrite Hacc, S.
Qed.

(** And so are the fields that the values are decoded into. *)
Lemma into_string_valid v old s :
  strings_valid v = true -> ValidString old = true ->
  into_string v old = Some s -> ValidString s = true.
Proof.
  destruct v; intros Hv Ho H; try discriminate H; injection H as <-; assumption.
Qed.

Lemma into_reqBody_members_valid : forall ms URL out,
  forallb (fun m => strings_valid (snd m)) ms = true ->
  ValidString URL = true ->
  into_reqBody_members URL ms = Some out -> ValidString out = true.
Proof.
  induction ms as [|[key v] ms IH]; intros URL out Hms HU H.
  - injection H as <-. exact HU.
  - cbn [forallb snd] in Hms. apply andb_prop in Hms as [Hv Hms].
    cbn [into_reqBody_members] in H. destruct (names key "url").
    + destruct (into_string v URL) as [URL'|] eqn:E; [|discriminate H].
      apply (IH URL'); try assumption.
      now apply (into_string_valid v URL).
    + now apply (IH URL).
Qed.

Lemma Decode_reqBody_valid body URL :
  Decode_reqBody body = Some URL -> ValidString URL = true.
Proof.
  unfold Decode_reqBody.
  destruct (scan_value (String.length body) body) as [[v rest]|] eqn:S;
    [|discriminate].
  apply (proj1 (scan_valid _)) in S.
  destruct v; try discriminate.
  - intros H. now injection H as <-.
  - now apply into_reqBody_members_valid.
Qed.

Lemma text_record_fields r :
  text_record r = true <->
  ValidString (ShortCode r) = true /\ ValidString (LongURL r) = true
  /\ ValidString (CreatedAt r) = true /\ in_int (UsageCount r) = true.
Proof.
  unfold text_record. rewrite !andb_true_iff. tauto.
Qed.

Lemma into_URLRecord_member_text r m r' :
  text_record r = true -> strings_valid (snd m) = true ->
  into_URLRecord_member r m = Some r' -> text_record r' = true.
Proof.
  intros Hr Hv. apply text_record_fields in Hr as (H1 & H2 & H3 & H4).
  destruct m as [key v]. cbn [snd] in Hv. unfold into_URLRecord_member.
  destruct (names key "short_code").
  { destruct (into_string v (ShortCode r)) as [s|] eqn:E; [|discriminate].
    intros H. injection H as <-. apply text_record_fields.
    cbn [ShortCode LongURL CreatedAt UsageCount].
    repeat split; try assumption. now apply (into_string_valid v (ShortCode r)). }
  destruct (names key "long_url").
  { destruct (into_string v (LongURL r)) as [s|] eqn:E; [|discriminate].
    intros H. injection H as <-. apply text_record_fields.
    cbn [ShortCode LongURL CreatedAt UsageCount].
    repeat split; try assumption. now apply (into_string_valid v (LongURL r)). }
  destruct (names key "created_at").
  { destruct (into_string v (CreatedAt r)) as [s|] eqn:E; [|discriminate].
    intros H. injection H as <-. apply text_record_fields.
    cbn [ShortCode LongURL CreatedAt UsageCount].
    repeat split; try assumption. now apply (into_string_valid v (CreatedAt r)). }
  destruct (names key "usage_count").
  { destruct (into_int v (UsageCount r)) as [z|] eqn:E; [|discriminate].
    intros H. injection H as <-. apply text_record_fields.
    cbn [ShortCode LongURL CreatedAt UsageCount].
    repeat split; try assumption.
    destruct v; try discriminate E; cbn [into_int] in E.
    - now injection E as <-.
    - destruct (in_int z0) eqn:I; [|discriminate E]. now injection E as <-. }
  intros H. injection H as <-. apply text_record_fields. auto.
Qed.

Lemma into_URLRecord_members_text : forall ms r r',
  text_record r = true ->
  forallb (fun m => strings_valid (snd m)) ms = true ->
  into_URLRecord_members r ms = Some r' -> text_record r' = true.
Proof.
  induction ms as [|m ms IH]; intros r r' Hr Hms H.
  - now injection H as <-.
  - cbn [forallb] in Hms. apply andb_prop in Hms as [Hv Hms].
    cbn [into_URLRecord_members] in H.
    destruct (into_URLRecord_member r m) as [r1|] eqn:E; [|discriminate H].
    apply (IH r1); try assumption.
    now apply (into_URLRecord_member_text r m).
Qed.

Lemma into_elems_text : forall vs rs,
  forallb strings_valid vs = true ->
  into_elems vs = Some rs -> Forall (fun r => text_record r = true) rs.
Proof.
  induction vs as [|v vs IH]; intros rs Hvs H.
  - injection H as <-. constructor.
  - cbn [forallb] in Hvs. apply andb_prop in Hvs as [Hv Hvs].
    cbn [into_elems] in H.
    destruct (into_URLRecord v) as [r|] eqn:E; [|discriminate H].
    destruct (into_elems vs) as [rs'|]; [|discriminate H].
    injection H as <-. constructor; [|now apply IH].
    destruct v; try discriminate E; cbn [into_URLRecord] in E.
    + now injection E as <-.
    + now apply (into_URLRecord_members_text members zeroURLRecord).
Qed.

Lemma Unmarshal_text data urls :
  Unmarshal data = Some urls -> Forall (fun r => text_record r = true) urls.
Proof.
  unfold Unmarshal, scan.
  destruct (scan_value (String.length data) data) as [[v rest]|] eqn:S;
    [|discriminate].
  apply (proj1 (scan_valid _)) in S.
  destruct (skip_space rest); [|discriminate].
  destruct v; try discriminate; cbn [into_urls].
  - intros H. injection H as <-. constructor.
  - now apply into_elems_text.
Qed.

(** The time of creation is written in ASCII. *)
Lemma Valid_zeros n t :
  ValidString t = true -> ValidString (Time.zeros n ++ t) = true.
Proof.
  intros V. induction n as [|n IH]; [exact V|].
  cbn [Time.zeros append]. apply Valid_ascii; [reflexivity | exact IH].
Qed.

Lemma Valid_decimal x t :
  ValidString t = true -> ValidString (Time.decimal x ++ t) = true.
Proof.
  intros V. unfold Time.decimal.
  induction (Nat.to_uint x) as [|u IH|u IH|u IH|u IH|u IH|u IH|u IH|u IH|u IH|u IH];
    cbn [DecimalString.NilEmpty.string_of_uint append];
    [exact V | apply Valid_ascii; [reflexivity | exact IH] ..].
Qed.

Lemma Valid_appendInt x width t :
  ValidString t = true -> ValidString (Time.appendInt x width ++ t) = true.
Proof.
  intros V. unfold Time.appendInt. rewrite append_assoc.
  now apply Valid_zeros, Valid_decimal.
Qed.

Lemma Format_RFC3339_valid now : ValidString (Time.Format_RFC3339 now) = true.
Proof.
  unfold Time.Format_RFC3339.
  repeat (apply Valid_appendInt; cbn [append];
          apply Valid_ascii; [reflexivity|]).
  reflexivity.
Qed.

End JSONValid.

(** ** The client and the service *)

Module Client.

Import JSON.
Import JSONText.

Lemma unquote_quote_byte c :
  (byte c <? 0x80)%N = true ->
  forall fuel tail,
    unquote (S fuel) (quote_byte c ++ tail) =
    emit (String c "") (unquote fuel tail).
Proof.
  destruct c as [[] [] [] [] [] [] [] []]; intros H fuel tail;
    try (vm_compute in H; discriminate H); reflexivity.
Qed.

Lemma quote_byte_length c : 1 <= String.length (quote_byte c).
Proof.
  unfold quote_byte.
  repeat match goal with
         | |- context [if ?b then _ else _] => destruct b
         end; simpl; lia.
Qed.

Lemma quote_byte_high c : (0x80 <= byte c)%N -> quote_byte c = String c "".
Proof.
  intros H. unfold quote_byte.
  repeat match goal with
         | |- context [(?a =? ?b)%N] => destruct (N.eqb_spec a b); [lia|]
         | |- context [(?a <? ?b)%N] => destruct (N.ltb_spec a b); [lia|]
         end; cbn [orb]. reflexivity.
Qed.

Lemma quote_bytes_append a b :
  quote_bytes (a ++ b) = quote_bytes a ++ quote_bytes b.
Proof.
  induction a as [|c a IH]; [reflexivity|].
  cbn [append quote_bytes]. now rewrite IH, append_assoc.
Qed.

(** The bytes of a sequence of two bytes or more are all from 0x80 up,
    and are copied. *)
Section Copied.
Local Open Scope N_scope.

Lemma quote_chr x t :
  0x80 <= x < 256 -> quote_bytes (String (chr x) t) = String (chr x) (quote_bytes t).
Proof.
  intros H. cbn [quote_bytes]. rewrite quote_byte_high; [reflexivity|].
  rewrite JSONValid.byte_chr; lia.
Qed.

Lemma quote_EncodeRune r :
  0x7F < r -> quote_bytes (EncodeRune r) = EncodeRune r.
Proof.
  intros Hr. unfold EncodeRune.
  destruct (N.leb_spec r 0x7F) as [H1|H1]; [lia|].
  destruct (N.leb_spec r 0x7FF) as [H2|H2].
  { rewrite high6, low6, mark_C0, mark_80 by div_lia.
    now rewrite !quote_chr by div_lia. }
  destruct ((0x10FFFF <? r) || ((0xD800 <=? r) && (r <=? 0xDFFF))) eqn:S;
    [reflexivity|].
  assert (Hr' : r <= 0x10FFFF /\ (r < 0xD800 \/ 0xDFFF < r)) by lia.
  destruct (N.leb_spec r 0xFFFF) as [H3|H3].
  { rewrite JSONValid.shiftr_12_div, high6, !low6.
    rewrite mark_E0, !mark_80 by div_lia.
    now rewrite !quote_chr by div_lia. }
  rewrite JSONValid.shiftr_18_div, JSONValid.shiftr_12_div, high6, !low6.
  rewrite mark_F0, !mark_80 by div_lia.
  now rewrite !quote_chr by div_lia.
Qed.

End Copied.

Lemma quote_sequence c0 t0 r n :
  DecodeRune (String c0 t0) = (r, n) -> 2 <= n ->
  String.length (take n (String c0 t0)) = n ->
  EncodeRune r = take n (String c0 t0) ->
  quote_bytes (take n (String c0 t0)) = take n (String c0 t0).
Proof.
  intros D Hn Hlen Henc. rewrite <- Henc. apply quote_EncodeRune.
  destruct (N.ltb_spec 0x7F r) as [H|H]; [exact H|].
  exfalso. unfold EncodeRune in Henc.
  destruct (N.leb_spec r 0x7F); [|lia].
  rewrite <- Henc in Hlen. simpl in Hlen. lia.
Qed.

Lemma unquote_quote_bytes fuel : forall s t fuel',
  ValidString_from fuel s = true ->
  String.length (quote_bytes s) < fuel' ->
  unquote fuel' (quote_bytes s ++ String dquote t) = Some (s, t).
Proof.
  assert (Close : forall t fuel', 0 < fuel' ->
            unquote fuel' (String dquote t) = Some ("", t)).
  { intros t [|fuel'] H; [lia|]. cbn [unquote].
    now rewrite Ascii.eqb_refl. }
  induction fuel as [|fuel IH]; intros s t fuel' V L.
  - destruct s; [|discriminate V]. cbn [quote_bytes append].
    apply Close. simpl in L. lia.
  - destruct s as [|c rest].
    + cbn [quote_bytes append]. apply Close. simpl in L. lia.
    + cbn [ValidString_from] in V.
      destruct (N.ltb_spec (byte c) 128) as [Hlo|Hhi].
      * cbn [quote_bytes] in *. rewrite length_append in L.
        assert (O := quote_byte_length c).
        destruct fuel' as [|fuel']; [lia|].
        rewrite append_assoc, unquote_quote_byte by (apply N.ltb_lt; exact Hlo).
        apply (emit_Some (String c "")). apply IH; [exact V | lia].
      * destruct (invalid_at (String c rest)) eqn:I; [discriminate V|].
        destruct (DecodeRune_valid c rest Hhi I)
          as (r & n & D & Hn & Hlen & Henc & Hext).
        rewrite D in V. cbn [snd] in V.
        rewrite <- (take_drop n (String c rest)) in L |- * at 1.
        rewrite quote_bytes_append in *.
        rewrite (quote_sequence c rest r n D Hn Hlen Henc) in *.
        rewrite length_append, Hlen in L.
        destruct fuel' as [|fuel']; [lia|].
        assert (T : exists tl, take n (String c rest) = String c tl).
        { destruct n; [lia|]. simpl. eauto. }
        destruct T as [tl T]. rewrite append_assoc. rewrite T at 1.
        cbn [append]. rewrite unquote_high by exact Hhi.
        change (String c (tl ++ ?x)) with (String c tl ++ x).
        rewrite <- T, Hext, drop_take_append by exact Hlen.
        rewrite Henc. rewrite <- (take_drop n (String c rest)) at 3.
        apply emit_Some. apply IH; [exact V | lia].
Qed.

Lemma scan_string_quoted s t :
  ValidString s = true -> scan_string (QuoteJSONString s ++ t) = Some (s, t).
Proof.
  intros V. unfold QuoteJSONString, scan_string. cbn [append next_is].
  rewrite Ascii.eqb_refl, append_assoc. cbn [append].
  apply (unquote_quote_bytes (String.length s)); [exact V|].
  rewrite length_append. simpl. lia.
Qed.

Lemma scan_value_quoted fuel s t :
  ValidString s = true ->
  scan_value (S fuel) (QuoteJSONString s ++ t) = Some (JString s, t).
Proof.
  intros V. cbn [scan_value].
  assert (E : exists rest, QuoteJSONString s ++ t = String dquote rest)
    by (unfold QuoteJSONString; cbn [append]; eauto).
  destruct E as [rest E]. rewrite E.
  cbn [skip_space isSpace Ascii.eqb Bool.eqb orb dquote].
  rewrite <- E. now rewrite scan_string_quoted.
Qed.

Lemma Decode_stringify longUrl :
  ValidString longUrl = true ->
  Decode_reqBody (stringify_url longUrl) = Some longUrl.
Proof.
  intros V. unfold Decode_reqBody.
  assert (E : stringify_url longUrl =
              String "{" (QuoteJSONString "url"
                          ++ String ":" (QuoteJSONString longUrl ++ "}")))
    by reflexivity.
  rewrite E. cbn [String.length]. rewrite length_append.
  assert (L1 : 2 <= String.length (QuoteJSONString "url")) by (vm_compute; lia).
  assert (L2 : 1 <= String.length (String ":" (QuoteJSONString longUrl ++ "}")))
    by (cbn [String.length]; lia).
  remember (String.length (QuoteJSONString "url")
            + String.length (String ":" (QuoteJSONString longUrl ++ "}")))
    as n eqn:En.
  destruct n as [|[|fuel]]; [lia | lia |]. clear En L1 L2.
  cbn [scan_value skip_space isSpace Ascii.eqb Bool.eqb orb].
  assert (H : exists rest, QuoteJSONString "url" ++ String ":" (QuoteJSONString longUrl ++ "}")
                           = String dquote rest)
    by (unfold QuoteJSONString; cbn [append]; eauto).
  destruct H as [rest H]. rewrite H.
  cbn [skip_space isSpace Ascii.eqb Bool.eqb orb next_is dquote].
  rewrite <- H. cbn [scan_members].
  rewrite scan_string_quoted by reflexivity.
  cbn [skip_space isSpace Ascii.eqb Bool.eqb orb next_is].
  rewrite scan_value_quoted by exact V.
  cbn [skip_space isSpace Ascii.eqb Bool.eqb orb next_is rev app].
  reflexivity.
Qed.

End Client.

(** * Further properties of the service *)

Section Further.

Variable ParseRequestURI : string -> bool.

(** ** The generator: which pair the loop returns *)

Lemma free_at_advance rnd urls k :
  free_at (advance 2 rnd) urls k <-> free_at rnd urls (S k).
Proof.
  unfold free_at.
  rewrite (draw_code_ext (advance (2 * k) (advance 2 rnd))
             (advance (2 * S k) rnd)); [tauto|].
  intros i. rewrite advance_advance. unfold advance. f_equal. lia.
Qed.

Lemma free_at_0 rnd urls :
  free_at rnd urls 0 <-> isUnique (draw_code rnd) urls = true.
Proof.
  unfold free_at. now rewrite (draw_code_ext (advance (2 * 0) rnd) rnd).
Qed.

Lemma generate_first fuel : forall rnd urls code rnd',
  generate fuel rnd urls = Some (code, rnd') ->
  exists k, k < fuel /\ free_at rnd urls k
            /\ (forall j, j < k -> ~ free_at rnd urls j)
            /\ code = draw_code (advance (2 * k) rnd)
            /\ forall i, rnd' i = rnd (2 * S k + i).
Proof.
  induction fuel as [|fuel IH]; intros rnd urls code rnd' H; simpl in H.
  - discriminate.
  - destruct (isUnique (draw_code rnd) urls) eqn:E.
    + injection H as <- <-. exists 0. split; [lia|].
      split; [now apply free_at_0|]. split; [intros j Hj; lia|].
      split; [now apply draw_code_ext | reflexivity].
    + apply IH in H as (k & Hk & Hfree & Hfirst & -> & Hrnd).
      exists (S k). split; [lia|]. split; [now apply free_at_advance|].
      split; [|split].
      * intros [|j] Hj.
        -- rewrite free_at_0. congruence.
        -- rewrite <- free_at_advance. apply Hfirst. lia.
      * apply draw_code_ext. intros i. rewrite advance_advance.
        unfold advance. f_equal. lia.
      * intros i. rewrite Hrnd. unfold advance. f_equal. lia.
Qed.

Lemma generate_S fuel rnd urls :
  generate (S fuel) rnd urls =
  if isUnique (draw_code rnd) urls
  then Some (draw_code rnd, advance 2 rnd)
  else generate fuel (advance 2 rnd) urls.
Proof. reflexivity. Qed.

Lemma generate_at_first : forall k rnd urls,
  free_at rnd urls k -> (forall j, j < k -> ~ free_at rnd urls j) ->
  forall fuel, k < fuel ->
  exists rnd', generate fuel rnd urls =
               Some (draw_code (advance (2 * k) rnd), rnd').
Proof.
  induction k as [|k IH]; intros rnd urls Hfree Hfirst fuel Hk;
    (destruct fuel as [|fuel]; [lia|]); rewrite generate_S.
  - rewrite (draw_code_ext (advance (2 * 0) rnd) rnd) by reflexivity.
    apply (proj1 (free_at_0 _ _)) in Hfree. rewrite Hfree. eauto.
  - assert (E : isUnique (draw_code rnd) urls = false).
    { destruct (isUnique (draw_code rnd) urls) eqn:E; [|reflexivity].
      elim (Hfirst 0); [lia | now apply free_at_0]. }
    rewrite E.
    destruct (IH (advance 2 rnd) urls) with (fuel := fuel) as [rnd' G].
    + now apply free_at_advance.
    + intros j Hj. rewrite free_at_advance. apply Hfirst. lia.
    + lia.
    + exists rnd'. rewrite G. do 2 f_equal. apply draw_code_ext.
      intros i. rewrite advance_advance. unfold advance. f_equal. lia.
Qed.

(** X1. The loop returns the first free pair that the source draws, two
    draws a round, and leaves the source after the draws of that round. *)
Theorem generate_first_free rnd urls :
  (forall fuel code rnd',
     generate fuel rnd urls = Some (code, rnd') ->
     exists k, k < fuel /\ free_at rnd urls k
               /\ (forall j, j < k -> ~ free_at rnd urls j)
               /\ code = draw_code (advance (2 * k) rnd)
               /\ forall i, rnd' i = rnd (2 * S k + i))
  /\ (forall k,
        free_at rnd urls k -> (forall j, j < k -> ~ free_at rnd urls j) ->
        forall fuel, k < fuel ->
        exists rnd', generate fuel rnd urls =
                     Some (draw_code (advance (2 * k) rnd), rnd'))
  /\ (forall fuel,
        (forall k, k < fuel -> ~ free_at rnd urls k) ->
        generate fuel rnd urls = None).
Proof.
  split; [|split].
  - intros fuel. apply generate_first.
  - intros k. now apply generate_at_first.
  - intros fuel. apply generate_None_until.
Qed.

(** ** The store is append-only *)

Lemma same_but_count_refl r : same_but_count r r.
Proof. repeat split. Qed.

Lemma same_but_count_trans r1 r2 r3 :
  same_but_count r1 r2 -> same_but_count r2 r3 -> same_but_count r1 r3.
Proof. unfold same_but_count. intuition congruence. Qed.

Lemma same_but_count_all urls : Forall2 same_but_count urls urls.
Proof. induction urls; constructor; [apply same_but_count_refl | assumption]. Qed.

Lemma Forall2_same_trans : forall l1 l2 l3,
  Forall2 same_but_count l1 l2 -> Forall2 same_but_count l2 l3 ->
  Forall2 same_but_count l1 l3.
Proof.
  intros l1 l2 l3 H. revert l3.
  induction H as [|x y l l' Hxy _ IH]; intros l3 H'; inversion H'; subst;
    constructor; [eapply same_but_count_trans; eassumption | now apply IH].
Qed.

Lemma rootHandler_keeps static fuel env r urls resp urls' :
  rootHandler ParseRequestURI static fuel env r urls = Some (resp, urls') ->
  exists kept added,
    urls' = (kept ++ added)%list /\ Forall2 same_but_count urls kept
    /\ List.length added <= 1.
Proof.
  assert (Same : exists kept added,
             urls = (kept ++ added)%list /\ Forall2 same_but_count urls kept
             /\ List.length added <= 1).
  { exists urls, []. rewrite app_nil_r.
    split; [reflexivity|]. split; [apply same_but_count_all | simpl; lia]. }
  unfold rootHandler. intros H.
  destruct (prefix "/api/urls" (Path r)).
  - destruct (Method r =? MethodGet)%string.
    + unfold getURLsHandler in H.
      destruct (Encode_fails env); injection H as _ <-; exact Same.
    + destruct (Method r =? MethodPost)%string.
      * apply createURLHandler_codes in H
          as [[-> _] | (record & -> & _)]; [exact Same|].
        exists urls, [record]. split; [reflexivity|].
        split; [apply same_but_count_all | simpl; lia].
      * injection H as _ <-. exact Same.
  - destruct (negb (TrimPrefix_slash (Path r) =? "")%string).
    + destruct (find_and_count (TrimPrefix_slash (Path r)) urls)
        as [[targetURL urls1]|] eqn:F.
      * apply (find_and_count_spec ParseRequestURI) in F
          as (before & record & after & -> & _ & _ & _ & ->).
        exists (before ++ increment record :: after)%list, [].
        rewrite app_nil_r.
        assert (Forall2 same_but_count (before ++ record :: after)
                  (before ++ increment record :: after)).
        { apply Forall2_app; [apply same_but_count_all|].
          constructor; [repeat split | apply same_but_count_all]. }
        destruct (saveURLs env _); injection H as _ <-;
          (split; [reflexivity|]; split; [assumption | simpl; lia]).
      * injection H as _ <-. exact Same.
    + injection H as _ <-. exact Same.
Qed.

(** X2. No request removes, moves or rewrites a record.  The store a
    request leaves is the store it found, record by record with the same
    code, long URL and creation time, followed by at most one new record;
    and so every store the service passes through begins with the records it
    started from. *)
Theorem store_append_only static :
  (forall fuel env r urls resp urls',
     rootHandler ParseRequestURI static fuel env r urls = Some (resp, urls') ->
     exists kept added,
       urls' = (kept ++ added)%list /\ Forall2 same_but_count urls kept
       /\ List.length added <= 1)
  /\ (forall urls0 urls,
        reachable ParseRequestURI static urls0 urls ->
        exists kept added,
          urls = (kept ++ added)%list /\ Forall2 same_but_count urls0 kept).
Proof.
  split; [apply rootHandler_keeps|].
  intros urls0 urls H.
  induction H as [|urls env r resp urls' _ (kept & added & -> & IH) [fuel Hs]].
  - exists urls0, []. rewrite app_nil_r. split; [reflexivity|].
    apply same_but_count_all.
  - apply rootHandler_keeps in Hs as (kept' & added' & -> & Hk & _).
    apply Forall2_app_inv_l in Hk as (k1 & k2 & Hk1 & _ & ->).
    exists k1, (k2 ++ added')%list. rewrite app_assoc. split; [reflexivity|].
    eapply Forall2_same_trans; eassumption.
Qed.

(** ** The capacity of a store that started empty *)

(** X3. A store that the service has built from the empty store holds at
    most 2,500 records, each under a generated code.  Once it holds 2,500,
    a create call with a valid body never returns: its loop finds no pair. *)
Theorem fresh_store_capacity static urls :
  reachable ParseRequestURI static [] urls ->
  List.length urls <= 2500
  /\ Forall (fun r => matches_code_pattern (ShortCode r) = true) urls
  /\ (List.length urls = 2500 ->
      forall env r URL,
        passes_validation ParseRequestURI r URL ->
        forall fuel, createURLHandler ParseRequestURI fuel env r urls = None).
Proof.
  intros H.
  assert (Hnd : NoDup (codes urls))
    by (apply (reachable_NoDup ParseRequestURI static [] urls); [constructor | exact H]).
  assert (Hincl : incl (codes urls) all_codes)
    by (intros code; apply (reachable_generated ParseRequestURI static urls H)).
  assert (Hlen : List.length (codes urls) = List.length urls)
    by (unfold codes; apply length_map).
  split; [|split].
  - rewrite <- Hlen, <- all_codes_length. now apply NoDup_incl_length.
  - apply Forall_forall. intros r Hin. apply all_codes_pattern, Hincl.
    unfold codes. now apply in_map.
  - intros Hfull env r URL (D & E & V) fuel.
    assert (Hcov : covers urls).
    { intros code Hin. revert code Hin.
      apply (NoDup_length_incl Hnd); [|exact Hincl].
      rewrite Hlen, Hfull, all_codes_length. lia. }
    apply saturated_true in Hcov.
    unfold createURLHandler. rewrite D.
    destruct (String.eqb_spec URL ""); [contradiction|].
    rewrite V. cbn [negb]. now rewrite generate_saturated.
Qed.

(** ** What the stored records are *)

Lemma in_int_wrap_int z : in_int (wrap_int z) = true.
Proof.
  unfold in_int. destruct (wrap_int_range z) as [Hlo Hhi].
  apply andb_true_intro. split; now apply Z.leb_le.
Qed.

Lemma rootHandler_validated static fuel env r urls resp urls' :
  Forall (validated_record ParseRequestURI) urls ->
  rootHandler ParseRequestURI static fuel env r urls = Some (resp, urls') ->
  Forall (validated_record ParseRequestURI) urls'.
Proof.
  intros Hv. unfold rootHandler. intros H.
  destruct (prefix "/api/urls" (Path r)).
  - destruct (Method r =? MethodGet)%string.
    + unfold getURLsHandler in H.
      destruct (Encode_fails env); injection H as _ <-; exact Hv.
    + destruct (Method r =? MethodPost)%string.
      * apply createURLHandler_cases in H
          as [(message & _ & -> & _) | (URL & code & rnd' & _ & E & V & _ & -> & _)];
          [exact Hv|].
        apply Forall_app. split; [exact Hv|]. constructor; [|constructor].
        unfold validated_record, created. cbn [LongURL CreatedAt UsageCount].
        repeat split; try assumption. eauto.
      * injection H as _ <-. exact Hv.
  - destruct (negb (TrimPrefix_slash (Path r) =? "")%string).
    + destruct (find_and_count (TrimPrefix_slash (Path r)) urls)
        as [[targetURL urls1]|] eqn:F.
      * apply (find_and_count_spec ParseRequestURI) in F
          as (before & record & after & -> & _ & _ & _ & ->).
        apply Forall_app in Hv as [Hb Hr]. inversion Hr as [|? ? Hrec Ha]; subst.
        assert (Forall (validated_record ParseRequestURI)
                  (before ++ increment record :: after)).
        { apply Forall_app. split; [exact Hb|]. constructor; [|exact Ha].
          destruct Hrec as (E & V & T & _). unfold validated_record, increment.
          cbn [LongURL CreatedAt UsageCount].
          repeat split; try assumption. apply in_int_wrap_int. }
        destruct (saveURLs env _); injection H as _ <-; assumption.
      * injection H as _ <-. exact Hv.
    + injection H as _ <-. exact Hv.
Qed.

(** X4. Every record of the store has gone through the validation of the
    create call, from the empty store on and from any store of such records:
    its long URL is not empty and is accepted by the request-URI parser, its
    creation time is a time in the RFC 3339 layout, and its count is a Go
    integer.  The target of a redirect is such a URL. *)
Theorem stored_urls_validated static :
  (forall urls0 urls,
     Forall (validated_record ParseRequestURI) urls0 ->
     reachable ParseRequestURI static urls0 urls ->
     Forall (validated_record ParseRequestURI) urls)
  /\ (forall urls,
        reachable ParseRequestURI static [] urls ->
        Forall (validated_record ParseRequestURI) urls)
  /\ (forall urls fuel env r resp urls',
        Forall (validated_record ParseRequestURI) urls ->
        names_record r urls ->
        WriteFile_fails env = false ->
        rootHandler ParseRequestURI static fuel env r urls = Some (resp, urls') ->
        exists target,
          resp = RedirectResponse target StatusFound
          /\ target <> "" /\ ParseRequestURI target = true).
Proof.
  assert (Inv : forall urls0 urls,
             Forall (validated_record ParseRequestURI) urls0 ->
             reachable ParseRequestURI static urls0 urls ->
             Forall (validated_record ParseRequestURI) urls).
  { intros urls0 urls H0.
    induction 1 as [|urls env r resp urls' _ IH [fuel Hs]]; [exact H0|].
    eapply rootHandler_validated; eassumption. }
  split; [exact Inv|]. split; [intros urls; apply Inv; constructor|].
  intros urls fuel env r resp urls' Hv Hn W H.
  destruct (rootHandler_redirect ParseRequestURI static fuel env r urls Hn)
    as (before & record & after & -> & _ & _ & H').
  rewrite H' in H. injection H as <- _.
  apply Forall_app in Hv as [_ Hr]. inversion Hr as [|? ? (E & V & _) _]; subst.
  exists (LongURL record). unfold redirect_response. rewrite W. auto.
Qed.

(** ** From the create call to the short link *)

Lemma all_codes_outside_api code :
  In code all_codes -> prefix "/api/urls" (short_link_path code) = false.
Proof.
  assert (H : forallb (fun c => negb (prefix "/api/urls" (short_link_path c)))
                all_codes = true) by (vm_compute; reflexivity).
  rewrite forallb_forall in H. intros Hin. apply negb_true_iff. now apply H.
Qed.

Lemma find_and_count_last code record : forall urls,
  ~ In code (codes urls) -> ShortCode record = code ->
  find_and_count code (urls ++ [record]) =
  Some (LongURL record, (urls ++ [increment record])%list).
Proof.
  intros urls Hfree Hc. induction urls as [|r rest IH]; simpl.
  - rewrite Hc, String.eqb_refl. reflexivity.
  - destruct (String.eqb_spec (ShortCode r) code) as [E|E].
    + elim Hfree. now left.
    + rewrite IH; [reflexivity|]. intros H. apply Hfree. now right.
Qed.

(** X5. When a create call answers 201 with a code, the link that the client
    builds from the code is served from then on, whatever the method and the
    static handler: the request for it counts the new record and answers 302
    with the submitted url (500 when the write fails). *)
Theorem create_then_redirect fuel env r urls code urls' :
  createURLHandler ParseRequestURI fuel env r urls =
    Some (JSONResponse StatusCreated (JSON.object1 "short_code" code), urls') ->
  exists URL,
    JSON.Decode_reqBody (Body r) = Some URL
    /\ urls' = (urls ++ [created env URL code])%list
    /\ increment (created env URL code) =
       mkURLRecord code URL (Time.Format_RFC3339 (now env)) 1
    /\ forall static fuel' env' method body,
         rootHandler ParseRequestURI static fuel' env'
           (mkRequest method (short_link_path code) body) urls' =
         Some (if WriteFile_fails env'
               then writeJSONError "Failed to update URL data"
                      StatusInternalServerError
               else RedirectResponse URL StatusFound,
               (urls ++ [increment (created env URL code)])%list).
Proof.
  intros H. apply createURLHandler_cases in H
    as [(message & Hresp & _) | (URL & code' & rnd' & D & _ & _ & G & -> & Hresp)];
    [discriminate Hresp|].
  destruct (WriteFile_fails env); [discriminate Hresp|].
  injection Hresp as <-.
  apply generate_sound in G as [Hin Hfree].
  exists URL. split; [exact D|]. split; [reflexivity|].
  split; [reflexivity|].
  intros static fuel' env' method body. unfold rootHandler. cbn [Path].
  rewrite (all_codes_outside_api _ Hin).
  change (TrimPrefix_slash (short_link_path code)) with code.
  destruct (String.eqb_spec code "") as [E|E];
    [subst; now elim all_codes_nonempty|].
  cbn [negb]. rewrite find_and_count_last by (assumption || reflexivity).
  unfold saveURLs. now destruct (WriteFile_fails env').
Qed.

(** ** What the client shows *)

(** X14. For the POST that [handleSubmit] sends, the page shows either the
    short link of the record that the call has appended, which is the origin
    followed by the path of its short link, or the error message of the
    server, one of four; the fallback message of the client is never shown. *)
Theorem submit_shows_answer static fuel env body urls resp urls' origin :
  rootHandler ParseRequestURI static fuel env
    (mkRequest MethodPost "/api/urls" body) urls = Some (resp, urls') ->
  (exists URL code,
     urls' = (urls ++ [created env URL code])%list
     /\ handleSubmit origin resp =
        Some (setShortUrl (origin ++ short_link_path code)))
  \/ (exists message,
        handleSubmit origin resp = Some (setError message)
        /\ In message [ "Invalid request body"; "URL is required";
                        "Invalid URL format"; "Failed to save URL record" ]).
Proof.
  intros H. rewrite rootHandler_api in H by reflexivity.
  cbn [Method] in H. change (MethodPost =? MethodGet)%string with false in H.
  change (MethodPost =? MethodPost)%string with true in H. cbv iota in H.
  unfold createURLHandler in H.
  destruct (JSON.Decode_reqBody _) as [URL|].
  - destruct (URL =? "")%string.
    { injection H as <- _. right. eexists. split; [reflexivity|]. simpl. tauto. }
    destruct (ParseRequestURI URL); cbn [negb] in H.
    + destruct (generate fuel (rand env) urls) as [[code rnd']|];
        [|discriminate H].
      destruct (saveURLs env _); injection H as <- <-.
      * left. exists URL, code. split; reflexivity.
      * right. eexists. split; [reflexivity|]. simpl. tauto.
    + injection H as <- _. right. eexists. split; [reflexivity|]. simpl. tauto.
  - injection H as <- _. right. eexists. split; [reflexivity|]. simpl. tauto.
Qed.

(** ** Counting under interleaving *)

Lemma find_and_count_count_of shortCode code : forall urls targetURL urls',
  find_and_count shortCode urls = Some (targetURL, urls') ->
  count_of code urls' =
  if (shortCode =? code)%string
  then option_map (fun z => wrap_int (z + 1)) (count_of code urls)
  else count_of code urls.
Proof.
  induction urls as [|r rest IH]; intros targetURL urls' H; simpl in H.
  - discriminate.
  - destruct (String.eqb_spec (ShortCode r) shortCode) as [E|E].
    + injection H as _ <-. cbn [count_of increment ShortCode UsageCount].
      destruct (String.eqb_spec shortCode code) as [E'|E'].
      * rewrite E, E', String.eqb_refl. reflexivity.
      * destruct (String.eqb_spec (ShortCode r) code); [congruence | reflexivity].
    + destruct (find_and_count shortCode rest) as [[t rest']|] eqn:F;
        [|discriminate].
      injection H as _ <-. cbn [count_of]. rewrite (IH _ _ eq_refl).
      destruct (String.eqb_spec shortCode code) as [E'|E'].
      * destruct (String.eqb_spec (ShortCode r) code); [congruence | reflexivity].
      * reflexivity.
Qed.

Lemma count_of_app code l : forall urls n,
  count_of code urls = Some n -> count_of code (urls ++ l) = Some n.
Proof.
  induction urls as [|r rest IH]; intros n H; simpl in *; [discriminate|].
  destruct (ShortCode r =? code)%string; [exact H | now apply IH].
Qed.

Lemma count_of_In code : forall urls n,
  count_of code urls = Some n -> In code (codes urls).
Proof.
  induction urls as [|r rest IH]; intros n H; simpl in *; [discriminate|].
  destruct (String.eqb_spec (ShortCode r) code); [now left|].
  right. now apply (IH n).
Qed.

Lemma rootHandler_count static fuel env r urls resp urls' code n :
  rootHandler ParseRequestURI static fuel env r urls = Some (resp, urls') ->
  count_of code urls = Some n ->
  count_of code urls' = Some (if asks_for code r then wrap_int (n + 1) else n).
Proof.
  unfold rootHandler, asks_for. intros H Hn.
  destruct (prefix "/api/urls" (Path r)); cbn [negb andb].
  - destruct (Method r =? MethodGet)%string.
    + unfold getURLsHandler in H.
      destruct (Encode_fails env); injection H as _ <-; exact Hn.
    + destruct (Method r =? MethodPost)%string.
      * apply createURLHandler_codes in H
          as [[-> _] | (record & -> & _)]; [exact Hn|].
        now apply count_of_app.
      * injection H as _ <-. exact Hn.
  - destruct (String.eqb_spec (TrimPrefix_slash (Path r)) "") as [E|E];
      cbn [negb] in H.
    + injection H as _ <-. rewrite Hn. f_equal.
      destruct (String.eqb_spec code ""); [reflexivity|]. cbn [negb andb].
      destruct (String.eqb_spec (TrimPrefix_slash (Path r)) code);
        [congruence | reflexivity].
    + destruct (find_and_count (TrimPrefix_slash (Path r)) urls)
        as [[targetURL urls1]|] eqn:F.
      * apply (find_and_count_count_of _ code) in F.
        assert (count_of code urls' = count_of code urls1)
          by (destruct (saveURLs env urls1); now injection H as _ <-).
        rewrite H0, F, Hn.
        destruct (String.eqb_spec (TrimPrefix_slash (Path r)) code) as [E'|E'].
        -- destruct (String.eqb_spec code ""); [congruence | reflexivity].
        -- now rewrite andb_false_r.
      * injection H as _ <-. rewrite Hn. f_equal.
        destruct (String.eqb_spec (TrimPrefix_slash (Path r)) code) as [E'|E'];
          [|now rewrite andb_false_r].
        apply find_and_count_None in F. elim F. rewrite E'.
        now apply (count_of_In code urls n).
Qed.

Lemma count_iter k : forall n,
  (min_int <= n)%Z -> (n + Z.of_nat k <= max_int)%Z ->
  Nat.iter k (fun z => wrap_int (z + 1)) n = (n + Z.of_nat k)%Z.
Proof.
  induction k as [|k IH]; intros n Hlo Hhi.
  - simpl. lia.
  - rewrite Nat.iter_succ, IH by lia. rewrite wrap_int_small; lia.
Qed.

(** X6. Whatever requests are served in between, in whatever order, the
    count under a code goes up by one for each request that asks for the
    code, and by nothing else: after the sequence it is the count before
    plus the number of those requests (in Go's int). *)
Theorem counts_under_interleaving static fuel code : forall reqs urls resps urls' n,
  serve_all ParseRequestURI static fuel reqs urls = Some (resps, urls') ->
  count_of code urls = Some n ->
  count_of code urls' =
    Some (Nat.iter (hits code reqs) (fun z => wrap_int (z + 1)) n)
  /\ ((min_int <= n)%Z -> (n + Z.of_nat (hits code reqs) <= max_int)%Z ->
      count_of code urls' = Some (n + Z.of_nat (hits code reqs))%Z).
Proof.
  assert (Main : forall reqs urls resps urls' n,
             serve_all ParseRequestURI static fuel reqs urls = Some (resps, urls') ->
             count_of code urls = Some n ->
             count_of code urls' =
               Some (Nat.iter (hits code reqs) (fun z => wrap_int (z + 1)) n)).
  { induction reqs as [|[env r] reqs IH]; intros urls resps urls' n H Hn.
    - injection H as _ <-. exact Hn.
    - cbn [serve_all] in H.
      destruct (rootHandler ParseRequestURI static fuel env r urls)
        as [[resp urls1]|] eqn:Hr; [|discriminate].
      destruct (serve_all ParseRequestURI static fuel reqs urls1)
        as [[resps' urls2]|] eqn:Hs; [|discriminate].
      injection H as _ <-.
      rewrite (IH _ _ _ _ Hs (rootHandler_count _ _ _ _ _ _ _ _ _ Hr Hn)).
      unfold hits. cbn [filter snd].
      destruct (asks_for code r); [|reflexivity].
      cbn [List.length]. now rewrite Nat.iter_succ_r. }
  intros reqs urls resps urls' n H Hn. split; [exact (Main _ _ _ _ _ H Hn)|].
  intros Hlo Hhi. rewrite (Main _ _ _ _ _ H Hn). f_equal.
  now apply count_iter.
Qed.

(** ** The counts stay within the number of requests *)

Lemma rootHandler_bounded static fuel env r urls resp urls' k :
  rootHandler ParseRequestURI static fuel env r urls = Some (resp, urls') ->
  Forall (fun record => (0 <= UsageCount record <= Z.of_nat k)%Z) urls ->
  (Z.of_nat (S k) <= max_int)%Z ->
  Forall (fun record => (0 <= UsageCount record <= Z.of_nat (S k))%Z) urls'.
Proof.
  intros H Hb Hk.
  assert (Weak : forall l,
             Forall (fun record => (0 <= UsageCount record <= Z.of_nat k)%Z) l ->
             Forall (fun record => (0 <= UsageCount record <= Z.of_nat (S k))%Z) l).
  { intros l. apply Forall_impl. intros record. lia. }
  unfold rootHandler in H.
  destruct (prefix "/api/urls" (Path r)).
  - destruct (Method r =? MethodGet)%string.
    + unfold getURLsHandler in H.
      destruct (Encode_fails env); injection H as _ <-; now apply Weak.
    + destruct (Method r =? MethodPost)%string.
      * apply createURLHandler_cases in H
          as [(message & _ & -> & _) | (URL & code & rnd' & _ & _ & _ & _ & -> & _)];
          [now apply Weak|].
        apply Forall_app. split; [now apply Weak|].
        constructor; [|constructor]. cbn [created UsageCount]. lia.
      * injection H as _ <-. now apply Weak.
  - destruct (negb (TrimPrefix_slash (Path r) =? "")%string).
    + destruct (find_and_count (TrimPrefix_slash (Path r)) urls)
        as [[targetURL urls1]|] eqn:F.
      * apply (find_and_count_spec ParseRequestURI) in F
          as (before & record & after & -> & _ & _ & _ & ->).
        apply Forall_app in Hb as [Hbefore Hr].
        inversion Hr as [|? ? Hrec Hafter]; subst.
        assert (Forall (fun record => (0 <= UsageCount record <= Z.of_nat (S k))%Z)
                  (before ++ increment record :: after)).
        { apply Forall_app. split; [now apply Weak|].
          constructor; [|now apply Weak].
          cbn [increment UsageCount]. rewrite wrap_int_small.
          - lia.
          - unfold min_int. unfold max_int in *. lia. }
        destruct (saveURLs env _); injection H as _ <-; assumption.
      * injection H as _ <-. now apply Weak.
    + injection H as _ <-. now apply Weak.
Qed.

(** X17. The counts are not negative, short of overflow: when the counts
    of a store are between 0 and [k], after any [n] requests they are
    between 0 and [k + n], as long as that is a Go integer; from the empty
    store, every count is at most the number of requests served. *)
Theorem counts_stay_in_range static fuel :
  (forall reqs urls resps urls' k,
     serve_all ParseRequestURI static fuel reqs urls = Some (resps, urls') ->
     Forall (fun record => (0 <= UsageCount record <= Z.of_nat k)%Z) urls ->
     (Z.of_nat (k + List.length reqs) <= max_int)%Z ->
     Forall (fun record =>
               (0 <= UsageCount record <= Z.of_nat (k + List.length reqs))%Z)
            urls')
  /\ (forall reqs resps urls',
        serve_all ParseRequestURI static fuel reqs [] = Some (resps, urls') ->
        (Z.of_nat (List.length reqs) <= max_int)%Z ->
        Forall (fun record =>
                  (0 <= UsageCount record <= Z.of_nat (List.length reqs))%Z)
               urls').
Proof.
  assert (Main : forall reqs urls resps urls' k,
             serve_all ParseRequestURI static fuel reqs urls = Some (resps, urls') ->
             Forall (fun record => (0 <= UsageCount record <= Z.of_nat k)%Z) urls ->
             (Z.of_nat (k + List.length reqs) <= max_int)%Z ->
             Forall (fun record =>
                       (0 <= UsageCount record <= Z.of_nat (k + List.length reqs))%Z)
                    urls').
  { induction reqs as [|[env r] reqs IH]; intros urls resps urls' k H Hb Hk.
    - injection H as _ <-. now rewrite Nat.add_0_r.
    - cbn [serve_all] in H.
      destruct (rootHandler ParseRequestURI static fuel env r urls)
        as [[resp urls1]|] eqn:Hr; [|discriminate].
      destruct (serve_all ParseRequestURI static fuel reqs urls1)
        as [[resps' urls2]|] eqn:Hs; [|discriminate].
      injection H as _ <-. cbn [List.length] in *.
      replace (k + S (List.length reqs)) with (S k + List.length reqs) in * by lia.
      apply (IH urls1 resps'); [exact Hs | | exact Hk].
      apply (rootHandler_bounded static fuel env r urls resp); [exact Hr | exact Hb|].
      lia. }
  split; [exact Main|].
  intros reqs resps urls' H Hk.
  apply (Main reqs [] resps urls' 0 H); [constructor | exact Hk].
Qed.

(** ** Text in, text out: the store and its file *)

Lemma all_codes_valid code :
  In code all_codes -> JSON.ValidString code = true.
Proof.
  assert (H : forallb JSON.ValidString all_codes = true)
    by (vm_compute; reflexivity).
  rewrite forallb_forall in H. apply H.
Qed.

Lemma increment_text record :
  text_record record = true -> text_record (increment record) = true.
Proof.
  intros H. apply JSONValid.text_record_fields in H as (H1 & H2 & H3 & _).
  apply JSONValid.text_record_fields. unfold increment.
  cbn [ShortCode LongURL CreatedAt UsageCount].
  repeat split; try assumption. apply in_int_wrap_int.
Qed.

Lemma rootHandler_text static fuel env r urls resp urls' :
  Forall (fun r => text_record r = true) urls ->
  rootHandler ParseRequestURI static fuel env r urls = Some (resp, urls') ->
  Forall (fun r => text_record r = true) urls'.
Proof.
  intros Hv. unfold rootHandler. intros H.
  destruct (prefix "/api/urls" (Path r)).
  - destruct (Method r =? MethodGet)%string.
    + unfold getURLsHandler in H.
      destruct (Encode_fails env); injection H as _ <-; exact Hv.
    + destruct (Method r =? MethodPost)%string.
      * apply createURLHandler_cases in H
          as [(message & _ & -> & _) | (URL & code & rnd' & D & _ & _ & G & -> & _)];
          [exact Hv|].
        apply Forall_app. split; [exact Hv|]. constructor; [|constructor].
        apply JSONValid.text_record_fields. unfold created.
        cbn [ShortCode LongURL CreatedAt UsageCount].
        apply generate_sound in G as [Hin _].
        split; [now apply all_codes_valid|].
        split; [now apply (JSONValid.Decode_reqBody_valid (Body r))|].
        split; [apply JSONValid.Format_RFC3339_valid | reflexivity].
      * injection H as _ <-. exact Hv.
  - destruct (negb (TrimPrefix_slash (Path r) =? "")%string).
    + destruct (find_and_count (TrimPrefix_slash (Path r)) urls)
        as [[targetURL urls1]|] eqn:F.
      * apply (find_and_count_spec ParseRequestURI) in F
          as (before & record & after & -> & _ & _ & _ & ->).
        apply Forall_app in Hv as [Hb Hr]. inversion Hr as [|? ? Hrec Ha]; subst.
        assert (Forall (fun r => text_record r = true)
                  (before ++ increment record :: after)).
        { apply Forall_app. split; [exact Hb|].
          constructor; [now apply increment_text | exact Ha]. }
        destruct (saveURLs env _); injection H as _ <-; assumption.
      * injection H as _ <-. exact Hv.
    + injection H as _ <-. exact Hv.
Qed.

Lemma reachable_text static urls0 urls :
  Forall (fun r => text_record r = true) urls0 ->
  reachable ParseRequestURI static urls0 urls ->
  Forall (fun r => text_record r = true) urls.
Proof.
  intros H0. induction 1 as [|urls env r resp urls' _ IH [fuel Hs]]; [exact H0|].
  eapply rootHandler_text; eassumption.
Qed.

Lemma init_text file urls0 :
  init file = Some urls0 -> Forall (fun r => text_record r = true) urls0.
Proof. unfold init. apply JSONValid.Unmarshal_text. Qed.

(** X7. The strings of the store are valid UTF-8 and its counts are Go
    integers, in every state of a running service.  That is so of what
    [init] loads, whatever bytes the file has; of the url that a create call
    decodes, whatever bytes the body has; and each request keeps it so.
    Hence every store of the service is written and read back as it is. *)
Theorem service_stores_are_text static :
  (forall file urls0,
     init file = Some urls0 -> Forall (fun r => text_record r = true) urls0)
  /\ (forall body URL,
        JSON.Decode_reqBody body = Some URL -> JSON.ValidString URL = true)
  /\ (forall fuel env r urls resp urls',
        Forall (fun r => text_record r = true) urls ->
        rootHandler ParseRequestURI static fuel env r urls = Some (resp, urls') ->
        Forall (fun r => text_record r = true) urls')
  /\ (forall file urls0 urls,
        init file = Some urls0 ->
        reachable ParseRequestURI static urls0 urls ->
        Forall (fun r => text_record r = true) urls
        /\ JSON.Unmarshal (JSON.MarshalIndent urls) = Some urls).
Proof.
  split; [exact init_text|]. split; [exact JSONValid.Decode_reqBody_valid|].
  split; [apply rootHandler_text|].
  intros file urls0 urls Hi Hr.
  assert (Forall (fun r => text_record r = true) urls)
    by (eapply reachable_text; [eapply init_text|]; eassumption).
  split; [assumption | now apply JSONText.Unmarshal_MarshalIndent].
Qed.



(** ** The body of the request, written and read *)

Lemma body_with_url_text url t :
  body_with_url url ++ t =
  String "{" (JSON.appendString "url"
              ++ String ":" (String " " (JSON.appendString url ++ String "}" t))).
Proof.
  unfold body_with_url. rewrite !JSONText.append_assoc. reflexivity.
Qed.

(** X9. A body [{"url": ...}] whose string is the literal of a url in valid
    UTF-8 decodes to that url, byte for byte, whatever follows the object in
    the body; and the record that the create call appends holds it. *)
Theorem request_body_round_trip url t :
  JSON.ValidString url = true ->
  JSON.Decode_reqBody (body_with_url url ++ t) = Some url
  /\ forall fuel env method path urls resp urls',
       createURLHandler ParseRequestURI fuel env
         (mkRequest method path (body_with_url url ++ t)) urls =
         Some (resp, urls') ->
       urls' = urls
       \/ exists code, urls' = (urls ++ [mkURLRecord code url
                                          (Time.Format_RFC3339 (now env)) 0])%list.
Proof.
  intros V.
  assert (D : JSON.Decode_reqBody (body_with_url url ++ t) = Some url).
  { unfold JSON.Decode_reqBody. rewrite body_with_url_text.
    cbn [String.length]. rewrite JSONText.length_append.
    destruct (JSONText.appendString_head "url" "") as [rest0 E0].
    assert (L : 2 <= String.length
                       (String ":" (String " " (JSON.appendString url ++ String "}" t))))
      by (cbn [String.length]; lia).
    destruct (String.length (JSON.appendString "url")
              + String.length (String ":" (String " "
                  (JSON.appendString url ++ String "}" t)))) as [|[|fuel]] eqn:El;
      [lia | lia |].
    cbn [JSON.scan_value JSON.skip_space JSON.isSpace Ascii.eqb Bool.eqb orb].
    rewrite JSONText.skip_space_appendString.
    rewrite JSONText.next_is_appendString by discriminate.
    cbn [JSON.scan_members].
    rewrite JSONText.scan_string_appendString by reflexivity.
    cbn [JSON.skip_space JSON.isSpace Ascii.eqb Bool.eqb orb JSON.next_is].
    destruct fuel as [|fuel].
    { exfalso. cbn [String.length] in El.
      assert (1 <= String.length (JSON.appendString "url")) by (vm_compute; lia).
      lia. }
    rewrite JSONText.scan_value_string by exact V.
    cbn [JSON.skip_space JSON.isSpace Ascii.eqb Bool.eqb orb JSON.next_is rev app].
    reflexivity. }
  split; [exact D|].
  intros fuel env method path urls resp urls' H.
  apply createURLHandler_cases in H
    as [(message & _ & -> & _) | (URL & code & rnd' & D' & _ & _ & _ & -> & _)];
    [now left|].
  right. cbn [Body] in D'. rewrite D in D'. injection D' as <-.
  exists code. reflexivity.
Qed.

(** ** The list, decoded by its reader *)

(** X10. The body of the list decodes to the store.  For a store whose
    strings are valid UTF-8 and whose counts are Go integers, the bytes
    that the list writes are read back by [json.Unmarshal], as
    TestGetURLs does, to the records of the store, each as it is and in
    the order of the store. *)
Theorem list_decodes_to_store static fuel env r urls :
  prefix "/api/urls" (Path r) = true -> Method r = MethodGet ->
  Encode_fails env = false ->
  Forall (fun record => text_record record = true) urls ->
  exists resp body,
    rootHandler ParseRequestURI static fuel env r urls = Some (resp, urls)
    /\ Status resp = StatusOK
    /\ Encoded resp = Some body
    /\ body = list_body urls
    /\ JSON.Unmarshal body = Some urls.
Proof.
  intros Hapi Hget Henc W.
  exists (JSONResponse StatusOK (JSON.of_urls urls)), (list_body urls).
  split; [|split; [reflexivity|split; [|split; [reflexivity|]]]].
  - unfold rootHandler, getURLsHandler. now rewrite Hapi, Hget, Henc, copy_make.
  - cbn [Encoded]. now rewrite Encode_of_urls.
  - now apply JSONCompact.Unmarshal_list_body.
Qed.

(** ** The client and the service, end to end *)

(** X15. What the user submits is what the service decodes: the body that
    [handleSubmit] builds for a url in valid UTF-8 decodes to that url,
    byte for byte, and the record that the create call appends holds it. *)
Theorem typed_url_is_decoded longUrl :
  JSON.ValidString longUrl = true ->
  JSON.Decode_reqBody (stringify_url longUrl) = Some longUrl
  /\ forall fuel env urls resp urls',
       createURLHandler ParseRequestURI fuel env
         (mkRequest MethodPost "/api/urls" (stringify_url longUrl)) urls =
         Some (resp, urls') ->
       urls' = urls
       \/ exists code,
            urls' = (urls ++ [mkURLRecord code longUrl
                               (Time.Format_RFC3339 (now env)) 0])%list.
Proof.
  intros V. assert (D := Client.Decode_stringify longUrl V).
  split; [exact D|].
  intros fuel env urls resp urls' H.
  apply createURLHandler_cases in H
    as [(message & _ & -> & _) | (URL & code & rnd' & D' & _ & _ & _ & -> & _)];
    [now left|].
  right. cbn [Body] in D'. rewrite D in D'. injection D' as <-.
  exists code. reflexivity.
Qed.

End Further.

(** ** The answers of the service *)

(** X11. Apart from what the static handler serves, the service has nine
    answers: the list, the new code, the redirect to the long URL of a
    stored record, and six errors, each a JSON object with the one member
    [error] and a fixed message; besides them there is only the list that
    breaks off under its status 200 when its write fails.  Each of the
    nine is the answer to some request. *)
Theorem error_catalogue :
  (forall ParseRequestURI static fuel env r urls resp urls',
     rootHandler ParseRequestURI static fuel env r urls = Some (resp, urls') ->
     prefix "/api/urls" (Path r) = true \/ names_record r urls ->
     resp = JSONResponse StatusOK (JSON.of_urls urls)
     \/ (resp = BrokenResponse StatusOK /\ Encode_fails env = true)
     \/ (exists code, resp = JSONResponse StatusCreated
                               (JSON.object1 "short_code" code))
     \/ (exists record,
           In record urls
           /\ resp = RedirectResponse (LongURL record) StatusFound)
     \/ (exists status message,
           resp = JSONResponse status (JSON.object1 "error" message)
           /\ In (status, message) error_answers))
  /\ (forall status message,
        In (status, message) error_answers ->
        exists fuel env r urls urls',
          rootHandler NetURL.ParseRequestURI NotFoundHandler fuel env r urls =
          Some (JSONResponse status (JSON.object1 "error" message), urls'))
  /\ (exists fuel env r urls,
        rootHandler NetURL.ParseRequestURI NotFoundHandler fuel env r urls =
        Some (JSONResponse StatusOK (JSON.of_urls urls), urls))
  /\ (exists fuel env r urls code urls',
        rootHandler NetURL.ParseRequestURI NotFoundHandler fuel env r urls =
        Some (JSONResponse StatusCreated (JSON.object1 "short_code" code),
              urls'))
  /\ (exists fuel env r urls record urls',
        In record urls
        /\ rootHandler NetURL.ParseRequestURI NotFoundHandler fuel env r urls =
           Some (RedirectResponse (LongURL record) StatusFound, urls')).
Proof.
  split; [|split; [|split; [|split]]].
  - intros ParseRequestURI static fuel env r urls resp urls' H [Hapi | Hn].
    + rewrite rootHandler_api in H by exact Hapi.
      destruct (Method r =? MethodGet)%string.
      * unfold getURLsHandler in H. rewrite copy_make in H.
        destruct (Encode_fails env) eqn:Henc; injection H as <- _.
        -- right; left. now split.
        -- now left.
      * destruct (Method r =? MethodPost)%string.
        -- unfold createURLHandler in H.
           destruct (JSON.Decode_reqBody (Body r)) as [URL|].
           ++ destruct (URL =? "")%string.
              { injection H as <- _. do 4 right. eexists. eexists.
                split; [reflexivity|]. simpl. tauto. }
              destruct (ParseRequestURI URL); cbn [negb] in H.
              ** destruct (generate fuel (rand env) urls) as [[code rnd']|];
                   [|discriminate H].
                 destruct (saveURLs env _); injection H as <- _.
                 { do 2 right; left. eauto. }
                 do 4 right. eexists. eexists.
                 split; [reflexivity|]. simpl. tauto.
              ** injection H as <- _. do 4 right. eexists. eexists.
                 split; [reflexivity|]. simpl. tauto.
           ++ injection H as <- _. do 4 right. eexists. eexists.
              split; [reflexivity|]. simpl. tauto.
        -- injection H as <- _. do 4 right. eexists. eexists.
           split; [reflexivity|]. simpl. tauto.
    + destruct (rootHandler_redirect ParseRequestURI static fuel env r urls Hn)
        as (before & record & after & E & _ & _ & H').
      rewrite H' in H. injection H as <- _. unfold redirect_response.
      destruct (WriteFile_fails env).
      * do 4 right. eexists. eexists. split; [reflexivity|]. simpl. tauto.
      * do 3 right; left. exists record. split; [|reflexivity].
        rewrite E. apply in_or_app. right. now left.
  - intros status message Hin.
    destruct Hin as [E|[E|[E|[E|[E|[E|[]]]]]]]; injection E as <- <-.
    + exists 1, env_ok,
        (mkRequest MethodPost "/api/urls" "{url: https://example.com/}"), [].
      eexists. vm_compute. reflexivity.
    + exists 1, env_ok, (mkRequest MethodPost "/api/urls" (body_with_url "")), [].
      eexists. vm_compute. reflexivity.
    + exists 1, env_ok,
        (mkRequest MethodPost "/api/urls" (body_with_url "not-a-valid-url")), [].
      eexists. vm_compute. reflexivity.
    + exists 0, env_ok, (mkRequest "DELETE" "/api/urls" ""), [].
      eexists. vm_compute. reflexivity.
    + exists 1, env_write_fails, post_example, [].
      eexists. vm_compute. reflexivity.
    + exists 0, env_write_fails, (request_test_code MethodGet), test_store.
      eexists. vm_compute. reflexivity.
  - exists 0, env_ok, get_urls, test_store. vm_compute. reflexivity.
  - exists 1, env_ok, post_example, []. eexists. eexists.
    vm_compute. reflexivity.
  - exists 0, env_ok, (request_test_code MethodGet), test_store.
    eexists. eexists. split; [left; reflexivity|]. vm_compute. reflexivity.
Qed.

(** ** What the request-URI parser refuses, and what it accepts *)

Lemma getScheme_at_no_colon rawURL : forall rest i,
  NetURL.Count ":" rest = 0 ->
  NetURL.getScheme_at i rawURL rest = Some ("", rawURL).
Proof.
  induction rest as [|c rest IH]; intros i H; [reflexivity|].
  unfold NetURL.Count in H. cbn [list_ascii_of_string filter] in H.
  destruct (Ascii.eqb_spec ":" c) as [<-|Hc]; [discriminate H|].
  cbn [NetURL.getScheme_at].
  destruct (NetURL.isAlpha c); [now apply IH|].
  destruct (NetURL.isDigit c || NetURL.oneOf "+-." c).
  - destruct (i =? 0)%nat; [reflexivity | now apply IH].
  - destruct (Ascii.eqb_spec c ":"); [congruence | reflexivity].
Qed.

Lemma prefix_slash c s : c <> "/"%char -> prefix "/" (String c s) = false.
Proof.
  intros H. cbn [prefix]. destruct (ascii_dec "/" c); [congruence | reflexivity].
Qed.





Lemma rootless_after_query rest :
  prefix "/" rest = false ->
  prefix "/" (if NetURL.HasSuffix1 "?" rest && (NetURL.Count "?" rest =? 1)%nat
              then NetURL.slice_to (String.length rest - 1) rest
              else fst (NetURL.Cut "?" rest)) = false.
Proof.
  destruct rest as [|c s]; intros H; [now destruct (_ && _)|].
  assert (Hne : c <> "/"%char).
  { intros ->. cbn [prefix] in H.
    destruct (ascii_dec "/" "/"); [|congruence]. now destruct s. }
  destruct (_ && _).
  - unfold NetURL.slice_to. cbn [String.length Nat.sub].
    rewrite Nat.sub_0_r. destruct (String.length s); [reflexivity|].
    cbn [substring]. now apply prefix_slash.
  - cbn [NetURL.Cut]. destruct (Ascii.eqb c "?"); [reflexivity|].
    destruct (NetURL.Cut "?" s). cbn [fst]. now apply prefix_slash.
Qed.


(** X12. A url without a colon has no scheme, and is then accepted only as
    an absolute path or as the asterisk: a create call with any other such
    url, [not-a-valid-url] or a bare host name, is answered 400 with
    "Invalid URL format", and the store is left as it is. *)
Theorem relative_url_refused URL :
  NetURL.Contains ":" URL = false -> prefix "/" URL = false -> URL <> "*" ->
  NetURL.ParseRequestURI URL = false
  /\ (URL <> "" ->
      forall fuel env r urls,
        JSON.Decode_reqBody (Body r) = Some URL ->
        createURLHandler NetURL.ParseRequestURI fuel env r urls =
        Some (writeJSONError "Invalid URL format" StatusBadRequest, urls)).
Proof.
  intros Hc Hp Hs.
  assert (R : NetURL.ParseRequestURI URL = false).
  { unfold NetURL.ParseRequestURI, NetURL.parse_ok.
    destruct (NetURL.stringContainsCTLByte URL); [reflexivity|].
    destruct (String.eqb_spec URL ""); [reflexivity|].
    destruct (String.eqb_spec URL "*"); [contradiction|].
    unfold NetURL.getScheme. rewrite getScheme_at_no_colon.
    2:{ unfold NetURL.Contains in Hc. apply negb_false_iff in Hc.
        now apply Nat.eqb_eq in Hc. }
    rewrite (rootless_after_query URL Hp). reflexivity. }
  split; [exact R|].
  intros Hne fuel env r urls D. unfold createURLHandler. rewrite D.
  destruct (String.eqb_spec URL ""); [contradiction|]. now rewrite R.
Qed.


(** ** main_test.go, on the model

    The tests run the dispatcher with [http.NotFoundHandler()] for the
    static files.  Here the generator's first draw is quick-dog and the
    clock stands at 2024-03-07 09:05:00 UTC. *)

Example TestCreateURL_Success :
  rootHandler NetURL.ParseRequestURI NotFoundHandler 1 env_ok post_example [] =
  Some (JSONResponse 201 (JSON.object1 "short_code" "quick-dog"),
        [ mkURLRecord "quick-dog" "https://example.com/a-very-long-url"
            "2024-03-07T09:05:00Z" 0 ]).
Proof. vm_compute. reflexivity. Qed.

Example TestCreateURL_InvalidURL :
  rootHandler NetURL.ParseRequestURI NotFoundHandler 1 env_ok
    (mkRequest MethodPost "/api/urls" (body_with_url "not-a-valid-url")) [] =
  Some (JSONResponse 400 (JSON.object1 "error" "Invalid URL format"), []).
Proof. vm_compute. reflexivity. Qed.

Example TestRedirect_Success :
  rootHandler NetURL.ParseRequestURI NotFoundHandler 0 env_ok
    (request_test_code MethodGet) test_store =
  Some (RedirectResponse "https://example.com/redirect-target" 302,
        [ mkURLRecord "test-code" "https://example.com/redirect-target" "" 1 ]).
Proof. vm_compute. reflexivity. Qed.

Example TestRedirect_NotFound :
  rootHandler NetURL.ParseRequestURI NotFoundHandler 0 env_ok
    (mkRequest MethodGet "/non-existent-code" "") [] =
  Some (OtherResponse 404 "404 page not found", []).
Proof. vm_compute. reflexivity. Qed.

Example TestGetURLs :
  rootHandler NetURL.ParseRequestURI NotFoundHandler 0 env_ok get_urls test_store =
  Some (JSONResponse 200 (JSON.of_urls test_store), test_store).
Proof. vm_compute. reflexivity. Qed.

(** The list whose write to the client fails: the status 200 is out, and
    the store is as it was. *)
Example list_write_fails :
  rootHandler NetURL.ParseRequestURI NotFoundHandler 0 env_encode_fails
    get_urls test_store =
  Some (BrokenResponse 200, test_store).
Proof. vm_compute. reflexivity. Qed.

(** The body of the list for a store that is not text: the byte that is
    no UTF-8 is written as U+FFFD, and that is what the reader gets. *)
Example list_body_not_text :
  let store := [ mkURLRecord "x" (String "255" "") "" 0 ] in
  JSON.Unmarshal (list_body store) =
  Some [ mkURLRecord "x" (String "239" (String "191" (String "189" ""))) "" 0 ].
Proof. vm_compute. reflexivity. Qed.

(** The Location of a redirect: an absolute URL in ASCII as it is, the
    bytes outside ASCII escaped, a path cleaned with its query and its
    trailing slash kept, and a path without a leading slash taken from the
    directory of the request path. *)
Example Redirect_Location_examples :
  map (Redirect_Location "/test-code")
    [ "https://example.com/redirect-target";
      "https://example.com/a/../b?q=1#top";
      "//example.com/x"; "/a/../b"; "/a/./b/?q=../c"; "/a//b/.."; "/..";
      "*"; "mailto:a"; "/%zz/../b" ] =
  [ "https://example.com/redirect-target";
    "https://example.com/a/../b?q=1#top";
    "//example.com/x"; "/b"; "/a/b/?q=../c"; "/a"; "/";
    "/*"; "mailto:a"; "/%zz/../b" ].
Proof. vm_compute. reflexivity. Qed.

(** The two refusals that come before the validation of the url. *)
Example create_empty_url :
  rootHandler NetURL.ParseRequestURI NotFoundHandler 1 env_ok
    (mkRequest MethodPost "/api/urls" (body_with_url "")) [] =
  Some (JSONResponse 400 (JSON.object1 "error" "URL is required"), []).
Proof. vm_compute. reflexivity. Qed.

Example create_malformed_body :
  rootHandler NetURL.ParseRequestURI NotFoundHandler 1 env_ok
    (mkRequest MethodPost "/api/urls" "{url: https://example.com/}") [] =
  Some (JSONResponse 400 (JSON.object1 "error" "Invalid request body"), []).
Proof. vm_compute. reflexivity. Qed.

(** What [url.ParseRequestURI] takes and what it refuses. *)
Example ParseRequestURI_examples :
  map NetURL.ParseRequestURI
    [ "https://example.com/a-very-long-url"; "not-a-valid-url"; "";
      "/x"; "mailto:a"; "http://a b/"; "example.com/x" ] =
  [ true; false; false; true; true; false; false ].
Proof. vm_compute. reflexivity. Qed.

(** ** The statements at the scenarios of the tests *)

Lemma example_passes_validation :
  passes_validation NetURL.ParseRequestURI post_example example_url.
Proof.
  split; [reflexivity | split; [discriminate | reflexivity]].
Defined.

Lemma singleton_split {A : Type} (x : A) before y after :
  [x] = (before ++ y :: after)%list -> before = [] /\ y = x /\ after = [].
Proof.
  destruct before as [|z [|z' before]]; cbn [app]; intros E;
    [| discriminate E | discriminate E].
  injection E as <- <-. auto.
Defined.

Lemma test_code_names_record method :
  names_record (request_test_code method) test_store.
Proof.
  split; [reflexivity | split; [discriminate | left; reflexivity]].
Defined.

Lemma short_code_uniqueness_witness :
  NoDup (codes [created env_ok example_url "quick-dog"]).
Proof.
  apply (proj1 (proj2 (short_code_uniqueness NetURL.ParseRequestURI))
           NotFoundHandler [] _).
  - constructor.
  - apply (reachable_serve _ _ _ [] env_ok post_example
             (JSONResponse StatusCreated (JSON.object1 "short_code" "quick-dog"))).
    + apply reachable_start.
    + exists 1. vm_compute. reflexivity.
Defined.

Lemma create_validation_witness :
  exists fuel resp urls',
    createURLHandler NetURL.ParseRequestURI fuel env_ok post_example [] =
    Some (resp, urls').
Proof.
  destruct (create_validation NetURL.ParseRequestURI env_ok post_example [])
    as (_ & _ & _ & H).
  destruct (H example_url example_passes_validation) as [_ H'].
  apply H'. exists 0. vm_compute. reflexivity.
Defined.

Lemma create_success_witness :
  List.length adjectives = 50 /\ List.length nouns = 50.
Proof.
  apply (create_success NetURL.ParseRequestURI env_ok post_example []
           example_url example_passes_validation).
Defined.

Lemma redirect_contract_witness :
  rootHandler NetURL.ParseRequestURI NotFoundHandler 0 env_ok
    (request_test_code MethodGet) test_store =
  Some (RedirectResponse "https://example.com/redirect-target" StatusFound,
        [ mkURLRecord "test-code" "https://example.com/redirect-target" "" 1 ])
  /\ Location (request_test_code MethodGet)
       (RedirectResponse "https://example.com/redirect-target" StatusFound) =
     Some "https://example.com/redirect-target"
  /\ rootHandler NetURL.ParseRequestURI NotFoundHandler 0 env_ok
       (mkRequest MethodGet "/non-existent-code" "") [] =
     Some (NotFoundHandler (mkRequest MethodGet "/non-existent-code" ""), []).
Proof.
  destruct (redirect_contract NetURL.ParseRequestURI NotFoundHandler 0 env_ok
              (request_test_code MethodGet) test_store) as (Hred & _).
  destruct (Hred (test_code_names_record MethodGet))
    as (before & record & after & E & _ & _ & H & Hok & _).
  apply singleton_split in E as (-> & -> & ->).
  destruct (Hok eq_refl) as (R & _ & _ & L & _).
  split; [rewrite H, R; reflexivity|]. split.
  - exact (L eq_refl eq_refl).
  - apply (proj1 (proj2 (redirect_contract NetURL.ParseRequestURI
                           NotFoundHandler 0 env_ok _ []))).
    + reflexivity.
    + intros (_ & _ & []).
Defined.

Lemma write_failure_keeps_mutation_witness :
  exists before record after,
    test_store = (before ++ record :: after)%list
    /\ ShortCode record = "test-code"
    /\ rootHandler NetURL.ParseRequestURI NotFoundHandler 0 env_write_fails
         (request_test_code MethodGet) test_store =
       Some (JSONResponse StatusInternalServerError
               (JSON.object1 "error" "Failed to update URL data"),
             (before ++ increment record :: after)%list)
    /\ UsageCount (increment record) = wrap_int (UsageCount record + 1)
    /\ UsageCount (increment record) <> UsageCount record.
Proof.
  apply (proj2 (write_failure_keeps_mutation NetURL.ParseRequestURI
                  NotFoundHandler env_write_fails test_store eq_refl)
           0 (request_test_code MethodGet) (test_code_names_record MethodGet)).
Defined.

Lemma persistence_round_trip_witness :
  JSON.Unmarshal (JSON.MarshalIndent test_store) = Some test_store.
Proof.
  apply (persistence_round_trip test_store).
  repeat constructor.
Defined.

Lemma routing_priority_witness :
  rootHandler NetURL.ParseRequestURI NotFoundHandler 0 env_ok
    (mkRequest "DELETE" "/api/urls" "") test_store =
  Some (writeJSONError "Method Not Allowed" StatusMethodNotAllowed, test_store).
Proof.
  apply (proj1 (proj1 (routing_priority NetURL.ParseRequestURI NotFoundHandler
                         0 env_ok (mkRequest "DELETE" "/api/urls" "")
                         test_store) eq_refl)).
Defined.

Lemma list_contract_witness :
  rootHandler NetURL.ParseRequestURI NotFoundHandler 0 env_ok get_urls test_store =
  Some (getURLsHandler env_ok test_store)
  /\ Encoded (fst (getURLsHandler env_ok test_store)) =
     Some (list_body test_store).
Proof.
  destruct (list_contract NetURL.ParseRequestURI NotFoundHandler 0 env_ok
              get_urls test_store eq_refl eq_refl) as (H & _ & _ & Hok & _).
  split; [exact H|]. exact (proj2 (proj2 (Hok eq_refl))).
Defined.

Lemma generator_termination_witness :
  (exists rnd fuel code rnd', generate fuel rnd [] = Some (code, rnd'))
  /\ (forall fuel rnd, generate fuel rnd full_store = None).
Proof.
  split.
  - apply (proj1 (proj2 (generator_termination []))).
    intros H. apply (H "quick-fox"). vm_compute. now left.
  - apply (proj2 (proj2 (proj2 (proj2 (generator_termination full_store))))).
    apply saturated_true. vm_compute. reflexivity.
Defined.


(** ** The further properties at the scenarios of the tests *)

Lemma quick_dog_reachable :
  reachable NetURL.ParseRequestURI NotFoundHandler [] quick_dog_store.
Proof.
  apply (reachable_serve _ _ _ [] env_ok post_example
           (JSONResponse StatusCreated (JSON.object1 "short_code" "quick-dog"))).
  - apply reachable_start.
  - exists 1. vm_compute. reflexivity.
Defined.

Lemma generate_first_free_witness :
  exists rnd', generate 2 example_rand quick_dog_store = Some ("sleepy-mouse", rnd').
Proof.
  apply (proj1 (proj2 (generate_first_free example_rand quick_dog_store)) 1).
  - vm_compute. reflexivity.
  - intros [|j] Hj; [vm_compute; discriminate | lia].
  - lia.
Defined.

Lemma store_append_only_witness :
  exists kept added,
    quick_dog_store = (kept ++ added)%list
    /\ Forall2 same_but_count [] kept /\ List.length added <= 1.
Proof.
  apply (proj1 (store_append_only NetURL.ParseRequestURI NotFoundHandler)
           1 env_ok post_example []
           (JSONResponse StatusCreated (JSON.object1 "short_code" "quick-dog"))).
  vm_compute. reflexivity.
Defined.

Lemma fresh_store_capacity_witness : List.length quick_dog_store <= 2500.
Proof.
  apply (fresh_store_capacity NetURL.ParseRequestURI NotFoundHandler
           quick_dog_store quick_dog_reachable).
Defined.

Lemma stored_urls_validated_witness :
  Forall (validated_record NetURL.ParseRequestURI) quick_dog_store.
Proof.
  apply (proj1 (proj2 (stored_urls_validated NetURL.ParseRequestURI
                         NotFoundHandler))).
  exact quick_dog_reachable.
Defined.

Lemma create_then_redirect_witness :
  rootHandler NetURL.ParseRequestURI NotFoundHandler 0 env_ok
    (mkRequest MethodGet "/quick-dog" "") quick_dog_store =
  Some (RedirectResponse example_url StatusFound,
        [ mkURLRecord "quick-dog" example_url "2024-03-07T09:05:00Z" 1 ]).
Proof.
  destruct (create_then_redirect NetURL.ParseRequestURI 1 env_ok post_example []
              "quick-dog" quick_dog_store) as (URL & D & E & I & H).
  - vm_compute. reflexivity.
  - assert (URL = example_url) as ->
      by (vm_compute in D; injection D as <-; reflexivity).
    exact (H NotFoundHandler 0 env_ok MethodGet "").
Defined.

Lemma submit_shows_answer_witness :
  handleSubmit "http://localhost:8080"
    (JSONResponse StatusCreated (JSON.object1 "short_code" "quick-dog")) =
  Some (setShortUrl "http://localhost:8080/quick-dog").
Proof.
  destruct (submit_shows_answer NetURL.ParseRequestURI NotFoundHandler 1 env_ok
              (body_with_url example_url) []
              (JSONResponse StatusCreated (JSON.object1 "short_code" "quick-dog"))
              quick_dog_store "http://localhost:8080")
    as [(URL & code & _ & H) | (message & H & _)].
  - vm_compute. reflexivity.
  - reflexivity.
  - discriminate H.
Defined.

Lemma counts_under_interleaving_witness :
  count_of "test-code"
    [ mkURLRecord "test-code" "https://example.com/redirect-target" "" 2 ] =
  Some 2%Z.
Proof.
  assert (H : exists resps,
             serve_all NetURL.ParseRequestURI NotFoundHandler 0
               [ (env_ok, request_test_code MethodGet); (env_ok, get_urls);
                 (env_write_fails, request_test_code MethodPost) ] test_store =
             Some (resps,
                   [ mkURLRecord "test-code"
                       "https://example.com/redirect-target" "" 2 ]))
    by (eexists; vm_compute; reflexivity).
  destruct H as [resps H].
  apply (proj2 (counts_under_interleaving NetURL.ParseRequestURI NotFoundHandler
                  0 "test-code" _ test_store resps _ 0%Z H eq_refl)).
  - unfold min_int. lia.
  - vm_compute. discriminate.
Defined.

Lemma counts_stay_in_range_witness :
  Forall (fun record => (0 <= UsageCount record <= 2)%Z)
    [ mkURLRecord "quick-dog" example_url "2024-03-07T09:05:00Z" 1 ].
Proof.
  assert (H : exists resps,
             serve_all NetURL.ParseRequestURI NotFoundHandler 1
               [ (env_ok, post_example);
                 (env_ok, mkRequest MethodGet "/quick-dog" "") ] [] =
             Some (resps,
                   [ mkURLRecord "quick-dog" example_url
                       "2024-03-07T09:05:00Z" 1 ]))
    by (eexists; vm_compute; reflexivity).
  destruct H as [resps H].
  apply (proj2 (counts_stay_in_range NetURL.ParseRequestURI NotFoundHandler 1)
           _ resps _ H).
  vm_compute. discriminate.
Defined.

Lemma service_stores_are_text_witness :
  JSON.Unmarshal (JSON.MarshalIndent quick_dog_store) = Some quick_dog_store.
Proof.
  apply (proj2 (proj2 (proj2 (service_stores_are_text NetURL.ParseRequestURI
                                NotFoundHandler)))
           None [] quick_dog_store eq_refl quick_dog_reachable).
Defined.


Lemma request_body_round_trip_witness :
  JSON.Decode_reqBody (body_with_url example_url ++ "") = Some example_url.
Proof.
  apply (request_body_round_trip NetURL.ParseRequestURI example_url "").
  vm_compute. reflexivity.
Defined.

Lemma relative_url_refused_witness :
  NetURL.ParseRequestURI "not-a-valid-url" = false.
Proof.
  apply (relative_url_refused "not-a-valid-url").
  - reflexivity.
  - reflexivity.
  - discriminate.
Defined.

Lemma list_decodes_to_store_witness :
  exists resp body,
    rootHandler NetURL.ParseRequestURI NotFoundHandler 0 env_ok get_urls test_store =
      Some (resp, test_store)
    /\ Status resp = StatusOK
    /\ Encoded resp = Some body
    /\ body = list_body test_store
    /\ JSON.Unmarshal body = Some test_store.
Proof.
  apply (list_decodes_to_store NetURL.ParseRequestURI NotFoundHandler 0 env_ok
           get_urls test_store eq_refl eq_refl eq_refl).
  repeat constructor.
Defined.

Lemma error_catalogue_witness :
  In (StatusMethodNotAllowed, "Method Not Allowed") error_answers.
Proof.
  destruct (proj1 error_catalogue NetURL.ParseRequestURI NotFoundHandler 0
              env_ok (mkRequest "DELETE" "/api/urls" "") test_store
              (writeJSONError "Method Not Allowed" StatusMethodNotAllowed)
              test_store eq_refl (or_introl eq_refl))
    as [E | [[E _] | [[code E] | [(record & _ & E)
                                 | (status & message & E & Hin)]]]];
    try discriminate E.
  injection E as <- <-. exact Hin.
Defined.

Lemma typed_url_is_decoded_witness :
  JSON.Decode_reqBody (stringify_url example_url) = Some example_url.
Proof.
  apply (typed_url_is_decoded NetURL.ParseRequestURI example_url).
  vm_compute. reflexivity.
Defined.


(** The claims as first written, at inputs where they fail. *)

(** C2 as stated has every body outside the three refusals answered 201.
    This body is none of the three, and the answer is 500: the write of
    the backing file failed.  And the third refusal, as stated, is of
    every url without a scheme and a host: the url [/x] has neither, and
    the answer is 201. *)
Lemma create_validation_counterexample :
  passes_validation NetURL.ParseRequestURI post_example example_url
  /\ createURLHandler NetURL.ParseRequestURI 1 env_write_fails post_example [] =
     Some (JSONResponse 500 (JSON.object1 "error" "Failed to save URL record"),
           [created env_write_fails example_url "quick-dog"])
  /\ 500 <> StatusCreated /\ 500 <> StatusBadRequest
  /\ createURLHandler NetURL.ParseRequestURI 1 env_ok
       (mkRequest MethodPost "/api/urls" (body_with_url "/x")) [] =
     Some (JSONResponse 201 (JSON.object1 "short_code" "quick-dog"),
           [created env_ok "/x" "quick-dog"]).
Proof.
  split; [exact example_passes_validation|].
  split; [vm_compute; reflexivity|].
  split; [discriminate|]. split; [discriminate | vm_compute; reflexivity].
Qed.

(** C3 as stated has the create call on a valid url answer 201 with the
    code of the record it appended.  With a failing write the record is
    appended to the store and the answer is 500, without a code. *)
Lemma create_success_counterexample :
  exists resp urls',
    createURLHandler NetURL.ParseRequestURI 1 env_write_fails post_example
      test_store = Some (resp, urls')
    /\ urls' = (test_store ++ [created env_write_fails example_url "quick-dog"])%list
    /\ Status resp <> StatusCreated
    /\ returned_code resp = None.
Proof.
  eexists. eexists. split; [vm_compute; reflexivity|].
  split; [reflexivity|]. split; [discriminate | reflexivity].
Qed.

(** C4 as stated has the request for a stored code answered 302 with the
    long URL as Location, and the request for an unknown code answered
    404.  With a failing write the first is answered 500, without
    Location; the second is answered by the static handler, 200 when the
    path is one of its assets; a long URL that the service accepts is
    not the Location when it is a path with dots in it, which is cleaned,
    or has bytes outside ASCII, which are escaped; and a record whose code
    is empty is not redirected to. *)
Lemma redirect_contract_counterexample :
  (exists resp urls',
     rootHandler NetURL.ParseRequestURI NotFoundHandler 0 env_write_fails
       (request_test_code MethodGet) test_store = Some (resp, urls')
     /\ Status resp = 500
     /\ Location (request_test_code MethodGet) resp = None)
  /\ (exists resp,
        rootHandler NetURL.ParseRequestURI one_page_server 0 env_ok
          (mkRequest MethodGet "/" "") test_store = Some (resp, test_store)
        /\ Status resp = 200)
  /\ (NetURL.ParseRequestURI "/a/../b" = true
      /\ exists resp urls',
           rootHandler NetURL.ParseRequestURI NotFoundHandler 0 env_ok
             (mkRequest MethodGet "/x" "") [ mkURLRecord "x" "/a/../b" "" 0 ] =
           Some (resp, urls')
           /\ Status resp = 302
           /\ Location (mkRequest MethodGet "/x" "") resp = Some "/b"
           /\ "/b" <> "/a/../b")
  /\ (let cafe := "https://example.com/caf" ++ String "195" (String "169" "") in
      NetURL.ParseRequestURI cafe = true
      /\ exists resp urls',
           rootHandler NetURL.ParseRequestURI NotFoundHandler 0 env_ok
             (mkRequest MethodGet "/x" "") [ mkURLRecord "x" cafe "" 0 ] =
           Some (resp, urls')
           /\ Status resp = 302
           /\ Location (mkRequest MethodGet "/x" "") resp =
              Some "https://example.com/caf%c3%a9"
           /\ "https://example.com/caf%c3%a9" <> cafe)
  /\ (let store := [ mkURLRecord "" "https://example.com/" "" 0 ] in
      ShortCode (mkURLRecord "" "https://example.com/" "" 0) =
        TrimPrefix_slash "/"
      /\ rootHandler NetURL.ParseRequestURI NotFoundHandler 0 env_ok
           (mkRequest MethodGet "/" "") store =
         Some (OtherResponse 404 "404 page not found", store)).
Proof.
  split; [|split; [|split; [|split]]].
  - eexists. eexists. split; [vm_compute; reflexivity|]. split; reflexivity.
  - eexists. split; [vm_compute; reflexivity | reflexivity].
  - split; [vm_compute; reflexivity|]. eexists. eexists.
    split; [vm_compute; reflexivity|]. split; [reflexivity|].
    split; [vm_compute; reflexivity | discriminate].
  - cbv zeta. split; [vm_compute; reflexivity|]. eexists. eexists.
    split; [vm_compute; reflexivity|]. split; [reflexivity|].
    split; [vm_compute; reflexivity | vm_compute; discriminate].
  - cbv zeta. split; [reflexivity | vm_compute; reflexivity].
Qed.

(** C8 as stated has a persistence failure as the failure of the list.
    With the backing file failing to be written, the list is answered 200
    with the records all the same. *)
Lemma list_contract_counterexample :
  WriteFile_fails env_write_fails = true
  /\ saveURLs env_write_fails test_store = None
  /\ rootHandler NetURL.ParseRequestURI NotFoundHandler 0 env_write_fails
       get_urls test_store =
     Some (JSONResponse 200 (JSON.of_urls test_store), test_store)
  /\ Status (fst (getURLsHandler env_write_fails test_store)) = 200
  /\ 200 <> StatusInternalServerError.
Proof.
  repeat split. discriminate.
Qed.


(** C6 as stated is about every collection.  A Go string is any sequence
    of bytes; the encoder writes a byte that is not UTF-8 as U+FFFD, and
    the record that is loaded has the three bytes of U+FFFD where the
    record that was saved had the byte 0xFF. *)
Lemma persistence_round_trip_counterexample :
  JSON.Unmarshal
    (JSON.MarshalIndent [ mkURLRecord "quick-fox" (String "255" "") "" 0 ]) =
  Some [ mkURLRecord "quick-fox" (String "239" (String "191" (String "189" "")))
           "" 0 ]
  /\ [ mkURLRecord "quick-fox" (String "239" (String "191" (String "189" "")))
         "" 0 ]
     <> [ mkURLRecord "quick-fox" (String "255" "") "" 0 ].
Proof.
  split; [vm_compute; reflexivity | discriminate].
Qed.
